(** * lotus-weather: cache, error classification, OpenWeather normalisation
      and the fallback-aware orchestrator, embedded from the TypeScript sources.

    Conventions of the embedding.
    - A JavaScript [number] that is passed on, compared, selected or, in the
      current-weather normalisation, converted between units is a rational
      [Q] (a finite double read as the exact value it denotes; NaN is not
      modelled there).  [Math.min] / [Math.max] of the sample temperatures
      select one of them, or are one of the two infinities when there is
      none, so their results live in [xnum].
    - The numbers the forecast aggregation computes with (products, sums,
      averages, roundings) are IEEE 754 doubles, the primitive [float]:
      every operation gives the double nearest to its exact result, as it
      does in the host.
    - A day count is an integer [Z].
    - A JavaScript string is a [string] that holds its UTF-8 encoding, which
      is what a string literal of this file denotes.  Strings are well
      formed (a lone surrogate is not modelled).  [toLowerCase] and [trim]
      work on the code points, with the case mappings and properties of
      Unicode 14.0; a byte sequence that is not well-formed UTF-8 stands for
      no string, and the two leave it as it is.
    - A [Map] that is only looked up by key is a [gmap]; a [Map] that is
      iterated (insertion order matters) is an association list.
    - An [async] method is a function of the world it runs in: it returns a
      completion (a value or a thrown value) and the world it leaves.  The
      HTTP transport, the clock and the runtime's number and date formatting
      are parameters. *)

From Stdlib Require Import Floats.
From Stdlib Require Import ZArith NArith QArith Qround Lia Lqa Bool Ascii String List.
From stdpp Require Import base option gmap strings.
Import ListNotations.

Set Warnings "-register-all".
(* A decimal literal in [float_scope] denotes the double nearest to it, as a
   numeric literal does in the source and in JSON. *)
Set Warnings "-inexact-float".
Local Open Scope Z_scope.
Local Open Scope string_scope.

(* ===================================================================== *)
(** ** Unicode: UTF-8, white space and lowercase *)
(* ===================================================================== *)

Module Unicode.
Local Open Scope N_scope.
Local Open Scope list_scope.

(** The byte with a given value. *)
Definition byte (n : N) : ascii := ascii_of_N n.

(** The UTF-8 encoding of one code point. *)
Definition encode_point (c : N) : string :=
  if c <? 0x80 then String (byte c) ""
  else if c <? 0x800 then
    String (byte (0xC0 + c / 0x40)) (String (byte (0x80 + c mod 0x40)) "")
  else if c <? 0x10000 then
    String (byte (0xE0 + c / 0x1000))
      (String (byte (0x80 + (c / 0x40) mod 0x40))
         (String (byte (0x80 + c mod 0x40)) ""))
  else
    String (byte (0xF0 + c / 0x40000))
      (String (byte (0x80 + (c / 0x1000) mod 0x40))
         (String (byte (0x80 + (c / 0x40) mod 0x40))
            (String (byte (0x80 + c mod 0x40)) ""))).

Fixpoint encode (points : list N) : string :=
  match points with
  | [] => ""
  | c :: rest => encode_point c +:+ encode rest
  end.

(** The six payload bits of a continuation byte [10xxxxxx]. *)
Definition continuation (b : ascii) : option N :=
  let n := N_of_ascii b in
  if (0x80 <=? n) && (n <? 0xC0) then Some (n - 0x80) else None.

(** A Unicode scalar value: a code point that is not a surrogate. *)
Definition scalar (c : N) : bool :=
  (c <? 0xD800) || ((0xE000 <=? c) && (c <? 0x110000)).

(** The code points of a well-formed UTF-8 string; [None] for any other
    sequence of bytes (a stray or missing continuation byte, an overlong
    form, a surrogate, a value above U+10FFFF). *)
Fixpoint decode (s : string) : option (list N) :=
  match s with
  | "" => Some []
  | String b1 s1 =>
      let n1 := N_of_ascii b1 in
      if n1 <? 0x80 then option_map (cons n1) (decode s1)
      else
        match s1 with
        | "" => None
        | String b2 s2 =>
            match continuation b2 with
            | None => None
            | Some x2 =>
                if (0xC2 <=? n1) && (n1 <? 0xE0) then
                  option_map (cons ((n1 - 0xC0) * 0x40 + x2)) (decode s2)
                else
                  match s2 with
                  | "" => None
                  | String b3 s3 =>
                      match continuation b3 with
                      | None => None
                      | Some x3 =>
                          if (0xE0 <=? n1) && (n1 <? 0xF0) then
                            let c := (n1 - 0xE0) * 0x1000 + x2 * 0x40 + x3 in
                            if (0x800 <=? c) && scalar c
                            then option_map (cons c) (decode s3)
                            else None
                          else
                            match s3 with
                            | "" => None
                            | String b4 s4 =>
                                match continuation b4 with
                                | None => None
                                | Some x4 =>
                                    if (0xF0 <=? n1) && (n1 <? 0xF8) then
                                      let c := (n1 - 0xF0) * 0x40000 + x2 * 0x1000
                                               + x3 * 0x40 + x4 in
                                      if (0x10000 <=? c) && (c <? 0x110000)
                                      then option_map (cons c) (decode s4)
                                      else None
                                    else None
                                end
                            end
                      end
                  end
            end
        end
  end.

(** [WhiteSpace] and [LineTerminator], the code points [trim] strips. *)
Definition white_space (c : N) : bool :=
  ((0x9 <=? c) && (c <=? 0xD)) || (c =? 0x20) || (c =? 0xA0) || (c =? 0x1680)
  || ((0x2000 <=? c) && (c <=? 0x200A)) || (c =? 0x2028) || (c =? 0x2029)
  || (c =? 0x202F) || (c =? 0x205F) || (c =? 0x3000) || (c =? 0xFEFF).

(** The character database (Unicode 14.0).  [lower_ranges] lists the code
    points with a [Simple_Lowercase_Mapping] as [(first, last, step,
    lowercase of first)]: every [step]-th code point from [first] to [last]
    maps to the code point at the same distance from the lowercase of
    [first].  The other two tables list the ranges of the code points with
    the properties [Case_Ignorable] and [Cased]. *)
Definition lower_ranges : list (N * N * N * N) :=
  [
   (0x41, 0x5A, 1, 0x61); (0xC0, 0xD6, 1, 0xE0); (0xD8, 0xDE, 1, 0xF8);
   (0x100, 0x12E, 2, 0x101); (0x130, 0x130, 1, 0x69);
   (0x132, 0x136, 2, 0x133); (0x139, 0x147, 2, 0x13A);
   (0x14A, 0x176, 2, 0x14B); (0x178, 0x178, 1, 0xFF);
   (0x179, 0x17D, 2, 0x17A); (0x181, 0x181, 1, 0x253);
   (0x182, 0x184, 2, 0x183); (0x186, 0x186, 1, 0x254);
   (0x187, 0x187, 1, 0x188); (0x189, 0x18A, 1, 0x256);
   (0x18B, 0x18B, 1, 0x18C); (0x18E, 0x18E, 1, 0x1DD);
   (0x18F, 0x18F, 1, 0x259); (0x190, 0x190, 1, 0x25B);
   (0x191, 0x191, 1, 0x192); (0x193, 0x193, 1, 0x260);
   (0x194, 0x194, 1, 0x263); (0x196, 0x196, 1, 0x269);
   (0x197, 0x197, 1, 0x268); (0x198, 0x198, 1, 0x199);
   (0x19C, 0x19C, 1, 0x26F); (0x19D, 0x19D, 1, 0x272);
   (0x19F, 0x19F, 1, 0x275); (0x1A0, 0x1A4, 2, 0x1A1);
   (0x1A6, 0x1A6, 1, 0x280); (0x1A7, 0x1A7, 1, 0x1A8);
   (0x1A9, 0x1A9, 1, 0x283); (0x1AC, 0x1AC, 1, 0x1AD);
   (0x1AE, 0x1AE, 1, 0x288); (0x1AF, 0x1AF, 1, 0x1B0);
   (0x1B1, 0x1B2, 1, 0x28A); (0x1B3, 0x1B5, 2, 0x1B4);
   (0x1B7, 0x1B7, 1, 0x292); (0x1B8, 0x1B8, 1, 0x1B9);
   (0x1BC, 0x1BC, 1, 0x1BD); (0x1C4, 0x1C4, 1, 0x1C6);
   (0x1C5, 0x1C5, 1, 0x1C6); (0x1C7, 0x1C7, 1, 0x1C9);
   (0x1C8, 0x1C8, 1, 0x1C9); (0x1CA, 0x1CA, 1, 0x1CC);
   (0x1CB, 0x1DB, 2, 0x1CC); (0x1DE, 0x1EE, 2, 0x1DF);
   (0x1F1, 0x1F1, 1, 0x1F3); (0x1F2, 0x1F4, 2, 0x1F3);
   (0x1F6, 0x1F6, 1, 0x195); (0x1F7, 0x1F7, 1, 0x1BF);
   (0x1F8, 0x21E, 2, 0x1F9); (0x220, 0x220, 1, 0x19E);
   (0x222, 0x232, 2, 0x223); (0x23A, 0x23A, 1, 0x2C65);
   (0x23B, 0x23B, 1, 0x23C); (0x23D, 0x23D, 1, 0x19A);
   (0x23E, 0x23E, 1, 0x2C66); (0x241, 0x241, 1, 0x242);
   (0x243, 0x243, 1, 0x180); (0x244, 0x244, 1, 0x289);
   (0x245, 0x245, 1, 0x28C); (0x246, 0x24E, 2, 0x247);
   (0x370, 0x372, 2, 0x371); (0x376, 0x376, 1, 0x377);
   (0x37F, 0x37F, 1, 0x3F3); (0x386, 0x386, 1, 0x3AC);
   (0x388, 0x38A, 1, 0x3AD); (0x38C, 0x38C, 1, 0x3CC);
   (0x38E, 0x38F, 1, 0x3CD); (0x391, 0x3A1, 1, 0x3B1);
   (0x3A3, 0x3AB, 1, 0x3C3); (0x3CF, 0x3CF, 1, 0x3D7);
   (0x3D8, 0x3EE, 2, 0x3D9); (0x3F4, 0x3F4, 1, 0x3B8);
   (0x3F7, 0x3F7, 1, 0x3F8); (0x3F9, 0x3F9, 1, 0x3F2);
   (0x3FA, 0x3FA, 1, 0x3FB); (0x3FD, 0x3FF, 1, 0x37B);
   (0x400, 0x40F, 1, 0x450); (0x410, 0x42F, 1, 0x430);
   (0x460, 0x480, 2, 0x461); (0x48A, 0x4BE, 2, 0x48B);
   (0x4C0, 0x4C0, 1, 0x4CF); (0x4C1, 0x4CD, 2, 0x4C2);
   (0x4D0, 0x52E, 2, 0x4D1); (0x531, 0x556, 1, 0x561);
   (0x10A0, 0x10C5, 1, 0x2D00); (0x10C7, 0x10C7, 1, 0x2D27);
   (0x10CD, 0x10CD, 1, 0x2D2D); (0x13A0, 0x13EF, 1, 0xAB70);
   (0x13F0, 0x13F5, 1, 0x13F8); (0x1C90, 0x1CBA, 1, 0x10D0);
   (0x1CBD, 0x1CBF, 1, 0x10FD); (0x1E00, 0x1E94, 2, 0x1E01);
   (0x1E9E, 0x1E9E, 1, 0xDF); (0x1EA0, 0x1EFE, 2, 0x1EA1);
   (0x1F08, 0x1F0F, 1, 0x1F00); (0x1F18, 0x1F1D, 1, 0x1F10);
   (0x1F28, 0x1F2F, 1, 0x1F20); (0x1F38, 0x1F3F, 1, 0x1F30);
   (0x1F48, 0x1F4D, 1, 0x1F40); (0x1F59, 0x1F5F, 2, 0x1F51);
   (0x1F68, 0x1F6F, 1, 0x1F60); (0x1F88, 0x1F8F, 1, 0x1F80);
   (0x1F98, 0x1F9F, 1, 0x1F90); (0x1FA8, 0x1FAF, 1, 0x1FA0);
   (0x1FB8, 0x1FB9, 1, 0x1FB0); (0x1FBA, 0x1FBB, 1, 0x1F70);
   (0x1FBC, 0x1FBC, 1, 0x1FB3); (0x1FC8, 0x1FCB, 1, 0x1F72);
   (0x1FCC, 0x1FCC, 1, 0x1FC3); (0x1FD8, 0x1FD9, 1, 0x1FD0);
   (0x1FDA, 0x1FDB, 1, 0x1F76); (0x1FE8, 0x1FE9, 1, 0x1FE0);
   (0x1FEA, 0x1FEB, 1, 0x1F7A); (0x1FEC, 0x1FEC, 1, 0x1FE5);
   (0x1FF8, 0x1FF9, 1, 0x1F78); (0x1FFA, 0x1FFB, 1, 0x1F7C);
   (0x1FFC, 0x1FFC, 1, 0x1FF3); (0x2126, 0x2126, 1, 0x3C9);
   (0x212A, 0x212A, 1, 0x6B); (0x212B, 0x212B, 1, 0xE5);
   (0x2132, 0x2132, 1, 0x214E); (0x2160, 0x216F, 1, 0x2170);
   (0x2183, 0x2183, 1, 0x2184); (0x24B6, 0x24CF, 1, 0x24D0);
   (0x2C00, 0x2C2F, 1, 0x2C30); (0x2C60, 0x2C60, 1, 0x2C61);
   (0x2C62, 0x2C62, 1, 0x26B); (0x2C63, 0x2C63, 1, 0x1D7D);
   (0x2C64, 0x2C64, 1, 0x27D); (0x2C67, 0x2C6B, 2, 0x2C68);
   (0x2C6D, 0x2C6D, 1, 0x251); (0x2C6E, 0x2C6E, 1, 0x271);
   (0x2C6F, 0x2C6F, 1, 0x250); (0x2C70, 0x2C70, 1, 0x252);
   (0x2C72, 0x2C72, 1, 0x2C73); (0x2C75, 0x2C75, 1, 0x2C76);
   (0x2C7E, 0x2C7F, 1, 0x23F); (0x2C80, 0x2CE2, 2, 0x2C81);
   (0x2CEB, 0x2CED, 2, 0x2CEC); (0x2CF2, 0x2CF2, 1, 0x2CF3);
   (0xA640, 0xA66C, 2, 0xA641); (0xA680, 0xA69A, 2, 0xA681);
   (0xA722, 0xA72E, 2, 0xA723); (0xA732, 0xA76E, 2, 0xA733);
   (0xA779, 0xA77B, 2, 0xA77A); (0xA77D, 0xA77D, 1, 0x1D79);
   (0xA77E, 0xA786, 2, 0xA77F); (0xA78B, 0xA78B, 1, 0xA78C);
   (0xA78D, 0xA78D, 1, 0x265); (0xA790, 0xA792, 2, 0xA791);
   (0xA796, 0xA7A8, 2, 0xA797); (0xA7AA, 0xA7AA, 1, 0x266);
   (0xA7AB, 0xA7AB, 1, 0x25C); (0xA7AC, 0xA7AC, 1, 0x261);
   (0xA7AD, 0xA7AD, 1, 0x26C); (0xA7AE, 0xA7AE, 1, 0x26A);
   (0xA7B0, 0xA7B0, 1, 0x29E); (0xA7B1, 0xA7B1, 1, 0x287);
   (0xA7B2, 0xA7B2, 1, 0x29D); (0xA7B3, 0xA7B3, 1, 0xAB53);
   (0xA7B4, 0xA7C2, 2, 0xA7B5); (0xA7C4, 0xA7C4, 1, 0xA794);
   (0xA7C5, 0xA7C5, 1, 0x282); (0xA7C6, 0xA7C6, 1, 0x1D8E);
   (0xA7C7, 0xA7C9, 2, 0xA7C8); (0xA7D0, 0xA7D0, 1, 0xA7D1);
   (0xA7D6, 0xA7D8, 2, 0xA7D7); (0xA7F5, 0xA7F5, 1, 0xA7F6);
   (0xFF21, 0xFF3A, 1, 0xFF41); (0x10400, 0x10427, 1, 0x10428);
   (0x104B0, 0x104D3, 1, 0x104D8); (0x10570, 0x1057A, 1, 0x10597);
   (0x1057C, 0x1058A, 1, 0x105A3); (0x1058C, 0x10592, 1, 0x105B3);
   (0x10594, 0x10595, 1, 0x105BB); (0x10C80, 0x10CB2, 1, 0x10CC0);
   (0x118A0, 0x118BF, 1, 0x118C0); (0x16E40, 0x16E5F, 1, 0x16E60);
   (0x1E900, 0x1E921, 1, 0x1E922)].

Definition case_ignorable_ranges : list (N * N) :=
  [
   (0x27, 0x27); (0x2E, 0x2E); (0x3A, 0x3A); (0x5E, 0x5E); (0x60, 0x60);
   (0xA8, 0xA8); (0xAD, 0xAD); (0xAF, 0xAF); (0xB4, 0xB4); (0xB7, 0xB8);
   (0x2B0, 0x36F); (0x374, 0x375); (0x37A, 0x37A); (0x384, 0x385);
   (0x387, 0x387); (0x483, 0x489); (0x559, 0x559); (0x55F, 0x55F);
   (0x591, 0x5BD); (0x5BF, 0x5BF); (0x5C1, 0x5C2); (0x5C4, 0x5C5);
   (0x5C7, 0x5C7); (0x5F4, 0x5F4); (0x600, 0x605); (0x610, 0x61A);
   (0x61C, 0x61C); (0x640, 0x640); (0x64B, 0x65F); (0x670, 0x670);
   (0x6D6, 0x6DD); (0x6DF, 0x6E8); (0x6EA, 0x6ED); (0x70F, 0x70F);
   (0x711, 0x711); (0x730, 0x74A); (0x7A6, 0x7B0); (0x7EB, 0x7F5);
   (0x7FA, 0x7FA); (0x7FD, 0x7FD); (0x816, 0x82D); (0x859, 0x85B);
   (0x888, 0x888); (0x890, 0x891); (0x898, 0x89F); (0x8C9, 0x902);
   (0x93A, 0x93A); (0x93C, 0x93C); (0x941, 0x948); (0x94D, 0x94D);
   (0x951, 0x957); (0x962, 0x963); (0x971, 0x971); (0x981, 0x981);
   (0x9BC, 0x9BC); (0x9C1, 0x9C4); (0x9CD, 0x9CD); (0x9E2, 0x9E3);
   (0x9FE, 0x9FE); (0xA01, 0xA02); (0xA3C, 0xA3C); (0xA41, 0xA42);
   (0xA47, 0xA48); (0xA4B, 0xA4D); (0xA51, 0xA51); (0xA70, 0xA71);
   (0xA75, 0xA75); (0xA81, 0xA82); (0xABC, 0xABC); (0xAC1, 0xAC5);
   (0xAC7, 0xAC8); (0xACD, 0xACD); (0xAE2, 0xAE3); (0xAFA, 0xAFF);
   (0xB01, 0xB01); (0xB3C, 0xB3C); (0xB3F, 0xB3F); (0xB41, 0xB44);
   (0xB4D, 0xB4D); (0xB55, 0xB56); (0xB62, 0xB63); (0xB82, 0xB82);
   (0xBC0, 0xBC0); (0xBCD, 0xBCD); (0xC00, 0xC00); (0xC04, 0xC04);
   (0xC3C, 0xC3C); (0xC3E, 0xC40); (0xC46, 0xC48); (0xC4A, 0xC4D);
   (0xC55, 0xC56); (0xC62, 0xC63); (0xC81, 0xC81); (0xCBC, 0xCBC);
   (0xCBF, 0xCBF); (0xCC6, 0xCC6); (0xCCC, 0xCCD); (0xCE2, 0xCE3);
   (0xD00, 0xD01); (0xD3B, 0xD3C); (0xD41, 0xD44); (0xD4D, 0xD4D);
   (0xD62, 0xD63); (0xD81, 0xD81); (0xDCA, 0xDCA); (0xDD2, 0xDD4);
   (0xDD6, 0xDD6); (0xE31, 0xE31); (0xE34, 0xE3A); (0xE46, 0xE4E);
   (0xEB1, 0xEB1); (0xEB4, 0xEBC); (0xEC6, 0xEC6); (0xEC8, 0xECD);
   (0xF18, 0xF19); (0xF35, 0xF35); (0xF37, 0xF37); (0xF39, 0xF39);
   (0xF71, 0xF7E); (0xF80, 0xF84); (0xF86, 0xF87); (0xF8D, 0xF97);
   (0xF99, 0xFBC); (0xFC6, 0xFC6); (0x102D, 0x1030); (0x1032, 0x1037);
   (0x1039, 0x103A); (0x103D, 0x103E); (0x1058, 0x1059); (0x105E, 0x1060);
   (0x1071, 0x1074); (0x1082, 0x1082); (0x1085, 0x1086); (0x108D, 0x108D);
   (0x109D, 0x109D); (0x10FC, 0x10FC); (0x135D, 0x135F); (0x1712, 0x1714);
   (0x1732, 0x1733); (0x1752, 0x1753); (0x1772, 0x1773); (0x17B4, 0x17B5);
   (0x17B7, 0x17BD); (0x17C6, 0x17C6); (0x17C9, 0x17D3); (0x17D7, 0x17D7);
   (0x17DD, 0x17DD); (0x180B, 0x180F); (0x1843, 0x1843); (0x1885, 0x1886);
   (0x18A9, 0x18A9); (0x1920, 0x1922); (0x1927, 0x1928); (0x1932, 0x1932);
   (0x1939, 0x193B); (0x1A17, 0x1A18); (0x1A1B, 0x1A1B); (0x1A56, 0x1A56);
   (0x1A58, 0x1A5E); (0x1A60, 0x1A60); (0x1A62, 0x1A62); (0x1A65, 0x1A6C);
   (0x1A73, 0x1A7C); (0x1A7F, 0x1A7F); (0x1AA7, 0x1AA7); (0x1AB0, 0x1ACE);
   (0x1B00, 0x1B03); (0x1B34, 0x1B34); (0x1B36, 0x1B3A); (0x1B3C, 0x1B3C);
   (0x1B42, 0x1B42); (0x1B6B, 0x1B73); (0x1B80, 0x1B81); (0x1BA2, 0x1BA5);
   (0x1BA8, 0x1BA9); (0x1BAB, 0x1BAD); (0x1BE6, 0x1BE6); (0x1BE8, 0x1BE9);
   (0x1BED, 0x1BED); (0x1BEF, 0x1BF1); (0x1C2C, 0x1C33); (0x1C36, 0x1C37);
   (0x1C78, 0x1C7D); (0x1CD0, 0x1CD2); (0x1CD4, 0x1CE0); (0x1CE2, 0x1CE8);
   (0x1CED, 0x1CED); (0x1CF4, 0x1CF4); (0x1CF8, 0x1CF9); (0x1D2C, 0x1D6A);
   (0x1D78, 0x1D78); (0x1D9B, 0x1DFF); (0x1FBD, 0x1FBD); (0x1FBF, 0x1FC1);
   (0x1FCD, 0x1FCF); (0x1FDD, 0x1FDF); (0x1FED, 0x1FEF); (0x1FFD, 0x1FFE);
   (0x200B, 0x200F); (0x2018, 0x2019); (0x2024, 0x2024); (0x2027, 0x2027);
   (0x202A, 0x202E); (0x2060, 0x2064); (0x2066, 0x206F); (0x2071, 0x2071);
   (0x207F, 0x207F); (0x2090, 0x209C); (0x20D0, 0x20F0); (0x2C7C, 0x2C7D);
   (0x2CEF, 0x2CF1); (0x2D6F, 0x2D6F); (0x2D7F, 0x2D7F); (0x2DE0, 0x2DFF);
   (0x2E2F, 0x2E2F); (0x3005, 0x3005); (0x302A, 0x302D); (0x3031, 0x3035);
   (0x303B, 0x303B); (0x3099, 0x309E); (0x30FC, 0x30FE); (0xA015, 0xA015);
   (0xA4F8, 0xA4FD); (0xA60C, 0xA60C); (0xA66F, 0xA672); (0xA674, 0xA67D);
   (0xA67F, 0xA67F); (0xA69C, 0xA69F); (0xA6F0, 0xA6F1); (0xA700, 0xA721);
   (0xA770, 0xA770); (0xA788, 0xA78A); (0xA7F2, 0xA7F4); (0xA7F8, 0xA7F9);
   (0xA802, 0xA802); (0xA806, 0xA806); (0xA80B, 0xA80B); (0xA825, 0xA826);
   (0xA82C, 0xA82C); (0xA8C4, 0xA8C5); (0xA8E0, 0xA8F1); (0xA8FF, 0xA8FF);
   (0xA926, 0xA92D); (0xA947, 0xA951); (0xA980, 0xA982); (0xA9B3, 0xA9B3);
   (0xA9B6, 0xA9B9); (0xA9BC, 0xA9BD); (0xA9CF, 0xA9CF); (0xA9E5, 0xA9E6);
   (0xAA29, 0xAA2E); (0xAA31, 0xAA32); (0xAA35, 0xAA36); (0xAA43, 0xAA43);
   (0xAA4C, 0xAA4C); (0xAA70, 0xAA70); (0xAA7C, 0xAA7C); (0xAAB0, 0xAAB0);
   (0xAAB2, 0xAAB4); (0xAAB7, 0xAAB8); (0xAABE, 0xAABF); (0xAAC1, 0xAAC1);
   (0xAADD, 0xAADD); (0xAAEC, 0xAAED); (0xAAF3, 0xAAF4); (0xAAF6, 0xAAF6);
   (0xAB5B, 0xAB5F); (0xAB69, 0xAB6B); (0xABE5, 0xABE5); (0xABE8, 0xABE8);
   (0xABED, 0xABED); (0xFB1E, 0xFB1E); (0xFBB2, 0xFBC2); (0xFE00, 0xFE0F);
   (0xFE13, 0xFE13); (0xFE20, 0xFE2F); (0xFE52, 0xFE52); (0xFE55, 0xFE55);
   (0xFEFF, 0xFEFF); (0xFF07, 0xFF07); (0xFF0E, 0xFF0E); (0xFF1A, 0xFF1A);
   (0xFF3E, 0xFF3E); (0xFF40, 0xFF40); (0xFF70, 0xFF70); (0xFF9E, 0xFF9F);
   (0xFFE3, 0xFFE3); (0xFFF9, 0xFFFB); (0x101FD, 0x101FD);
   (0x102E0, 0x102E0); (0x10376, 0x1037A); (0x10780, 0x10785);
   (0x10787, 0x107B0); (0x107B2, 0x107BA); (0x10A01, 0x10A03);
   (0x10A05, 0x10A06); (0x10A0C, 0x10A0F); (0x10A38, 0x10A3A);
   (0x10A3F, 0x10A3F); (0x10AE5, 0x10AE6); (0x10D24, 0x10D27);
   (0x10EAB, 0x10EAC); (0x10F46, 0x10F50); (0x10F82, 0x10F85);
   (0x11001, 0x11001); (0x11038, 0x11046); (0x11070, 0x11070);
   (0x11073, 0x11074); (0x1107F, 0x11081); (0x110B3, 0x110B6);
   (0x110B9, 0x110BA); (0x110BD, 0x110BD); (0x110C2, 0x110C2);
   (0x110CD, 0x110CD); (0x11100, 0x11102); (0x11127, 0x1112B);
   (0x1112D, 0x11134); (0x11173, 0x11173); (0x11180, 0x11181);
   (0x111B6, 0x111BE); (0x111C9, 0x111CC); (0x111CF, 0x111CF);
   (0x1122F, 0x11231); (0x11234, 0x11234); (0x11236, 0x11237);
   (0x1123E, 0x1123E); (0x112DF, 0x112DF); (0x112E3, 0x112EA);
   (0x11300, 0x11301); (0x1133B, 0x1133C); (0x11340, 0x11340);
   (0x11366, 0x1136C); (0x11370, 0x11374); (0x11438, 0x1143F);
   (0x11442, 0x11444); (0x11446, 0x11446); (0x1145E, 0x1145E);
   (0x114B3, 0x114B8); (0x114BA, 0x114BA); (0x114BF, 0x114C0);
   (0x114C2, 0x114C3); (0x115B2, 0x115B5); (0x115BC, 0x115BD);
   (0x115BF, 0x115C0); (0x115DC, 0x115DD); (0x11633, 0x1163A);
   (0x1163D, 0x1163D); (0x1163F, 0x11640); (0x116AB, 0x116AB);
   (0x116AD, 0x116AD); (0x116B0, 0x116B5); (0x116B7, 0x116B7);
   (0x1171D, 0x1171F); (0x11722, 0x11725); (0x11727, 0x1172B);
   (0x1182F, 0x11837); (0x11839, 0x1183A); (0x1193B, 0x1193C);
   (0x1193E, 0x1193E); (0x11943, 0x11943); (0x119D4, 0x119D7);
   (0x119DA, 0x119DB); (0x119E0, 0x119E0); (0x11A01, 0x11A0A);
   (0x11A33, 0x11A38); (0x11A3B, 0x11A3E); (0x11A47, 0x11A47);
   (0x11A51, 0x11A56); (0x11A59, 0x11A5B); (0x11A8A, 0x11A96);
   (0x11A98, 0x11A99); (0x11C30, 0x11C36); (0x11C38, 0x11C3D);
   (0x11C3F, 0x11C3F); (0x11C92, 0x11CA7); (0x11CAA, 0x11CB0);
   (0x11CB2, 0x11CB3); (0x11CB5, 0x11CB6); (0x11D31, 0x11D36);
   (0x11D3A, 0x11D3A); (0x11D3C, 0x11D3D); (0x11D3F, 0x11D45);
   (0x11D47, 0x11D47); (0x11D90, 0x11D91); (0x11D95, 0x11D95);
   (0x11D97, 0x11D97); (0x11EF3, 0x11EF4); (0x13430, 0x13438);
   (0x16AF0, 0x16AF4); (0x16B30, 0x16B36); (0x16B40, 0x16B43);
   (0x16F4F, 0x16F4F); (0x16F8F, 0x16F9F); (0x16FE0, 0x16FE1);
   (0x16FE3, 0x16FE4); (0x1AFF0, 0x1AFF3); (0x1AFF5, 0x1AFFB);
   (0x1AFFD, 0x1AFFE); (0x1BC9D, 0x1BC9E); (0x1BCA0, 0x1BCA3);
   (0x1CF00, 0x1CF2D); (0x1CF30, 0x1CF46); (0x1D167, 0x1D169);
   (0x1D173, 0x1D182); (0x1D185, 0x1D18B); (0x1D1AA, 0x1D1AD);
   (0x1D242, 0x1D244); (0x1DA00, 0x1DA36); (0x1DA3B, 0x1DA6C);
   (0x1DA75, 0x1DA75); (0x1DA84, 0x1DA84); (0x1DA9B, 0x1DA9F);
   (0x1DAA1, 0x1DAAF); (0x1E000, 0x1E006); (0x1E008, 0x1E018);
   (0x1E01B, 0x1E021); (0x1E023, 0x1E024); (0x1E026, 0x1E02A);
   (0x1E130, 0x1E13D); (0x1E2AE, 0x1E2AE); (0x1E2EC, 0x1E2EF);
   (0x1E8D0, 0x1E8D6); (0x1E944, 0x1E94B); (0x1F3FB, 0x1F3FF);
   (0xE0001, 0xE0001); (0xE0020, 0xE007F); (0xE0100, 0xE01EF)].

Definition cased_ranges : list (N * N) :=
  [
   (0x41, 0x5A); (0x61, 0x7A); (0xAA, 0xAA); (0xB5, 0xB5); (0xBA, 0xBA);
   (0xC0, 0xD6); (0xD8, 0xF6); (0xF8, 0x1BA); (0x1BC, 0x1BF); (0x1C4, 0x293);
   (0x295, 0x2B8); (0x2C0, 0x2C1); (0x2E0, 0x2E4); (0x345, 0x345);
   (0x370, 0x373); (0x376, 0x377); (0x37A, 0x37D); (0x37F, 0x37F);
   (0x386, 0x386); (0x388, 0x38A); (0x38C, 0x38C); (0x38E, 0x3A1);
   (0x3A3, 0x3F5); (0x3F7, 0x481); (0x48A, 0x52F); (0x531, 0x556);
   (0x560, 0x588); (0x10A0, 0x10C5); (0x10C7, 0x10C7); (0x10CD, 0x10CD);
   (0x10D0, 0x10FA); (0x10FD, 0x10FF); (0x13A0, 0x13F5); (0x13F8, 0x13FD);
   (0x1C80, 0x1C88); (0x1C90, 0x1CBA); (0x1CBD, 0x1CBF); (0x1D00, 0x1DBF);
   (0x1E00, 0x1F15); (0x1F18, 0x1F1D); (0x1F20, 0x1F45); (0x1F48, 0x1F4D);
   (0x1F50, 0x1F57); (0x1F59, 0x1F59); (0x1F5B, 0x1F5B); (0x1F5D, 0x1F5D);
   (0x1F5F, 0x1F7D); (0x1F80, 0x1FB4); (0x1FB6, 0x1FBC); (0x1FBE, 0x1FBE);
   (0x1FC2, 0x1FC4); (0x1FC6, 0x1FCC); (0x1FD0, 0x1FD3); (0x1FD6, 0x1FDB);
   (0x1FE0, 0x1FEC); (0x1FF2, 0x1FF4); (0x1FF6, 0x1FFC); (0x2071, 0x2071);
   (0x207F, 0x207F); (0x2090, 0x209C); (0x2102, 0x2102); (0x2107, 0x2107);
   (0x210A, 0x2113); (0x2115, 0x2115); (0x2119, 0x211D); (0x2124, 0x2124);
   (0x2126, 0x2126); (0x2128, 0x2128); (0x212A, 0x212D); (0x212F, 0x2134);
   (0x2139, 0x2139); (0x213C, 0x213F); (0x2145, 0x2149); (0x214E, 0x214E);
   (0x2160, 0x217F); (0x2183, 0x2184); (0x24B6, 0x24E9); (0x2C00, 0x2CE4);
   (0x2CEB, 0x2CEE); (0x2CF2, 0x2CF3); (0x2D00, 0x2D25); (0x2D27, 0x2D27);
   (0x2D2D, 0x2D2D); (0xA640, 0xA66D); (0xA680, 0xA69D); (0xA722, 0xA787);
   (0xA78B, 0xA78E); (0xA790, 0xA7CA); (0xA7D0, 0xA7D1); (0xA7D3, 0xA7D3);
   (0xA7D5, 0xA7D9); (0xA7F5, 0xA7F6); (0xA7F8, 0xA7FA); (0xAB30, 0xAB5A);
   (0xAB5C, 0xAB68); (0xAB70, 0xABBF); (0xFB00, 0xFB06); (0xFB13, 0xFB17);
   (0xFF21, 0xFF3A); (0xFF41, 0xFF5A); (0x10400, 0x1044F);
   (0x104B0, 0x104D3); (0x104D8, 0x104FB); (0x10570, 0x1057A);
   (0x1057C, 0x1058A); (0x1058C, 0x10592); (0x10594, 0x10595);
   (0x10597, 0x105A1); (0x105A3, 0x105B1); (0x105B3, 0x105B9);
   (0x105BB, 0x105BC); (0x10780, 0x10780); (0x10783, 0x10785);
   (0x10787, 0x107B0); (0x107B2, 0x107BA); (0x10C80, 0x10CB2);
   (0x10CC0, 0x10CF2); (0x118A0, 0x118DF); (0x16E40, 0x16E7F);
   (0x1D400, 0x1D454); (0x1D456, 0x1D49C); (0x1D49E, 0x1D49F);
   (0x1D4A2, 0x1D4A2); (0x1D4A5, 0x1D4A6); (0x1D4A9, 0x1D4AC);
   (0x1D4AE, 0x1D4B9); (0x1D4BB, 0x1D4BB); (0x1D4BD, 0x1D4C3);
   (0x1D4C5, 0x1D505); (0x1D507, 0x1D50A); (0x1D50D, 0x1D514);
   (0x1D516, 0x1D51C); (0x1D51E, 0x1D539); (0x1D53B, 0x1D53E);
   (0x1D540, 0x1D544); (0x1D546, 0x1D546); (0x1D54A, 0x1D550);
   (0x1D552, 0x1D6A5); (0x1D6A8, 0x1D6C0); (0x1D6C2, 0x1D6DA);
   (0x1D6DC, 0x1D6FA); (0x1D6FC, 0x1D714); (0x1D716, 0x1D734);
   (0x1D736, 0x1D74E); (0x1D750, 0x1D76E); (0x1D770, 0x1D788);
   (0x1D78A, 0x1D7A8); (0x1D7AA, 0x1D7C2); (0x1D7C4, 0x1D7CB);
   (0x1DF00, 0x1DF09); (0x1DF0B, 0x1DF1E); (0x1E900, 0x1E943);
   (0x1F130, 0x1F149); (0x1F150, 0x1F169); (0x1F170, 0x1F189)].

(** The code points of a table entry, each with its lowercase. *)
Definition pairs_of (entry : N * N * N * N) : list (N * N) :=
  let '(first, last, step, target) := entry in
  map (fun k => let d := step * N.of_nat k in (first + d, target + d))
    (seq 0 (S (N.to_nat ((last - first) / step)))).

Definition lower_pairs : list (N * N) :=
  Eval vm_compute in flat_map pairs_of lower_ranges.

(** The lowercase a list of pairs gives for a code point, if any. *)
Definition lowercase_in (pairs : list (N * N)) (c : N) : option N :=
  option_map snd (find (fun p => fst p =? c) pairs).

(** [Simple_Lowercase_Mapping]: the lowercase of a code point that has one,
    the code point itself otherwise. *)
Definition simple_lower (c : N) : N := default c (lowercase_in lower_pairs c).

(** A code point without a lowercase of its own. *)
Definition unchanged (c : N) : Prop := lowercase_in lower_pairs c = None.

Definition within (c : N) (ranges : list (N * N)) : bool :=
  existsb (fun r => (fst r <=? c) && (c <=? snd r)) ranges.

Definition case_ignorable (c : N) : bool := within c case_ignorable_ranges.
Definition cased (c : N) : bool := within c cased_ranges.

(** What follows is zero or more case-ignorable code points and then a
    cased letter. *)
Fixpoint cased_letter_follows (rest : list N) : bool :=
  match rest with
  | [] => false
  | c :: rest' => if case_ignorable c then cased_letter_follows rest' else cased c
  end.

(** The two letters whose lowercase is not read off the table alone:
    [GREEK CAPITAL LETTER SIGMA], which becomes the final form U+03C2 after
    a cased letter when no cased letter follows and U+03C3 otherwise, and
    [LATIN CAPITAL LETTER I WITH DOT ABOVE], which becomes the two code
    points U+0069 U+0307. *)
Definition capital_sigma : N := 0x3A3.
Definition capital_i_with_dot : N := 0x130.

(** The lowercase of a sequence of code points, as [toLowerCase] computes
    it (the root-locale rules of the host's Unicode library).
    [after_cased] says that what precedes is a cased letter followed by
    zero or more case-ignorable code points. *)
Fixpoint to_lower_from (after_cased : bool) (points : list N) : list N :=
  match points with
  | [] => []
  | c :: rest =>
      let lowered :=
        if c =? capital_sigma then
          [if after_cased && negb (cased_letter_follows rest) then 0x3C2 else 0x3C3]
        else if c =? capital_i_with_dot then [0x69; 0x307]
        else [simple_lower c] in
      lowered ++ to_lower_from (if case_ignorable c then after_cased else cased c) rest
  end.

Definition to_lower (points : list N) : list N := to_lower_from false points.

(** [trimStart], [trimEnd] and [trim] on code points. *)
Fixpoint trim_start (points : list N) : list N :=
  match points with
  | [] => []
  | c :: rest => if white_space c then trim_start rest else points
  end.

Fixpoint trim_end (points : list N) : list N :=
  match points with
  | [] => []
  | c :: rest =>
      match trim_end rest with
      | [] => if white_space c then [] else [c]
      | t => c :: t
      end
  end.

Definition trim (points : list N) : list N := trim_end (trim_start points).

End Unicode.

(* ===================================================================== *)
(** ** Strings of the host language *)
(* ===================================================================== *)

Module JsString.

(** [s.toLowerCase()] *)
Definition toLowerCase (s : string) : string :=
  match Unicode.decode s with
  | Some points => Unicode.encode (Unicode.to_lower points)
  | None => s
  end.

(** [s.trim()] *)
Definition trim (s : string) : string :=
  match Unicode.decode s with
  | Some points => Unicode.encode (Unicode.trim points)
  | None => s
  end.

(** [parts.join(sep)] *)
Fixpoint join (sep : string) (parts : list string) : string :=
  match parts with
  | [] => EmptyString
  | [p] => p
  | p :: rest => p +:+ sep +:+ join sep rest
  end.

(** Truthiness of a string value: every string but the empty one. *)
Definition truthy (s : string) : bool :=
  match s with EmptyString => false | _ => true end.

(** [prefix p s]: [s.startsWith(p)] *)
Fixpoint startsWith (p s : string) : bool :=
  match p, s with
  | EmptyString, _ => true
  | String a p', String b s' => if Ascii.eqb a b then startsWith p' s' else false
  | String _ _, EmptyString => false
  end.

(** [s.includes(p)] *)
Fixpoint includes (p s : string) : bool :=
  startsWith p s
  || match s with
     | EmptyString => false
     | String _ s' => includes p s'
     end.

(** [s.split(" ")[0]]: the text before the first space (all of [s] when it
    has none). *)
Fixpoint before_space (s : string) : string :=
  match s with
  | EmptyString => EmptyString
  | String c s' => if Ascii.eqb c " " then EmptyString else String c (before_space s')
  end.

End JsString.

(* ===================================================================== *)
(** ** src/cache.ts *)
(* ===================================================================== *)

Module Cache.

(** [interface CacheEntry<T>] *)
Record CacheEntry (T : Type) : Type := mkEntry { value : T; expiresAt : Z }.
Arguments mkEntry {T} _ _.
Arguments value {T} _.
Arguments expiresAt {T} _.

(** [type CacheKeyType = "current" | "forecast" | "geocoding"] *)
Inductive CacheKeyType : Type := current | forecast | geocoding.

Definition CacheKeyType_text (m : CacheKeyType) : string :=
  match m with
  | current => "current"
  | forecast => "forecast"
  | geocoding => "geocoding"
  end.

(** [interface CacheTTL], every field optional. *)
Record CacheTTL : Type := mkTTL {
  ttl_current : option Z;
  ttl_forecast : option Z;
  ttl_geocoding : option Z
}.

(** [DEFAULT_TTL], milliseconds. *)
Definition DEFAULT_TTL_current : Z := 5 * 60 * 1000.
Definition DEFAULT_TTL_forecast : Z := 30 * 60 * 1000.
Definition DEFAULT_TTL_geocoding : Z := 24 * 60 * 60 * 1000.

(** [class Cache]: the private [store] and the resolved [ttl]. *)
Record t (T : Type) : Type := mkCache {
  store : gmap string (CacheEntry T);
  ttl : CacheKeyType -> Z
}.
Arguments mkCache {T} _ _.
Arguments store {T} _.
Arguments ttl {T} _.

(** [constructor(config?: CacheTTL)] *)
Definition new {T : Type} (config : option CacheTTL) : t T :=
  mkCache ∅
    (fun type =>
       match type with
       | current => default DEFAULT_TTL_current (config ≫= ttl_current)
       | forecast => default DEFAULT_TTL_forecast (config ≫= ttl_forecast)
       | geocoding => default DEFAULT_TTL_geocoding (config ≫= ttl_geocoding)
       end).

(** [static createKey(provider, method, location, options?)] *)
Definition createKey (provider : string) (method : CacheKeyType)
    (location : string) (options : option string) : string :=
  let parts :=
    [provider; CacheKeyType_text method;
     JsString.trim (JsString.toLowerCase location)] in
  let parts :=
    match options with
    | Some o => if JsString.truthy o then (parts ++ [o])%list else parts
    | None => parts
    end in
  JsString.join ":" parts.

(** [get<T>(key)], at the instant [now = Date.now()].  The result is the
    returned value ([None] for [undefined]) and the cache afterwards. *)
Definition get {T : Type} (now : Z) (key : string) (c : t T) : option T * t T :=
  match store c !! key with
  | None => (None, c)
  | Some entry =>
      if now >? expiresAt entry
      then (None, mkCache (delete key (store c)) (ttl c))
      else (Some (value entry), c)
  end.

(** [set<T>(key, value, type)] at the instant [now]. *)
Definition set {T : Type} (now : Z) (key : string) (v : T) (type : CacheKeyType)
    (c : t T) : t T :=
  mkCache (<[key := mkEntry v (now + ttl c type)]> (store c)) (ttl c).

(** [has(key)] *)
Definition has {T : Type} (now : Z) (key : string) (c : t T) : bool * t T :=
  let '(r, c') := get now key c in (bool_decide (is_Some r), c').

(** [clear()] *)
Definition clear {T : Type} (c : t T) : t T := mkCache ∅ (ttl c).

(** [get size()] *)
Definition size {T : Type} (c : t T) : nat := base.size (store c).

End Cache.

(* ===================================================================== *)
(** ** Numbers of the host language *)
(* ===================================================================== *)

Module JsNumber.

Local Open Scope Q_scope.

(** A finite number or one of the infinities. *)
Inductive xnum : Type :=
  | NegInfinity
  | Finite (q : Q)
  | PosInfinity.

Definition xmin (a b : xnum) : xnum :=
  match a, b with
  | NegInfinity, _ | _, NegInfinity => NegInfinity
  | PosInfinity, x | x, PosInfinity => x
  | Finite p, Finite q => if Qle_bool p q then Finite p else Finite q
  end.

Definition xmax (a b : xnum) : xnum :=
  match a, b with
  | PosInfinity, _ | _, PosInfinity => PosInfinity
  | NegInfinity, x | x, NegInfinity => x
  | Finite p, Finite q => if Qle_bool q p then Finite p else Finite q
  end.

(** [a <= b] on numbers. *)
Definition xle (a b : xnum) : Prop :=
  match a, b with
  | NegInfinity, _ => True
  | _, PosInfinity => True
  | Finite p, Finite q => p <= q
  | _, _ => False
  end.

(** [Math.min(...args)]: [Infinity] when there is no argument. *)
Definition Math_min (args : list Q) : xnum :=
  fold_left (fun acc x => xmin acc (Finite x)) args PosInfinity.

(** [Math.max(...args)]: [-Infinity] when there is no argument. *)
Definition Math_max (args : list Q) : xnum :=
  fold_left (fun acc x => xmax acc (Finite x)) args NegInfinity.

(** [Math.round(x)]: the integer [floor(x + 0.5)], ties towards +Infinity. *)
Definition Math_round (x : Q) : Q := inject_Z (Qfloor (x + (1 # 2))).

(** Truthiness of a number: every number but zero. *)
Definition truthy (x : Q) : bool := negb (Qeq_bool x 0).

(** [a >= b] and [a < b] as JavaScript booleans. *)
Definition ge (a b : Q) : bool := Qle_bool b a.
Definition lt (a b : Q) : bool := negb (Qle_bool b a).

End JsNumber.

(* ===================================================================== *)
(** ** Numbers the forecast computes with: IEEE 754 doubles *)
(* ===================================================================== *)

Module JsDouble.

Local Open Scope float_scope.

(** The Number value of an integer: the nearest double, which is the
    integer itself below 2^53. *)
Definition of_Z (n : Z) : float := SF2Prim (binary_normalize prec emax n 0 false).

(** [arr.length] as a Number. *)
Definition length_of {A : Type} (arr : list A) : float := of_Z (Z.of_nat (length arr)).

(** [arr.reduce((a, b) => a + b, 0)]: a sum from the left, every addition
    rounded to the nearest double. *)
Definition reduce_add (arr : list float) : float := fold_left PrimFloat.add arr 0.

(** [Math.round(x)]: NaN, the zeros and the infinities are returned as they
    are, and so is a number that is already integral; any other [x] gives
    the integer [floor(x + 0.5)] computed without rounding, which is [-0]
    for [-0.5 <= x < 0]. *)
Definition Math_round (x : float) : float :=
  match Prim2SF x with
  | S754_finite s m e =>
      if (0 <=? e)%Z then x
      else
        let twice := (2 * (if s then Z.neg m else Z.pos m))%Z in
        let n := ((twice + 2 ^ (- e)) / 2 ^ (1 - e))%Z in
        if (n =? 0)%Z then (if s then neg_zero else 0) else of_Z n
  | _ => x
  end.

(** One round of the loop of [Math.max]: an argument that is greater than
    the highest so far replaces it, and [+0] replaces [-0]. *)
Definition higher (highest number : float) : float :=
  match Prim2SF number, Prim2SF highest with
  | S754_zero false, S754_zero true => number
  | _, _ => if highest <? number then number else highest
  end.

(** [Math.max(...args)]: NaN when an argument is NaN; otherwise the loop
    over the arguments, started from [-Infinity]. *)
Definition Math_max (args : list float) : float :=
  if existsb is_nan args then nan else fold_left higher args neg_infinity.

(** [a > b] as a JavaScript boolean ([false] when one of them is NaN). *)
Definition gt (a b : float) : bool := b <? a.

End JsDouble.

(* ===================================================================== *)
(** ** Thrown values, completions, asynchronous computations *)
(* ===================================================================== *)

Module Js.

(** The constructor an object was made by, as far as [instanceof] can tell:
    a plain object, an [Error] (which includes [AxiosError], [TypeError] and
    [RangeError]), or this package's [WeatherError]. *)
Inductive Proto : Type := Object_proto | Error_proto | WeatherError_proto.

(** [error.response], as far as it is read: [{ status?: number }]. *)
Record Response : Type := mkResponse { status : option Z }.

(** An object that was thrown, seen through the properties the package
    inspects.  [response] is [None] when the key is absent or its value is
    falsy; [code] is [None] when the key is absent or its value is not a
    string; [request] tells whether the key ["request"] is in the object. *)
Inductive ErrorObject : Type := mkErrorObject {
  proto : Proto;
  message : string;
  response : option Response;
  code : option string;
  request : bool;
  cause : option ErrorObject
}.

(** Anything a [catch] clause can receive: an object, or a value that is
    falsy or whose [typeof] is not ["object"]. *)
Inductive Thrown : Type :=
  | ThrownObject (o : ErrorObject)
  | ThrownPrimitive.

(** [new Error(message)] *)
Definition new_Error (msg : string) : ErrorObject :=
  mkErrorObject Error_proto msg None None false None.

(** How an expression or an awaited promise completes. *)
Inductive Completion (T : Type) : Type :=
  | Normal (v : T)
  | Throw (e : Thrown).
Arguments Normal {T} _.
Arguments Throw {T} _.

Definition is_Normal {T : Type} (c : Completion T) : bool :=
  match c with Normal _ => true | Throw _ => false end.

(** Reading a property of [undefined]. *)
Definition TypeError_undefined (prop : string) : Thrown :=
  ThrownObject
    (new_Error ("Cannot read properties of undefined (reading '" +:+ prop +:+ "')")).

(** An [async] function over a world of type [W]. *)
Definition Async (W T : Type) : Type := W -> Completion T * W.

Definition ret {W T : Type} (v : T) : Async W T := fun w => (Normal v, w).

Definition throw {W T : Type} (e : Thrown) : Async W T := fun w => (Throw e, w).

Definition bind {W A B : Type} (m : Async W A) (k : A -> Async W B) : Async W B :=
  fun w =>
    match m w with
    | (Normal a, w') => k a w'
    | (Throw e, w') => (Throw e, w')
    end.

(** [try { m } catch (error) { handler(error) }] *)
Definition try_catch {W T : Type} (m : Async W T) (handler : Thrown -> Async W T)
    : Async W T :=
  fun w =>
    match m w with
    | (Normal a, w') => (Normal a, w')
    | (Throw e, w') => handler e w'
    end.

(** A synchronous completion inside an [async] function. *)
Definition lift {W T : Type} (c : Completion T) : Async W T := fun w => (c, w).

End Js.

Declare Scope async_scope.
Delimit Scope async_scope with async.
Notation "'await' x ':=' m 'in' k" := (Js.bind m (fun x => k))
  (at level 10, x name, m at level 100, k at level 200) : async_scope.

(* ===================================================================== *)
(** ** errors.ts: [isTransientError] *)
(* ===================================================================== *)

Module Errors.
Import Js.

(** [new WeatherError(message, cause?)] *)
Definition new_WeatherError (msg : string) (cause : option ErrorObject) : ErrorObject :=
  mkErrorObject WeatherError_proto msg None None false cause.

Definition transientCodes : list string :=
  ["ECONNREFUSED"; "ECONNRESET"; "ETIMEDOUT"; "ENOTFOUND"; "ENETUNREACH"; "EAI_AGAIN"].

(** [transientCodes.includes(code)] *)
Definition includes_code (codes : list string) (c : string) : bool :=
  existsb (String.eqb c) codes.

(** [status && status >= lo && status < hi] *)
Definition status_in (status : option Z) (lo hi : Z) : bool :=
  match status with
  | Some s => negb (s =? 0)%Z && (lo <=? s)%Z && (s <? hi)%Z
  | None => false
  end.

(** [status === n] *)
Definition status_is (status : option Z) (n : Z) : bool :=
  match status with
  | Some s => (s =? n)%Z
  | None => false
  end.

Definition isTransientError (error : Thrown) : bool :=
  match error with
  | ThrownPrimitive => false
  | ThrownObject o =>
      (* Axios error with response *)
      let after_response : option bool :=
        match response o with
        | Some r =>
            if status_is (status r) 429 || status_in (status r) 500 600 then Some true
            else if status_in (status r) 400 500 then Some false
            else None
        | None => None
        end in
      match after_response with
      | Some verdict => verdict
      | None =>
          (* Network errors (no response received) *)
          let by_code :=
            match code o with
            | Some c => includes_code transientCodes c
            | None => false
            end in
          if by_code then true
          (* Axios request error (no response) *)
          else if request o && negb (bool_decide (is_Some (response o))) then true
          else false
      end
  end.

End Errors.

(* ===================================================================== *)
(** ** types.ts *)
(* ===================================================================== *)

Module Types.
Import Js JsNumber.

Record CurrentWeatherUnits : Type := mkUnits {
  units_temperature : string;
  units_windSpeed : string;
  units_windDirection : string;
  units_pressure : option string;
  units_humidity : option string;
  units_visibility : option string
}.

(** [interface CurrentWeather]; an optional field is [None] when its value
    is [undefined]. *)
Record CurrentWeather : Type := mkCurrentWeather {
  city : string;
  temperature : Q;
  description : string;
  windSpeed : Q;
  windDirection : Q;
  isDay : bool;
  timezone : string;
  timezoneAbbreviation : string;
  time : string;
  units : CurrentWeatherUnits;
  elevation : option Q;
  feelsLike : option Q;
  humidity : option Q;
  pressure : option Q;
  visibility : option Q;
  clouds : option Q;
  windGust : option Q;
  sunrise : option string;
  sunset : option string;
  country : option string;
  seaLevelPressure : option Q;
  groundLevelPressure : option Q
}.

(** [interface OpenMeteoCurrentWeatherRaw], the upstream body as it comes. *)
Record OpenMeteoCurrentWeatherRaw : Type := mkRaw {
  raw_latitude : Q;
  raw_longitude : Q;
  raw_generationtime_ms : Q;
  raw_utc_offset_seconds : Q;
  raw_timezone : string;
  raw_timezone_abbreviation : string;
  raw_elevation : Q;
  raw_units_time : string;
  raw_units_interval : string;
  raw_units_temperature : string;
  raw_units_windspeed : string;
  raw_units_winddirection : string;
  raw_units_is_day : string;
  raw_units_weathercode : string;
  raw_time : string;
  raw_interval : Q;
  raw_temperature : Q;
  raw_windspeed : Q;
  raw_winddirection : Q;
  raw_is_day : Q;
  raw_weathercode : Q
}.

(** [interface CurrentWeatherOptions] *)
Record CurrentWeatherOptions : Type := mkCurrentWeatherOptions { raw : option bool }.

(** [options?.raw] as a condition. *)
Definition raw_requested (options : option CurrentWeatherOptions) : bool :=
  match options with
  | Some o => default false (raw o)
  | None => false
  end.

(** [interface ForecastDay].  [minTemp] and [maxTemp] come out of
    [Math.min] / [Math.max] in the OpenWeather provider, which select one
    of the sample temperatures; the optional fields are results of
    floating-point arithmetic. *)
Record ForecastDay : Type := mkForecastDay {
  date : string;
  minTemp : xnum;
  maxTemp : xnum;
  day_description : option string;
  avgFeelsLike : option float;
  avgHumidity : option float;
  avgPressure : option float;
  avgWindSpeed : option float;
  avgClouds : option float;
  maxPop : option float;
  totalRain : option float;
  totalSnow : option float
}.

(** [interface ForecastOptions]; a day count is an integer. *)
Record ForecastOptions : Type := mkForecastOptions { days : option Z }.

(** [options?.days ?? 5] *)
Definition days_or_default (options : option ForecastOptions) : Z :=
  default 5%Z (options ≫= days).

Record Coordinates : Type := mkCoordinates { latitude : Q; longitude : Q }.

Record ProviderMetadata : Type := mkMetadata {
  requiresApiKey : bool;
  supportsForecast : bool
}.

(** [type ProviderType = "openweather" | "open-meteo"] *)
Inductive ProviderType : Type := openweather | open_meteo.

Definition ProviderType_text (p : ProviderType) : string :=
  match p with
  | openweather => "openweather"
  | open_meteo => "open-meteo"
  end.

(** What a current-weather call resolves to. *)
Inductive CurrentResult : Type :=
  | Normalized (w : CurrentWeather)
  | RawBody (r : OpenMeteoCurrentWeatherRaw).

(** [interface WeatherProvider], over a world of type [W]. *)
Record WeatherProvider (W : Type) : Type := mkProvider {
  metadata : ProviderMetadata;
  getCurrentWeatherByCity :
    string -> option CurrentWeatherOptions -> Async W CurrentResult;
  getCurrentWeatherByCoords :
    Coordinates -> option CurrentWeatherOptions -> Async W CurrentResult;
  getForecastByCity :
    string -> option ForecastOptions -> Async W (list ForecastDay);
  getForecastByCoords :
    Coordinates -> option ForecastOptions -> Async W (list ForecastDay)
}.
Arguments mkProvider {W} _ _ _ _ _.
Arguments metadata {W} _.
Arguments getCurrentWeatherByCity {W} _ _ _.
Arguments getCurrentWeatherByCoords {W} _ _ _.
Arguments getForecastByCity {W} _ _ _.
Arguments getForecastByCoords {W} _ _ _.

(** Functions of the runtime whose results the package only passes on.
    [toISOString] is [new Date(t).toISOString()], [None] when it throws a
    [RangeError]; [numberToString] is the text of a number in a template
    literal; [toFixed4] is [n.toFixed(4)]. *)
Record Runtime : Type := mkRuntime {
  toISOString : Q -> option string;
  numberToString : Q -> string;
  toFixed4 : Q -> string
}.

End Types.

(* ===================================================================== *)
(** ** An iterable [Map<string, V>]: entries in insertion order *)
(* ===================================================================== *)

Module JsMap.

Definition t (V : Type) : Type := list (string * V).

Definition keys {V : Type} (m : t V) : list string := map fst m.

(** [m.get(k)] *)
Fixpoint get {V : Type} (m : t V) (k : string) : option V :=
  match m with
  | [] => None
  | (k', v) :: rest => if String.eqb k' k then Some v else get rest k
  end.

(** [m.has(k)] *)
Definition has {V : Type} (m : t V) (k : string) : bool :=
  match get m k with Some _ => true | None => false end.

(** [m.set(k, v)]: an existing key keeps its place, a new one goes last. *)
Fixpoint set {V : Type} (m : t V) (k : string) (v : V) : t V :=
  match m with
  | [] => [(k, v)]
  | (k', v') :: rest =>
      if String.eqb k' k then (k', v) :: rest else (k', v') :: set rest k v
  end.

End JsMap.

(* ===================================================================== *)
(** ** providers/openweather.ts *)
(* ===================================================================== *)

Module OpenWeather.
Import Js JsNumber Types.
Local Open Scope Q_scope.

(** [interface OpenWeatherCurrentResponse], the fields the provider reads
    ([coord], [base], [rain], [snow], [id] and [cod] are never read). *)
Record WeatherEntry : Type := mkWeatherEntry {
  w_id : Q;
  w_main : string;
  w_description : string;
  w_icon : string
}.

Record CurrentMain : Type := mkCurrentMain {
  temp : Q;
  feels_like : Q;
  temp_min : Q;
  temp_max : Q;
  main_pressure : Q;
  main_humidity : Q;
  sea_level : option Q;
  grnd_level : option Q
}.

Record Wind : Type := mkWind { speed : Q; deg : Q; gust : option Q }.

Record Sys : Type := mkSys {
  sys_country : string;
  sys_sunrise : Q;
  sys_sunset : Q
}.

Record OpenWeatherCurrentResponse : Type := mkCurrentResponse {
  weather : list WeatherEntry;
  main : CurrentMain;
  cur_visibility : Q;
  wind : Wind;
  clouds_all : Q;
  dt : Q;
  sys : Sys;
  cur_timezone : Q;
  name : string
}.

(** One entry of [OpenWeatherForecastResponse["list"]].  [fc_rain] is
    [item.rain?.["3h"]], [fc_snow] is [item.snow?.["3h"]].  The fields that
    are multiplied, added up or averaged are doubles. *)
Record ForecastItem : Type := mkForecastItem {
  fc_dt : Q;
  dt_txt : string;
  fc_temp : Q;
  fc_feels_like : float;
  fc_temp_min : Q;
  fc_temp_max : Q;
  fc_pressure : float;
  fc_humidity : float;
  fc_weather : list string;
  fc_clouds_all : float;
  fc_wind_speed : float;
  fc_pop : float;
  fc_rain : option float;
  fc_snow : option float
}.

(** [interface DayAggregate] *)
Record DayAggregate : Type := mkDayAggregate {
  temps : list Q;
  feelsLike_ : list float;
  humidity_ : list float;
  pressure_ : list float;
  windSpeed_ : list float;
  clouds_ : list float;
  pop_ : list float;
  rain_ : list float;
  snow_ : list float;
  descriptions : list string
}.

(** What [this.client.get(url, { params })] is asked for. *)
Inductive Params : Type :=
  | ByCity (q : string)
  | ByCoords (lat lon : Q).

(** The [AxiosInstance] the provider is built on: [get("/weather", ..)] and
    [get("/forecast", ..)], resolving to [response.data]. *)
Record AxiosInstance (W : Type) : Type := mkClient {
  get_weather : Params -> Async W OpenWeatherCurrentResponse;
  get_forecast : Params -> Async W (list ForecastItem)
}.
Arguments mkClient {W} _ _.
Arguments get_weather {W} _ _.
Arguments get_forecast {W} _ _.

Definition raw_mode_error : Thrown :=
  ThrownObject (new_Error "Raw mode is only supported for Open-Meteo provider").

Definition RangeError_invalid_time : Thrown :=
  ThrownObject (new_Error "Invalid time value").

(** [(timestamp) => new Date(timestamp).toISOString().slice(0, 16)] *)
Definition formatTime (rt : Runtime) (timestamp : Q) : Completion string :=
  match toISOString rt timestamp with
  | Some iso => Normal (String.substring 0 16 iso)
  | None => Throw RangeError_invalid_time
  end.

(** [Math.round(x * 10) / 10] *)
Definition round_tenth (x : Q) : Q := Math_round (x * 10) / 10.

Definition mapToCurrentWeather (rt : Runtime) (data : OpenWeatherCurrentResponse)
    : Completion CurrentWeather :=
  let now := dt data * 1000 in
  let sunrise_ms := sys_sunrise (sys data) * 1000 in
  let sunset_ms := sys_sunset (sys data) * 1000 in
  let isDay := ge now sunrise_ms && lt now sunset_ms in
  let offsetHours := cur_timezone data / 3600 in
  let sign := if ge offsetHours 0 then "+"%string else ""%string in
  let timezoneAbbrev := ("UTC" +:+ sign +:+ numberToString rt offsetHours)%string in
  let windSpeedKmh := speed (wind data) * (36 # 10) in
  let windGustKmh :=
    match gust (wind data) with
    | Some g => if truthy g then Some (g * (36 # 10)) else None
    | None => None
    end in
  match weather data with
  | [] => Throw (TypeError_undefined "description")
  | w0 :: _ =>
      match formatTime rt now with
      | Throw e => Throw e
      | Normal time_text =>
          let gust_out :=
            match windGustKmh with
            | Some k => if truthy k then Some (round_tenth k) else None
            | None => None
            end in
          match formatTime rt sunrise_ms with
          | Throw e => Throw e
          | Normal sunrise_text =>
              match formatTime rt sunset_ms with
              | Throw e => Throw e
              | Normal sunset_text =>
                  Normal
                    {| city := name data;
                       temperature := temp (main data);
                       description := w_description w0;
                       windSpeed := round_tenth windSpeedKmh;
                       windDirection := deg (wind data);
                       Types.isDay := isDay;
                       timezone := timezoneAbbrev;
                       timezoneAbbreviation := timezoneAbbrev;
                       time := time_text;
                       units :=
                         {| units_temperature := "°C";
                            units_windSpeed := "km/h";
                            units_windDirection := "°";
                            units_pressure := Some "hPa"%string;
                            units_humidity := Some "%"%string;
                            units_visibility := Some "m"%string |};
                       elevation := None;
                       feelsLike := Some (feels_like (main data));
                       humidity := Some (main_humidity (main data));
                       pressure := Some (main_pressure (main data));
                       visibility := Some (cur_visibility data);
                       clouds := Some (clouds_all data);
                       windGust := gust_out;
                       sunrise := Some sunrise_text;
                       sunset := Some sunset_text;
                       country := Some (sys_country (sys data));
                       seaLevelPressure := sea_level (main data);
                       groundLevelPressure := grnd_level (main data) |}
              end
          end
      end
  end.

(** [getMostFrequent(descriptions)] *)
Definition count_descriptions (descs : list string) : JsMap.t nat :=
  fold_left
    (fun counts desc => JsMap.set counts desc (default 0%nat (JsMap.get counts desc) + 1)%nat)
    descs [].

Definition getMostFrequent (descs : list string) : option string :=
  let counts := count_descriptions descs in
  snd
    (fold_left
       (fun '(maxCount, result) '(desc, count) =>
          if (maxCount <? count)%nat then (count, Some desc) else (maxCount, result))
       counts (0%nat, hd_error descs)).

Definition empty_aggregate : DayAggregate :=
  mkDayAggregate [] [] [] [] [] [] [] [] [] [].

(** [arr.push(x)] *)
Definition push {A : Type} (arr : list A) (x : A) : list A := (arr ++ [x])%list.

(** The body of [for (const item of list)] in [aggregateForecast]. *)
Definition collect_item (byDate : JsMap.t DayAggregate) (item : ForecastItem)
    : Completion (JsMap.t DayAggregate) :=
  let date := JsString.before_space (dt_txt item) in
  let byDate :=
    if negb (JsMap.has byDate date) then JsMap.set byDate date empty_aggregate
    else byDate in
  match JsMap.get byDate date with
  | None => Throw (TypeError_undefined "temps")
  | Some day =>
      match fc_weather item with
      | [] => Throw (TypeError_undefined "description")
      | description0 :: _ =>
          Normal
            (JsMap.set byDate date
               {| temps := push (temps day) (fc_temp item);
                  feelsLike_ := push (feelsLike_ day) (fc_feels_like item);
                  humidity_ := push (humidity_ day) (fc_humidity item);
                  pressure_ := push (pressure_ day) (fc_pressure item);
                  windSpeed_ := push (windSpeed_ day) (fc_wind_speed item * 3.6)%float;
                  clouds_ := push (clouds_ day) (fc_clouds_all item);
                  pop_ := push (pop_ day) (fc_pop item * 100)%float;
                  rain_ := push (rain_ day) (default 0%float (fc_rain item));
                  snow_ := push (snow_ day) (default 0%float (fc_snow item));
                  descriptions := push (descriptions day) description0 |})
      end
  end.

(** A [for .. of] loop whose body may throw. *)
Fixpoint for_of {S A : Type} (body : S -> A -> Completion S) (l : list A) (s : S)
    : Completion S :=
  match l with
  | [] => Normal s
  | x :: rest =>
      match body s x with
      | Normal s' => for_of body rest s'
      | Throw e => Throw e
      end
  end.

(** [avg]: average, rounded to 1 decimal. *)
Definition avg (arr : list float) : float :=
  if (0 <? length arr)%nat
  then (JsDouble.Math_round
          ((JsDouble.reduce_add arr / JsDouble.length_of arr) * 10) / 10)%float
  else 0%float.

(** [sum]: sum, rounded to 1 decimal. *)
Definition sum (arr : list float) : float :=
  (JsDouble.Math_round (JsDouble.reduce_add arr * 10) / 10)%float.

(** The object pushed for one entry of [byDate]. *)
Definition day_entry (date : string) (data : DayAggregate) : ForecastDay :=
  let totalRain := sum (rain_ data) in
  let totalSnow := sum (snow_ data) in
  {| Types.date := date;
     minTemp := Math_min (temps data);
     maxTemp := Math_max (temps data);
     day_description := getMostFrequent (descriptions data);
     avgFeelsLike := Some (avg (feelsLike_ data));
     avgHumidity := Some (avg (humidity_ data));
     avgPressure := Some (avg (pressure_ data));
     avgWindSpeed := Some (avg (windSpeed_ data));
     avgClouds := Some (avg (clouds_ data));
     maxPop := Some (JsDouble.Math_round (JsDouble.Math_max (pop_ data)));
     Types.totalRain := if JsDouble.gt totalRain 0 then Some totalRain else None;
     Types.totalSnow := if JsDouble.gt totalSnow 0 then Some totalSnow else None |}.

(** [for (const [date, data] of byDate) { if (result.length >= days) break; .. }] *)
Fixpoint emit_days (entries : JsMap.t DayAggregate) (days : Z) (result : list ForecastDay)
    : list ForecastDay :=
  match entries with
  | [] => result
  | (date, data) :: rest =>
      if (Z.of_nat (length result) >=? days)%Z then result
      else emit_days rest days (push result (day_entry date data))
  end.

Definition aggregateForecast (items : list ForecastItem) (days : Z)
    : Completion (list ForecastDay) :=
  match for_of collect_item items [] with
  | Throw e => Throw e
  | Normal byDate => Normal (emit_days byDate days [])
  end.

Section Provider.
Context {W : Type} (client : AxiosInstance W) (rt : Runtime).
Local Open Scope async_scope.

Definition getCurrentWeatherByCity (city : string) (options : option CurrentWeatherOptions)
    : Async W CurrentResult :=
  await data := get_weather client (ByCity city) in
  if raw_requested options then throw raw_mode_error
  else await w := lift (mapToCurrentWeather rt data) in ret (Normalized w).

Definition getCurrentWeatherByCoords (coords : Coordinates)
    (options : option CurrentWeatherOptions) : Async W CurrentResult :=
  await data := get_weather client (ByCoords (latitude coords) (longitude coords)) in
  if raw_requested options then throw raw_mode_error
  else await w := lift (mapToCurrentWeather rt data) in ret (Normalized w).

Definition getForecastByCity (city : string) (options : option ForecastOptions)
    : Async W (list ForecastDay) :=
  await items := get_forecast client (ByCity city) in
  lift (aggregateForecast items (days_or_default options)).

Definition getForecastByCoords (coords : Coordinates) (options : option ForecastOptions)
    : Async W (list ForecastDay) :=
  await items := get_forecast client (ByCoords (latitude coords) (longitude coords)) in
  lift (aggregateForecast items (days_or_default options)).

(** [class OpenWeatherProvider implements WeatherProvider] *)
Definition OpenWeatherProvider : WeatherProvider W :=
  mkProvider
    {| requiresApiKey := true; supportsForecast := true |}
    getCurrentWeatherByCity getCurrentWeatherByCoords
    getForecastByCity getForecastByCoords.

End Provider.

End OpenWeather.

(* ===================================================================== *)
(** ** index.ts: [class LotusWeather] *)
(* ===================================================================== *)

Module LotusWeather.
Import Js Types Errors.
Local Open Scope async_scope.

(** [interface CacheConfig] (cache.ts) *)
Record CacheConfig : Type := mkCacheConfig {
  enabled : bool;
  config_ttl : option Cache.CacheTTL
}.

(** [interface LotusWeatherConfig] *)
Record LotusWeatherConfig : Type := mkConfig {
  provider : ProviderType;
  apiKey : option string;
  fallbackProvider : option ProviderType;
  cache_config : option CacheConfig
}.

(** A value the cache holds or a public method resolves to (the store is a
    [Map<string, CacheEntry<unknown>>], and the type arguments of
    [cache.get<T>] are erased when the program runs). *)
Inductive Payload : Type :=
  | PCurrent (r : CurrentResult)
  | PForecast (l : list ForecastDay)
  | PCoordinates (c : Coordinates).

(** Which of the two providers an operation was handed to. *)
Inductive Role : Type := primary | fallback.

(** What the instance is built from: [axios.create] for the OpenWeather
    client (given the [appid]), [new OpenMeteoProvider()], the clock and the
    runtime's formatting functions. *)
Record Env (W : Type) : Type := mkEnv {
  axios_create : option string -> OpenWeather.AxiosInstance W;
  new_OpenMeteoProvider : WeatherProvider W;
  Date_now : W -> Z;
  runtime : Runtime
}.
Arguments mkEnv {W} _ _ _ _.
Arguments axios_create {W} _ _.
Arguments new_OpenMeteoProvider {W} _.
Arguments Date_now {W} _ _.
Arguments runtime {W} _.

(** The fields of an instance that never change after construction. *)
Record Instance (W : Type) : Type := mkInstance {
  primaryProvider : WeatherProvider W;
  fallbackProvider_ : option (WeatherProvider W);
  primaryProviderType : ProviderType;
  fallbackProviderType : option ProviderType
}.
Arguments mkInstance {W} _ _ _ _.
Arguments primaryProvider {W} _.
Arguments fallbackProvider_ {W} _.
Arguments primaryProviderType {W} _.
Arguments fallbackProviderType {W} _.

(** What a method call runs in: the outside world and the instance's
    [cache] field ([None] when caching is off).  [invoked] is not a field of
    the class: it is the trace of the embedding, listing oldest first the
    providers that [executeWithFallback] has handed an operation to. *)
Record State (W : Type) : Type := mkState {
  world : W;
  cache : option (Cache.t Payload);
  invoked : list Role
}.
Arguments mkState {W} _ _ _.
Arguments world {W} _.
Arguments cache {W} _.
Arguments invoked {W} _.

(** [!config.apiKey] *)
Definition apiKey_missing (config : LotusWeatherConfig) : bool :=
  match apiKey config with
  | Some k => negb (JsString.truthy k)
  | None => true
  end.

Definition ProviderType_eqb (a b : ProviderType) : bool :=
  match a, b with
  | openweather, openweather | open_meteo, open_meteo => true
  | _, _ => false
  end.

Definition validateConfig (config : LotusWeatherConfig) : Completion unit :=
  if ProviderType_eqb (provider config) openweather && apiKey_missing config then
    Throw (ThrownObject
             (new_WeatherError "API key is required for OpenWeather provider" None))
  else if match fallbackProvider config with
          | Some openweather => apiKey_missing config
          | _ => false
          end then
    Throw (ThrownObject
             (new_WeatherError
                "API key is required when using OpenWeather as fallback provider" None))
  else if match fallbackProvider config with
          | Some f => ProviderType_eqb f (provider config)
          | None => false
          end then
    Throw (ThrownObject
             (new_WeatherError
                "Fallback provider must be different from primary provider" None))
  else Normal tt.

(** [wrapError(error, context)] *)
Definition wrapError (error : Thrown) (context : string) : ErrorObject :=
  match error with
  | ThrownObject o =>
      match proto o with
      | WeatherError_proto => o
      | Error_proto =>
          if JsString.includes "City not found" (message o) then
            new_WeatherError (message o) (Some o)
          else
            let by_status : option ErrorObject :=
              match response o with
              | Some r =>
                  if status_is (status r) 401 then
                    Some (new_WeatherError "Invalid API key" (Some o))
                  else if status_is (status r) 404 then
                    Some (new_WeatherError "City not found" (Some o))
                  else if status_is (status r) 429 then
                    Some (new_WeatherError "Rate limit exceeded" (Some o))
                  else if match status r with
                          | Some s => negb (s =? 0)%Z && (500 <=? s)%Z
                          | None => false
                          end then
                    Some (new_WeatherError "Provider service unavailable" (Some o))
                  else None
              | None => None
              end in
            match by_status with
            | Some wrapped => wrapped
            | None =>
                let by_code : option ErrorObject :=
                  match code o with
                  | Some c =>
                      if String.eqb c "ECONNREFUSED" || String.eqb c "ENOTFOUND" then
                        Some (new_WeatherError "Unable to connect to weather service" (Some o))
                      else if String.eqb c "ETIMEDOUT" then
                        Some (new_WeatherError "Request timed out" (Some o))
                      else None
                  | None => None
                  end in
                match by_code with
                | Some wrapped => wrapped
                | None => new_WeatherError (context +:+ ": " +:+ message o) (Some o)
                end
            end
      | Object_proto =>
          new_WeatherError (context +:+ ": Unknown error occurred") None
      end
  | ThrownPrimitive => new_WeatherError (context +:+ ": Unknown error occurred") None
  end.

Section Methods.
Context {W : Type} (env : Env W) (this : Instance W).

(** [createProvider(type, apiKey)] *)
Definition createProvider (type : ProviderType) (key : option string) : WeatherProvider W :=
  match type with
  | openweather => OpenWeather.OpenWeatherProvider (axios_create env key) (runtime env)
  | open_meteo => new_OpenMeteoProvider env
  end.

(** [await operation(provider)], for the provider in the given role. *)
Definition hand_to {T : Type} (who : Role) (op : Async W T) : Async (State W) T :=
  fun st =>
    let '(c, w') := op (world st) in
    (c, mkState w' (cache st) (invoked st ++ [who])).

Definition executeWithFallback {T : Type}
    (operation : WeatherProvider W -> Async W T) (providerName : string)
    : Async (State W) T :=
  try_catch (hand_to primary (operation (primaryProvider this)))
    (fun error =>
       match fallbackProvider_ this with
       | None => throw (ThrownObject (wrapError error providerName))
       | Some fallbackProvider =>
           if negb (isTransientError error) then
             throw (ThrownObject (wrapError error providerName))
           else
             try_catch (hand_to fallback (operation fallbackProvider))
               (fun fallbackError =>
                  throw (ThrownObject (wrapError error providerName)))
       end).

(** [if (this.cache) { const cached = this.cache.get(key); .. }]: the cached
    value, when caching is on and the lookup gives one. *)
Definition cache_lookup (key : string) : Async (State W) (option Payload) :=
  fun st =>
    match cache st with
    | None => (Normal None, st)
    | Some c =>
        let '(r, c') := Cache.get (Date_now env (world st)) key c in
        (Normal r, mkState (world st) (Some c') (invoked st))
    end.

(** [if (this.cache) { this.cache.set(key, result, type); }] *)
Definition cache_store (key : string) (v : Payload) (type : Cache.CacheKeyType)
    : Async (State W) unit :=
  fun st =>
    match cache st with
    | None => (Normal tt, st)
    | Some c =>
        (Normal tt,
         mkState (world st)
           (Some (Cache.set (Date_now env (world st)) key v type c)) (invoked st))
    end.

Definition getCurrentWeather (city : string) (options : option CurrentWeatherOptions)
    : Async (State W) Payload :=
  if raw_requested options then
    await r := executeWithFallback
                 (fun provider => getCurrentWeatherByCity provider city options)
                 "getCurrentWeather" in
    ret (PCurrent r)
  else
    let cacheKey :=
      Cache.createKey (ProviderType_text (primaryProviderType this)) Cache.current
        city None in
    await cached := cache_lookup cacheKey in
    match cached with
    | Some hit => ret hit
    | None =>
        await result := executeWithFallback
                          (fun provider => getCurrentWeatherByCity provider city options)
                          "getCurrentWeather" in
        await _ := cache_store cacheKey (PCurrent result) Cache.current in
        ret (PCurrent result)
    end.

Definition getWeatherByCoords (lat lon : Q) (options : option CurrentWeatherOptions)
    : Async (State W) Payload :=
  let normalizedCoords := mkCoordinates lat lon in
  if raw_requested options then
    await r := executeWithFallback
                 (fun provider => getCurrentWeatherByCoords provider normalizedCoords options)
                 "getWeatherByCoords" in
    ret (PCurrent r)
  else
    let cacheKey :=
      Cache.createKey (ProviderType_text (primaryProviderType this)) Cache.current
        (toFixed4 (runtime env) lat +:+ "," +:+ toFixed4 (runtime env) lon) None in
    await cached := cache_lookup cacheKey in
    match cached with
    | Some hit => ret hit
    | None =>
        await result := executeWithFallback
                          (fun provider =>
                             getCurrentWeatherByCoords provider normalizedCoords options)
                          "getWeatherByCoords" in
        await _ := cache_store cacheKey (PCurrent result) Cache.current in
        ret (PCurrent result)
    end.

Definition getForecast (city : string) (options : option ForecastOptions)
    : Async (State W) Payload :=
  let days := days_or_default options in
  let cacheKey :=
    Cache.createKey (ProviderType_text (primaryProviderType this)) Cache.forecast
      city (Some (numberToString (runtime env) (inject_Z days))) in
  await cached := cache_lookup cacheKey in
  match cached with
  | Some hit => ret hit
  | None =>
      await result := executeWithFallback
                        (fun provider => getForecastByCity provider city options)
                        "getForecast" in
      await _ := cache_store cacheKey (PForecast result) Cache.forecast in
      ret (PForecast result)
  end.

(** [clearCache()] *)
Definition clearCache : Async (State W) unit :=
  fun st => (Normal tt, mkState (world st) (Cache.clear <$> cache st) (invoked st)).

End Methods.

(** [new LotusWeather(config)]: the instance and its initial [cache] field. *)
Definition new {W : Type} (env : Env W) (config : LotusWeatherConfig)
    : Completion (Instance W * option (Cache.t Payload)) :=
  match validateConfig config with
  | Throw e => Throw e
  | Normal _ =>
      Normal
        (mkInstance
           (createProvider env (provider config) (apiKey config))
           ((fun f => createProvider env f (apiKey config)) <$> fallbackProvider config)
           (provider config)
           (fallbackProvider config),
         match cache_config config with
         | Some cc => if enabled cc then Some (Cache.new (config_ttl cc)) else None
         | None => None
         end)
  end.

End LotusWeather.

(* ===================================================================== *)
(** ** providers/openweather.ts, first revision (temperatures and
       descriptions only) *)
(* ===================================================================== *)

Module OpenWeatherV1.
Import Js JsNumber.

(** [interface ForecastDay] of that revision's types.ts *)
Record ForecastDay : Type := mkForecastDay {
  date : string;
  minTemp : xnum;
  maxTemp : xnum;
  description : option string
}.

Record ForecastItem : Type := mkForecastItem {
  dt : Q;
  dt_txt : string;
  temp : Q;
  temp_min : Q;
  temp_max : Q;
  weather : list string
}.

Record DayAggregate : Type := mkDayAggregate {
  temps : list Q;
  descriptions : list string
}.

Definition collect_item (byDate : JsMap.t DayAggregate) (item : ForecastItem)
    : Completion (JsMap.t DayAggregate) :=
  let date := JsString.before_space (dt_txt item) in
  let byDate :=
    if negb (JsMap.has byDate date) then JsMap.set byDate date (mkDayAggregate [] [])
    else byDate in
  match JsMap.get byDate date with
  | None => Throw (TypeError_undefined "temps")
  | Some day =>
      match weather item with
      | [] => Throw (TypeError_undefined "description")
      | description0 :: _ =>
          Normal
            (JsMap.set byDate date
               {| temps := OpenWeather.push (temps day) (temp item);
                  descriptions := OpenWeather.push (descriptions day) description0 |})
      end
  end.

(** [getMostFrequent] has the same text in both revisions. *)
Definition day_entry (date : string) (data : DayAggregate) : ForecastDay :=
  {| date := date;
     minTemp := Math_min (temps data);
     maxTemp := Math_max (temps data);
     description := OpenWeather.getMostFrequent (descriptions data) |}.

Fixpoint emit_days (entries : JsMap.t DayAggregate) (days : Z) (result : list ForecastDay)
    : list ForecastDay :=
  match entries with
  | [] => result
  | (date, data) :: rest =>
      if (Z.of_nat (length result) >=? days)%Z then result
      else emit_days rest days (OpenWeather.push result (day_entry date data))
  end.

Definition aggregateForecast (items : list ForecastItem) (days : Z)
    : Completion (list ForecastDay) :=
  match OpenWeather.for_of collect_item items [] with
  | Throw e => Throw e
  | Normal byDate => Normal (emit_days byDate days [])
  end.

End OpenWeatherV1.

(* ===================================================================== *)
(** ** Vocabulary of the properties *)
(* ===================================================================== *)

Module Spec.
Import Js JsNumber.

(** *** Cache entries *)

(** The entry of [key] that a lookup at [now] may still serve. *)
Definition live_entry {T : Type} (now : Z) (key : string) (c : Cache.t T)
    (e : Cache.CacheEntry T) : Prop :=
  Cache.store c !! key = Some e /\ (now <= Cache.expiresAt e)%Z.

(** *** Locations that differ only by letter case and outer white space *)

(** [u] is a capital (or titlecase) letter and [l] its small letter. *)
Definition case_pair (u l : N) : Prop :=
  u <> l /\ Unicode.simple_lower u = l.

(** The same character, or the two cases of one letter. *)
Definition same_letter (a b : N) : Prop :=
  a = b \/ case_pair a b \/ case_pair b a.

(** Character by character the same up to letter case. *)
Definition same_up_to_case (s t : list N) : Prop := Forall2 same_letter s t.

Definition all_white_space (points : list N) : Prop :=
  Forall (fun c => Unicode.white_space c = true) points.

(** [points] is [core] with white space put before and after it. *)
Definition padded (points core : list N) : Prop :=
  exists before after,
    all_white_space before /\ all_white_space after
    /\ points = (before ++ core ++ after)%list.

(** Two well-formed strings that differ only by letter case and by white
    space at their ends. *)
Definition same_location (a b : string) : Prop :=
  exists points_a points_b core_a core_b,
    Unicode.decode a = Some points_a /\ Unicode.decode b = Some points_b
    /\ padded points_a core_a /\ padded points_b core_b
    /\ same_up_to_case core_a core_b.

(** A string with neither of the two letters whose lowercase depends on
    more than the letter: the capital sigma and the capital dotted I. *)
Definition without_special_casing (s : string) : Prop :=
  forall points,
    Unicode.decode s = Some points ->
    ~ In Unicode.capital_sigma points /\ ~ In Unicode.capital_i_with_dot points.

(** *** The classification of upstream failures, sentence by sentence *)

Definition has_status (o : ErrorObject) (P : Z -> Prop) : Prop :=
  exists r s, response o = Some r /\ status r = Some s /\ P s.

(** "a response with status 429 or any 5xx" *)
Definition responded_429_or_5xx (o : ErrorObject) : Prop :=
  has_status o (fun s => s = 429 \/ 500 <= s < 600)%Z.

(** "a response with any other 4xx status" *)
Definition responded_other_4xx (o : ErrorObject) : Prop :=
  has_status o (fun s => 400 <= s < 500 /\ s <> 429)%Z.

(** "a transport failure with no response (connection refused/reset,
    timeout, DNS failure, network unreachable)" *)
Definition transport_failure_without_response (o : ErrorObject) : Prop :=
  response o = None /\ exists c, code o = Some c /\ In c Errors.transientCodes.

(** "a request that was sent with no response and no structured code" *)
Definition sent_without_response_or_code (o : ErrorObject) : Prop :=
  request o = true /\ response o = None /\ code o = None.

(** The failures the four sentences call transient; "everything else" is
    permanent. *)
Definition stated_transient (e : Thrown) : Prop :=
  match e with
  | ThrownPrimitive => False
  | ThrownObject o =>
      responded_429_or_5xx o
      \/ transport_failure_without_response o
      \/ sent_without_response_or_code o
  end.

(** What the classifier does: the two response rules as stated; after them,
    for a failure without a response or with a response whose status is
    neither 4xx nor 5xx, a transport code from the list, or a request that
    was sent and got no response (whatever its code). *)
Definition responded_4xx_or_5xx (o : ErrorObject) : Prop :=
  has_status o (fun s => 400 <= s < 600)%Z.

Definition transient (e : Thrown) : Prop :=
  match e with
  | ThrownPrimitive => False
  | ThrownObject o =>
      responded_429_or_5xx o
      \/ (~ responded_4xx_or_5xx o
          /\ ((exists c, code o = Some c /\ In c Errors.transientCodes)
              \/ (request o = true /\ response o = None)))
  end.

(** *** Daily aggregates *)

Local Open Scope Q_scope.

(** [x] is the least element of [l]. *)
Definition is_minimum (x : xnum) (l : list Q) : Prop :=
  exists q, x = Finite q /\ In q l /\ Forall (fun y => q <= y) l.

(** [x] is the greatest element of [l]. *)
Definition is_maximum (x : xnum) (l : list Q) : Prop :=
  exists q, x = Finite q /\ In q l /\ Forall (fun y => y <= q) l.

(** [r] is [x] rounded to the integer nearest to it (the upper one at a
    tie). *)
Definition nearest_integer (x r : Q) : Prop :=
  (exists n : Z, r = inject_Z n) /\ x - (1 # 2) < r /\ r <= x + (1 # 2).

(** [r] is [x] rounded to one decimal. *)
Definition rounded_to_tenth (x r : Q) : Prop :=
  exists n : Z, r = inject_Z n / 10 /\ nearest_integer (x * 10) (inject_Z n).

(** *** Grouping by calendar day *)

Section Grouping.
Context {A D : Type} (date_of : A -> string) (empty : D) (add : D -> A -> D).

(** The samples with a given date, in the order they came. *)
Definition on_day (day : string) (items : list A) : list A :=
  List.filter (fun it => String.eqb (date_of it) day) items.

(** One round of the grouping loop when nothing is thrown: make sure the
    date has an aggregate, then add the sample to it. *)
Definition group_step (byDate : JsMap.t D) (item : A) : JsMap.t D :=
  let date := date_of item in
  let byDate :=
    if negb (JsMap.has byDate date) then JsMap.set byDate date empty else byDate in
  match JsMap.get byDate date with
  | Some day => JsMap.set byDate date (add day item)
  | None => byDate
  end.

(** The aggregate of a day's samples. *)
Definition summary (samples : list A) : D := fold_left add samples empty.

(** [byDate] holds, under distinct keys, exactly the days of [seen], each
    with the aggregate of its samples. *)
Definition grouped (byDate : JsMap.t D) (seen : list A) : Prop :=
  List.NoDup (JsMap.keys byDate)
  /\ forall day,
       JsMap.get byDate day =
       match on_day day seen with
       | [] => None
       | samples => Some (summary samples)
       end.

End Grouping.

Definition item_date (it : OpenWeather.ForecastItem) : string :=
  JsString.before_space (OpenWeather.dt_txt it).

(** What the grouping loop adds to a day for one sample. *)
Definition add_sample (day : OpenWeather.DayAggregate) (it : OpenWeather.ForecastItem)
    : OpenWeather.DayAggregate :=
  {| OpenWeather.temps := OpenWeather.temps day ++ [OpenWeather.fc_temp it];
     OpenWeather.feelsLike_ := OpenWeather.feelsLike_ day ++ [OpenWeather.fc_feels_like it];
     OpenWeather.humidity_ := OpenWeather.humidity_ day ++ [OpenWeather.fc_humidity it];
     OpenWeather.pressure_ := OpenWeather.pressure_ day ++ [OpenWeather.fc_pressure it];
     OpenWeather.windSpeed_ :=
       OpenWeather.windSpeed_ day ++ [(OpenWeather.fc_wind_speed it * 3.6)%float];
     OpenWeather.clouds_ := OpenWeather.clouds_ day ++ [OpenWeather.fc_clouds_all it];
     OpenWeather.pop_ := OpenWeather.pop_ day ++ [(OpenWeather.fc_pop it * 100)%float];
     OpenWeather.rain_ :=
       OpenWeather.rain_ day ++ [default 0%float (OpenWeather.fc_rain it)];
     OpenWeather.snow_ :=
       OpenWeather.snow_ day ++ [default 0%float (OpenWeather.fc_snow it)];
     OpenWeather.descriptions :=
       OpenWeather.descriptions day ++ [hd ""%string (OpenWeather.fc_weather it)] |}%list.

(** The per-sample values of a day, field by field. *)
Definition aggregate_of (samples : list OpenWeather.ForecastItem) : OpenWeather.DayAggregate :=
  {| OpenWeather.temps := map OpenWeather.fc_temp samples;
     OpenWeather.feelsLike_ := map OpenWeather.fc_feels_like samples;
     OpenWeather.humidity_ := map OpenWeather.fc_humidity samples;
     OpenWeather.pressure_ := map OpenWeather.fc_pressure samples;
     OpenWeather.windSpeed_ :=
       map (fun it => (OpenWeather.fc_wind_speed it * 3.6)%float) samples;
     OpenWeather.clouds_ := map OpenWeather.fc_clouds_all samples;
     OpenWeather.pop_ := map (fun it => (OpenWeather.fc_pop it * 100)%float) samples;
     OpenWeather.rain_ := map (fun it => default 0%float (OpenWeather.fc_rain it)) samples;
     OpenWeather.snow_ := map (fun it => default 0%float (OpenWeather.fc_snow it)) samples;
     OpenWeather.descriptions :=
       map (fun it => hd ""%string (OpenWeather.fc_weather it)) samples |}.

Definition item_date_v1 (it : OpenWeatherV1.ForecastItem) : string :=
  JsString.before_space (OpenWeatherV1.dt_txt it).

Definition add_sample_v1 (day : OpenWeatherV1.DayAggregate) (it : OpenWeatherV1.ForecastItem)
    : OpenWeatherV1.DayAggregate :=
  {| OpenWeatherV1.temps := OpenWeatherV1.temps day ++ [OpenWeatherV1.temp it];
     OpenWeatherV1.descriptions :=
       OpenWeatherV1.descriptions day ++ [hd ""%string (OpenWeatherV1.weather it)] |}%list.

Definition aggregate_of_v1 (samples : list OpenWeatherV1.ForecastItem)
    : OpenWeatherV1.DayAggregate :=
  {| OpenWeatherV1.temps := map OpenWeatherV1.temp samples;
     OpenWeatherV1.descriptions :=
       map (fun it => hd ""%string (OpenWeatherV1.weather it)) samples |}.

(** Every sample carries at least one weather entry. *)
Definition described (items : list OpenWeather.ForecastItem) : Prop :=
  Forall (fun it => OpenWeather.fc_weather it <> []) items.

Definition described_v1 (items : list OpenWeatherV1.ForecastItem) : Prop :=
  Forall (fun it => OpenWeatherV1.weather it <> []) items.

(** *** Totals, read without the roundings of the host *)

(** The number a finite double denotes. *)
Definition exact_value (x : float) : option Q :=
  match Prim2SF x with
  | S754_zero _ => Some 0
  | S754_finite s m e =>
      Some ((if s then inject_Z (Z.neg m) else inject_Z (Z.pos m)) * Qpower 2 e)
  | _ => None
  end.

(** The sum of the numbers a list of finite doubles denotes. *)
Definition exact_total (values : list float) : option Q :=
  fold_right
    (fun x rest =>
       match exact_value x, rest with
       | Some q, Some r => Some (q + r)
       | _, _ => None
       end)
    (Some 0) values.

(** "the sum of the amounts rounded to 1 decimal", the sum being the exact
    one: [field] is nearer to that sum rounded to one decimal than to any
    other number with one decimal. *)
Definition exactly_rounded_total (amounts : list float) (field : float) : Prop :=
  exists s r q,
    exact_total amounts = Some s /\ rounded_to_tenth s r
    /\ exact_value field = Some q /\ r - (1 # 20) < q /\ q < r + (1 # 20).

(** *** Averages and totals, in the arithmetic of the host: every
    operation gives the double nearest to its exact result *)

(** The values added up in the order they come, starting from zero. *)
Definition total (values : list float) : float :=
  fold_left (fun so_far x => so_far + x)%float values 0%float.

(** The arithmetic mean: the total divided by the number of values. *)
Definition mean (values : list float) : float :=
  (total values / JsDouble.of_Z (Z.of_nat (length values)))%float.

(** [x] rounded to one decimal: ten times [x] rounded to the nearest
    integer (the upper one at a tie), divided by ten. *)
Definition one_decimal (x : float) : float :=
  (JsDouble.Math_round (x * 10) / 10)%float.

(** [m] is one of the values and none of them is greater.  (When one of the
    values is NaN, which compares with nothing, that is NaN.) *)
Definition is_greatest (m : float) (values : list float) : Prop :=
  In m values /\ Forall (fun y => (m <? y)%float = false) values.

(** An averaged field: present, and the mean of the values rounded to one
    decimal. *)
Definition averaged (values : list float) (field : option float) : Prop :=
  field = Some (one_decimal (mean values)).

(** The highest probability as a percentage, rounded to the nearest
    integer. *)
Definition highest_percentage (probabilities : list float) (field : option float) : Prop :=
  exists p,
    is_greatest p (map (fun x => x * 100)%float probabilities)
    /\ field = Some (JsDouble.Math_round p).

(** The optional total: the sum rounded to one decimal when that is above
    zero, and absent otherwise. *)
Definition optional_total (amounts : list float) (field : option float) : Prop :=
  field = (if (0 <? one_decimal (total amounts))%float
           then Some (one_decimal (total amounts)) else None).

End Spec.

(* ===================================================================== *)
(** ** Concrete upstream behaviours used in the examples below *)
(* ===================================================================== *)

Module Scenarios.
Import Js JsNumber Types Errors.
Local Open Scope Q_scope.

(** What [AxiosError]s look like in a [catch] clause. *)
Definition canceled_request : ErrorObject :=
  mkErrorObject Error_proto "canceled" None (Some "ERR_CANCELED") true None.

Definition status_error (s : Z) : ErrorObject :=
  mkErrorObject Error_proto "Request failed with status code"
    (Some (mkResponse (Some s)))
    (Some (if (s <? 500)%Z then "ERR_BAD_REQUEST" else "ERR_BAD_RESPONSE")) true None.

Definition connection_refused : ErrorObject :=
  mkErrorObject Error_proto "connect ECONNREFUSED" None (Some "ECONNREFUSED") true None.

(** The world of the examples: the number of upstream requests made. *)
Definition requests : Type := nat.

Definition answer {T : Type} (c : Completion T) : Async requests T :=
  fun n => (c, S n).

Definition fixed_runtime : Runtime :=
  mkRuntime (fun _ => Some "2024-01-15T12:00:00.000Z") (fun _ => "0") (fun _ => "0.0000").

(** An upstream body: 5 m/s wind, and the gust given as a parameter. *)
Definition london (g : option Q) : OpenWeather.OpenWeatherCurrentResponse :=
  {| OpenWeather.weather := [OpenWeather.mkWeatherEntry 800 "Clear" "clear sky" "01d"];
     OpenWeather.main :=
       OpenWeather.mkCurrentMain 15 14 13 16 1013 72 None None;
     OpenWeather.cur_visibility := 10000;
     OpenWeather.wind := OpenWeather.mkWind 5 180 g;
     OpenWeather.clouds_all := 0;
     OpenWeather.dt := 1705320000;
     OpenWeather.sys := OpenWeather.mkSys "GB" 1705305600 1705336200;
     OpenWeather.cur_timezone := 0;
     OpenWeather.name := "London" |}.

(** A client whose every request meets the same fate. *)
Definition client_answering (c : Completion OpenWeather.OpenWeatherCurrentResponse)
    : OpenWeather.AxiosInstance requests :=
  OpenWeather.mkClient (fun _ => answer c) (fun _ => answer (Throw ThrownPrimitive)).

(** A provider whose every call meets the same fate. *)
Definition provider_answering (c : Completion CurrentResult) : WeatherProvider requests :=
  mkProvider (mkMetadata false true)
    (fun _ _ => answer c) (fun _ _ => answer c)
    (fun _ _ => answer (Normal [])) (fun _ _ => answer (Normal [])).

(** Forecast samples: one per temperature, all on the given day, with
    5 m/s of wind and a precipitation probability of 0.2. *)
Definition samples_for (day : string) (temperatures : list Q) (rain : option float)
    : list OpenWeather.ForecastItem :=
  map (fun t =>
         OpenWeather.mkForecastItem 0 (day +:+ " 12:00:00") t 9.5%float t t
           1013%float 70%float ["clear sky"%string] 10%float 5%float 0.2%float rain None)
    temperatures.

(** Two days of eight samples; no rain on the first, 0.3 mm per sample on
    the second. *)
Definition two_days : list OpenWeather.ForecastItem :=
  (samples_for "2024-01-15" [10; 12; 15; 14; 13; 11; 9; 8] (Some 0%float)
   ++ samples_for "2024-01-16" [7; 9; 11; 12; 10; 8; 6; 5] (Some 0.3%float))%list.

(** A day of showers: the eight 3-hour amounts add up to 10.35 on paper. *)
Definition showers : list OpenWeather.ForecastItem :=
  map (fun amount =>
         OpenWeather.mkForecastItem 0 "2024-01-17 12:00:00" 10 9.5%float 10 10
           1013%float 70%float ["light rain"%string] 90%float 5%float 0.615%float
           (Some amount) None)
    [2.65; 0.45; 1.08; 1.11; 1.47; 0.06; 1.33; 2.2]%float.

Definition two_days_v1 : list OpenWeatherV1.ForecastItem :=
  map (fun it =>
         OpenWeatherV1.mkForecastItem (OpenWeather.fc_dt it) (OpenWeather.dt_txt it)
           (OpenWeather.fc_temp it) (OpenWeather.fc_temp_min it)
           (OpenWeather.fc_temp_max it) (OpenWeather.fc_weather it))
    two_days.

Definition raw_options : option CurrentWeatherOptions :=
  Some (mkCurrentWeatherOptions (Some true)).

(** An instance whose primary provider always fails with [e1] and whose
    fallback provider always fails with [e2]. *)
Definition failing_instance (e1 e2 : Thrown) : LotusWeather.Instance requests :=
  LotusWeather.mkInstance
    (provider_answering (Throw e1)) (Some (provider_answering (Throw e2)))
    openweather (Some open_meteo).

Definition fresh (c : option (Cache.t LotusWeather.Payload)) : LotusWeather.State requests :=
  LotusWeather.mkState 0%nat c [].

(** [new LotusWeather({ provider: "openweather", apiKey: "key",
    fallbackProvider: "open-meteo" })], with the OpenWeather upstream
    answering every request with [c] and Open-Meteo answering with a body
    [om]. *)
Definition env_answering (c : Completion OpenWeather.OpenWeatherCurrentResponse)
    (om : Completion CurrentResult) : LotusWeather.Env requests :=
  LotusWeather.mkEnv (fun _ => client_answering c) (provider_answering om)
    (fun n => Z.of_nat n) fixed_runtime.

Definition openweather_with_fallback : LotusWeather.LotusWeatherConfig :=
  LotusWeather.mkConfig openweather (Some "key"%string) (Some open_meteo) None.

(** A normalized result and a raw Open-Meteo body. *)
Definition sunny : CurrentWeather :=
  {| city := "London"; temperature := 15; description := "Clear sky";
     windSpeed := 18; windDirection := 180; isDay := true;
     timezone := "GMT"; timezoneAbbreviation := "GMT"; time := "2024-01-15T12:00";
     units := mkUnits "°C" "km/h" "°" None None None;
     elevation := Some 25; feelsLike := None; humidity := None; pressure := None;
     visibility := None; clouds := None; windGust := None; sunrise := None;
     sunset := None; country := None; seaLevelPressure := None;
     groundLevelPressure := None |}.

Definition raw_body : OpenMeteoCurrentWeatherRaw :=
  mkRaw (515 # 10) (-1 # 10) (1 # 10) 0 "GMT" "GMT" 25
    "iso8601" "seconds" "°C" "km/h" "°" "" "wmo code"
    "2024-01-15T12:00" 900 15 18 180 1 0.

(** An Open-Meteo instance (raw mode supported), no fallback. *)
Definition open_meteo_instance : LotusWeather.Instance requests :=
  LotusWeather.mkInstance (provider_answering (Normal (RawBody raw_body))) None
    open_meteo None.

(** A cache that holds a normalized result for London. *)
Definition cache_with_london : Cache.t LotusWeather.Payload :=
  Cache.set 0 "open-meteo:current:london"
    (LotusWeather.PCurrent (Normalized sunny)) Cache.current (Cache.new None).


End Scenarios.

(* ===================================================================== *)
(** ** providers/open-meteo.ts: geocoding and current weather *)
(* ===================================================================== *)

Module OpenMeteo.
Import Js JsNumber Types.
Local Open Scope async_scope.

(** [interface GeocodingResponse] *)
Record GeocodingResult : Type := mkGeocodingResult {
  g_name : string;
  g_latitude : Q;
  g_longitude : Q;
  g_country : string
}.

Record GeocodingResponse : Type := mkGeocodingResponse {
  results : option (list GeocodingResult)
}.

(** The two [axios.get] calls of these methods, resolving to
    [response.data]: the geocoding search for a name (with [count: 1]) and
    the forecast endpoint with [current_weather: true].  The body of the
    latter has the fields of [OpenMeteoCurrentWeatherRaw]. *)
Record Http (W : Type) : Type := mkHttp {
  search : string -> Async W GeocodingResponse;
  current_weather : Coordinates -> Async W OpenMeteoCurrentWeatherRaw
}.
Arguments mkHttp {W} _ _.
Arguments search {W} _ _.
Arguments current_weather {W} _ _.

(** [{ ...weather, city }] *)
Definition with_city (w : CurrentWeather) (c : string) : CurrentWeather :=
  {| city := c;
     temperature := temperature w;
     description := description w;
     windSpeed := windSpeed w;
     windDirection := windDirection w;
     isDay := isDay w;
     timezone := timezone w;
     timezoneAbbreviation := timezoneAbbreviation w;
     time := time w;
     units := units w;
     elevation := elevation w;
     feelsLike := feelsLike w;
     humidity := humidity w;
     pressure := pressure w;
     visibility := visibility w;
     clouds := clouds w;
     windGust := windGust w;
     sunrise := sunrise w;
     sunset := sunset w;
     country := country w;
     seaLevelPressure := seaLevelPressure w;
     groundLevelPressure := groundLevelPressure w |}.

Section Provider.
(** [WEATHER_CODE_MAP] (weather-codes.ts) is taken as the lookup
    [codes]: [None] where the table has no entry. *)
Context {W : Type} (http : Http W) (rt : Runtime) (codes : Q -> option string).

Definition geocode (city : string) : Async W Coordinates :=
  await data := search http city in
  match results data with
  | None | Some [] => throw (ThrownObject (new_Error ("City not found: " +:+ city)))
  | Some (location :: _) =>
      ret (mkCoordinates (g_latitude location) (g_longitude location))
  end.

Definition getCurrentWeatherByCoords (coords : Coordinates)
    (options : option CurrentWeatherOptions) : Async W CurrentResult :=
  await data := current_weather http coords in
  if raw_requested options then ret (RawBody data)
  else
    let weatherCode := raw_weathercode data in
    ret (Normalized
           {| city := toFixed4 rt (latitude coords) +:+ "," +:+ toFixed4 rt (longitude coords);
              temperature := raw_temperature data;
              description := default "Unknown"%string (codes weatherCode);
              windSpeed := raw_windspeed data;
              windDirection := raw_winddirection data;
              isDay := Qeq_bool (raw_is_day data) 1;
              timezone := raw_timezone data;
              timezoneAbbreviation := raw_timezone_abbreviation data;
              elevation := Some (raw_elevation data);
              time := raw_time data;
              units :=
                {| units_temperature := raw_units_temperature data;
                   units_windSpeed := raw_units_windspeed data;
                   units_windDirection := raw_units_winddirection data;
                   units_pressure := None;
                   units_humidity := None;
                   units_visibility := None |};
              feelsLike := None; humidity := None; pressure := None;
              visibility := None; clouds := None; windGust := None;
              sunrise := None; sunset := None; country := None;
              seaLevelPressure := None; groundLevelPressure := None |}).

(** When [options.raw] is not set the awaited [weather] is always a
    normalized result; the other branch of the [match] is never taken. *)
Definition getCurrentWeatherByCity (city : string)
    (options : option CurrentWeatherOptions) : Async W CurrentResult :=
  await coordinates := geocode city in
  await weather := getCurrentWeatherByCoords coordinates options in
  if raw_requested options then ret weather
  else
    match weather with
    | Normalized w => ret (Normalized (with_city w city))
    | RawBody r => ret (RawBody r)
    end.

End Provider.

End OpenMeteo.

(* ===================================================================== *)
(** ** Further vocabulary *)
(* ===================================================================== *)

Module More.
Import Js JsNumber Types.

(** The distinct elements of a list, each at its first occurrence. *)
Fixpoint distinct (l : list string) : list string :=
  match l with
  | [] => []
  | x :: rest => x :: List.filter (fun y => negb (String.eqb x y)) (distinct rest)
  end.

(** How often [d] occurs in [l]. *)
Definition occurrences (d : string) (l : list string) : nat :=
  length (List.filter (String.eqb d) l).

(** [d] is the most frequent element of [l], and among the elements as
    frequent as it the one that occurs first. *)
Definition first_most_frequent (d : string) (l : list string) : Prop :=
  exists earlier later,
    distinct l = (earlier ++ d :: later)%list
    /\ Forall (fun x => (occurrences x l < occurrences d l)%nat) earlier
    /\ Forall (fun x => (occurrences x l <= occurrences d l)%nat) later.

(** A sample of the later revision as the first revision sees it. *)
Definition to_v1 (it : OpenWeather.ForecastItem) : OpenWeatherV1.ForecastItem :=
  OpenWeatherV1.mkForecastItem (OpenWeather.fc_dt it) (OpenWeather.dt_txt it)
    (OpenWeather.fc_temp it) (OpenWeather.fc_temp_min it) (OpenWeather.fc_temp_max it)
    (OpenWeather.fc_weather it).

(** The fields of a day that the first revision already had. *)
Definition common_fields (fd : ForecastDay) : OpenWeatherV1.ForecastDay :=
  OpenWeatherV1.mkForecastDay (date fd) (minTemp fd) (maxTemp fd) (day_description fd).

(** The dates of the samples, each once, in the order first met. *)
Definition dates_in_order (items : list OpenWeather.ForecastItem) : list string :=
  distinct (map Spec.item_date items).



(** A thrown value is a [WeatherError] object. *)
Definition is_WeatherError (e : Thrown) : Prop :=
  exists o, e = ThrownObject o /\ proto o = WeatherError_proto.

(** The request pattern shared by [getCurrentWeather], [getWeatherByCoords]
    (without [raw]) and [getForecast]: look the key up, else fetch with
    fallback, store, return. *)
Definition cached_fetch {W T : Type} (env : LotusWeather.Env W) (this : LotusWeather.Instance W)
    (cacheKey : string) (type : Cache.CacheKeyType) (wrap : T -> LotusWeather.Payload)
    (operation : WeatherProvider W -> Async W T) (providerName : string)
    : Async (LotusWeather.State W) LotusWeather.Payload :=
  (await cached := LotusWeather.cache_lookup env cacheKey in
   match cached with
   | Some hit => ret hit
   | None =>
       await result := LotusWeather.executeWithFallback this operation providerName in
       await _ := LotusWeather.cache_store env cacheKey (wrap result) type in
       ret (wrap result)
   end)%async.

(** The cache keys of the three public methods. *)
Definition current_key {W : Type} (this : LotusWeather.Instance W) (city : string) : string :=
  Cache.createKey (ProviderType_text (LotusWeather.primaryProviderType this))
    Cache.current city None.

Definition coords_key {W : Type} (env : LotusWeather.Env W) (this : LotusWeather.Instance W)
    (lat lon : Q) : string :=
  Cache.createKey (ProviderType_text (LotusWeather.primaryProviderType this))
    Cache.current
    (toFixed4 (LotusWeather.runtime env) lat +:+ "," +:+ toFixed4 (LotusWeather.runtime env) lon)
    None.

Definition forecast_key {W : Type} (env : LotusWeather.Env W) (this : LotusWeather.Instance W)
    (city : string) (options : option ForecastOptions) : string :=
  Cache.createKey (ProviderType_text (LotusWeather.primaryProviderType this))
    Cache.forecast city
    (Some (numberToString (LotusWeather.runtime env) (inject_Z (days_or_default options)))).

(** No white space at the front. *)
Definition starts_clean (points : list N) : Prop :=
  match points with
  | [] => True
  | c :: _ => Unicode.white_space c = false
  end.

(** A call of one of the three public fetching methods. *)
Inductive Request : Type :=
  | CurrentByCity (city : string) (options : option CurrentWeatherOptions)
  | CurrentByCoords (lat lon : Q) (options : option CurrentWeatherOptions)
  | Forecast (city : string) (options : option ForecastOptions).

Definition perform {W : Type} (env : LotusWeather.Env W) (this : LotusWeather.Instance W)
    (r : Request) : Async (LotusWeather.State W) LotusWeather.Payload :=
  match r with
  | CurrentByCity city options => LotusWeather.getCurrentWeather env this city options
  | CurrentByCoords lat lon options => LotusWeather.getWeatherByCoords env this lat lon options
  | Forecast city options => LotusWeather.getForecast env this city options
  end.

(** The cache key a request works with; none for a raw request. *)
Definition request_key {W : Type} (env : LotusWeather.Env W) (this : LotusWeather.Instance W)
    (r : Request) : option string :=
  match r with
  | CurrentByCity city options =>
      if raw_requested options then None else Some (current_key this city)
  | CurrentByCoords lat lon options =>
      if raw_requested options then None else Some (coords_key env this lat lon)
  | Forecast city options => Some (forecast_key env this city options)
  end.

Definition request_category (r : Request) : Cache.CacheKeyType :=
  match r with
  | Forecast _ _ => Cache.forecast
  | _ => Cache.current
  end.

(** The call reached the primary provider: its trace grew, by the primary
    first. *)
Definition reached_primary {W : Type} (before after : LotusWeather.State W) : Prop :=
  exists rest,
    LotusWeather.invoked after
    = (LotusWeather.invoked before ++ LotusWeather.primary :: rest)%list.

(** A configuration [new LotusWeather] accepts. *)
Definition acceptable (config : LotusWeather.LotusWeatherConfig) : Prop :=
  let uses_openweather :=
    LotusWeather.provider config = openweather
    \/ LotusWeather.fallbackProvider config = Some openweather in
  (uses_openweather ->
   exists k, LotusWeather.apiKey config = Some k /\ k <> ""%string)
  /\ LotusWeather.fallbackProvider config <> Some (LotusWeather.provider config).

End More.

(* ===================================================================== *)
(** ** Concrete Open-Meteo upstreams for the examples below *)
(* ===================================================================== *)

Module OpenMeteoScenarios.
Import Js JsNumber Types.
Local Open Scope Q_scope.

(** A geocoder that knows London only, and a forecast endpoint that always
    answers with the same body. *)
Definition london_only : OpenMeteo.Http Scenarios.requests :=
  OpenMeteo.mkHttp
    (fun name =>
       Scenarios.answer
         (Normal
            (OpenMeteo.mkGeocodingResponse
               (if String.eqb name "London"
                then Some [OpenMeteo.mkGeocodingResult "London" (515 # 10) (-1 # 10) "GB"]
                else None))))
    (fun _ => Scenarios.answer (Normal Scenarios.raw_body)).

(** A fragment of the weather-code table. *)
Definition some_codes (c : Q) : option string :=
  if Qeq_bool c 0 then Some "Clear sky"%string else None.

(** A provider made of the Open-Meteo current-weather methods (its
    forecast methods answer with no days). *)
Definition provider : WeatherProvider Scenarios.requests :=
  mkProvider (mkMetadata false true)
    (OpenMeteo.getCurrentWeatherByCity london_only Scenarios.fixed_runtime some_codes)
    (OpenMeteo.getCurrentWeatherByCoords london_only Scenarios.fixed_runtime some_codes)
    (fun _ _ => Scenarios.answer (Normal []))
    (fun _ _ => Scenarios.answer (Normal [])).

(** Open-Meteo as primary, a fallback that would answer. *)
Definition instance : LotusWeather.Instance Scenarios.requests :=
  LotusWeather.mkInstance provider
    (Some (Scenarios.provider_answering (Normal (Normalized Scenarios.sunny))))
    open_meteo (Some openweather).

End OpenMeteoScenarios.

(* ===================================================================== *)
(** * Properties *)
(* ===================================================================== *)

Module UnicodeFacts.
Import Unicode.
Local Open Scope N_scope.

Ltac div_lia := zify; Z.to_euclidean_division_equations; lia.

Lemma N_of_byte (n : N) : n < 256 -> N_of_ascii (byte n) = n.
Proof. apply N_ascii_embedding. Qed.

Lemma continuation_byte (x : N) : x < 0x40 -> continuation (byte (0x80 + x)) = Some x.
Proof.
  intros H. unfold continuation. rewrite N_of_byte by lia.
  destruct (N.leb_spec 0x80 (0x80 + x)); [| lia].
  destruct (N.ltb_spec (0x80 + x) 0xC0); [| lia].
  simpl. f_equal. lia.
Qed.

Lemma continuation_bound (b : ascii) (x : N) : continuation b = Some x -> x < 0x40.
Proof.
  unfold continuation.
  destruct (N.leb_spec 0x80 (N_of_ascii b)); [| discriminate].
  destruct (N.ltb_spec (N_of_ascii b) 0xC0); [| discriminate].
  simpl. intros [= <-]. lia.
Qed.

(** The decoder, one code point at a time. *)
Lemma decode_1 (b1 : ascii) (s : string) :
  N_of_ascii b1 < 0x80 ->
  decode (String b1 s) = option_map (cons (N_of_ascii b1)) (decode s).
Proof.
  intros H. cbn [decode].
  by destruct (N.ltb_spec (N_of_ascii b1) 0x80); [| lia].
Qed.

Lemma decode_2 (b1 b2 : ascii) (s : string) (x2 : N) :
  0xC2 <= N_of_ascii b1 < 0xE0 -> continuation b2 = Some x2 ->
  decode (String b1 (String b2 s))
  = option_map (cons ((N_of_ascii b1 - 0xC0) * 0x40 + x2)) (decode s).
Proof.
  intros H H2. cbn [decode]. rewrite H2.
  destruct (N.ltb_spec (N_of_ascii b1) 0x80); [lia |].
  destruct (N.leb_spec 0xC2 (N_of_ascii b1)); [| lia].
  by destruct (N.ltb_spec (N_of_ascii b1) 0xE0); [| lia].
Qed.

Lemma decode_3 (b1 b2 b3 : ascii) (s : string) (x2 x3 : N) :
  0xE0 <= N_of_ascii b1 < 0xF0 -> continuation b2 = Some x2 -> continuation b3 = Some x3 ->
  let c := (N_of_ascii b1 - 0xE0) * 0x1000 + x2 * 0x40 + x3 in
  0x800 <= c -> scalar c = true ->
  decode (String b1 (String b2 (String b3 s))) = option_map (cons c) (decode s).
Proof.
  intros H H2 H3 c Hc Hs. cbn [decode]. rewrite H2, H3. fold c. rewrite Hs.
  destruct (N.ltb_spec (N_of_ascii b1) 0x80); [lia |].
  destruct (N.leb_spec 0xC2 (N_of_ascii b1)); [| lia].
  destruct (N.ltb_spec (N_of_ascii b1) 0xE0); [lia |].
  destruct (N.leb_spec 0xE0 (N_of_ascii b1)); [| lia].
  destruct (N.ltb_spec (N_of_ascii b1) 0xF0); [| lia].
  by destruct (N.leb_spec 0x800 c); [| lia].
Qed.

Lemma decode_4 (b1 b2 b3 b4 : ascii) (s : string) (x2 x3 x4 : N) :
  0xF0 <= N_of_ascii b1 < 0xF8 ->
  continuation b2 = Some x2 -> continuation b3 = Some x3 -> continuation b4 = Some x4 ->
  let c := (N_of_ascii b1 - 0xF0) * 0x40000 + x2 * 0x1000 + x3 * 0x40 + x4 in
  0x10000 <= c < 0x110000 ->
  decode (String b1 (String b2 (String b3 (String b4 s)))) = option_map (cons c) (decode s).
Proof.
  intros H H2 H3 H4 c Hc. cbn [decode]. rewrite H2, H3, H4. fold c.
  destruct (N.ltb_spec (N_of_ascii b1) 0x80); [lia |].
  destruct (N.leb_spec 0xC2 (N_of_ascii b1)); [| lia].
  destruct (N.ltb_spec (N_of_ascii b1) 0xE0); [lia |].
  destruct (N.leb_spec 0xE0 (N_of_ascii b1)); [| lia].
  destruct (N.ltb_spec (N_of_ascii b1) 0xF0); [lia |].
  destruct (N.leb_spec 0xF0 (N_of_ascii b1)); [| lia].
  destruct (N.ltb_spec (N_of_ascii b1) 0xF8); [| lia].
  destruct (N.leb_spec 0x10000 c); [| lia].
  by destruct (N.ltb_spec c 0x110000); [| lia].
Qed.

Lemma scalar_bounds (c : N) : scalar c = true <-> c < 0xD800 \/ 0xE000 <= c < 0x110000.
Proof.
  unfold scalar.
  destruct (N.ltb_spec c 0xD800), (N.leb_spec 0xE000 c), (N.ltb_spec c 0x110000);
    simpl; split; intros; try discriminate; try lia; auto.
Qed.

(** Decoding undoes encoding. *)
Lemma decode_encode_point (c : N) (s : string) :
  scalar c = true ->
  decode (encode_point c +:+ s) = option_map (cons c) (decode s).
Proof.
  intros Hs. pose proof (proj1 (scalar_bounds c) Hs) as Hb. unfold encode_point.
  destruct (N.ltb_spec c 0x80).
  - change (String (byte c) "" +:+ s) with (String (byte c) s).
    rewrite decode_1; rewrite N_of_byte by lia; [reflexivity | lia].
  - destruct (N.ltb_spec c 0x800).
    + change (String ?a (String ?b "") +:+ s) with (String a (String b s)).
      rewrite (decode_2 _ _ _ (c mod 0x40)).
      * rewrite N_of_byte by div_lia. do 2 f_equal. div_lia.
      * rewrite N_of_byte by div_lia. div_lia.
      * apply continuation_byte. div_lia.
    + destruct (N.ltb_spec c 0x10000).
      * change (String ?a (String ?b (String ?d "")) +:+ s)
          with (String a (String b (String d s))).
        assert (Hc : (N_of_ascii (byte (0xE0 + c / 0x1000)) - 0xE0) * 0x1000
                     + (c / 0x40) mod 0x40 * 0x40 + c mod 0x40 = c).
        { rewrite N_of_byte by div_lia. div_lia. }
        pose proof (decode_3 (byte (0xE0 + c / 0x1000)) (byte (0x80 + (c / 0x40) mod 0x40))
                      (byte (0x80 + c mod 0x40)) s ((c / 0x40) mod 0x40) (c mod 0x40)) as H3.
        cbv zeta in H3. rewrite Hc in H3. apply H3.
        -- rewrite N_of_byte by div_lia. div_lia.
        -- apply continuation_byte. div_lia.
        -- apply continuation_byte. div_lia.
        -- lia.
        -- exact Hs.
      * change (String ?a (String ?b (String ?d (String ?e ""))) +:+ s)
          with (String a (String b (String d (String e s)))).
        assert (Hc : (N_of_ascii (byte (0xF0 + c / 0x40000)) - 0xF0) * 0x40000
                     + (c / 0x1000) mod 0x40 * 0x1000 + (c / 0x40) mod 0x40 * 0x40
                     + c mod 0x40 = c).
        { rewrite N_of_byte by div_lia. div_lia. }
        pose proof (decode_4 (byte (0xF0 + c / 0x40000))
                      (byte (0x80 + (c / 0x1000) mod 0x40))
                      (byte (0x80 + (c / 0x40) mod 0x40))
                      (byte (0x80 + c mod 0x40)) s
                      ((c / 0x1000) mod 0x40) ((c / 0x40) mod 0x40) (c mod 0x40)) as H4.
        cbv zeta in H4. rewrite Hc in H4. apply H4.
        -- rewrite N_of_byte by div_lia. div_lia.
        -- apply continuation_byte. div_lia.
        -- apply continuation_byte. div_lia.
        -- apply continuation_byte. div_lia.
        -- lia.
Qed.

Lemma decode_encode (points : list N) :
  Forall (fun c => scalar c = true) points -> decode (encode points) = Some points.
Proof.
  induction 1 as [| c rest Hc _ IH]; [reflexivity |].
  cbn [encode]. by rewrite decode_encode_point, IH.
Qed.

(** What the decoder returns is made of scalar values. *)
Lemma decode_head (s : string) (c : N) (rest : list N) :
  decode s = Some (c :: rest) ->
  scalar c = true /\ exists s', decode s' = Some rest.
Proof.
  assert (Hstep : forall (s' : string) (c' : N),
             scalar c' = true ->
             option_map (cons c') (decode s') = Some (c :: rest) ->
             scalar c = true /\ exists s', decode s' = Some rest).
  { intros s' c' Hc'. destruct (decode s') as [l |] eqn:Hl; simpl; [| discriminate].
    intros [= <- <-]. split; [exact Hc' | by exists s']. }
  destruct s as [| b1 s1]; [discriminate |]. cbn [decode].
  destruct (N.ltb_spec (N_of_ascii b1) 0x80).
  { apply Hstep, scalar_bounds. lia. }
  destruct s1 as [| b2 s2]; [discriminate |].
  destruct (continuation b2) as [x2 |] eqn:Hx2; [| discriminate].
  apply continuation_bound in Hx2.
  destruct (N.leb_spec 0xC2 (N_of_ascii b1)), (N.ltb_spec (N_of_ascii b1) 0xE0); simpl.
  1: { apply Hstep, scalar_bounds. lia. }
  all: destruct s2 as [| b3 s3]; [discriminate |];
       destruct (continuation b3) as [x3 |] eqn:Hx3; [| discriminate];
       apply continuation_bound in Hx3;
       destruct (N.leb_spec 0xE0 (N_of_ascii b1)), (N.ltb_spec (N_of_ascii b1) 0xF0); simpl.
  all: try (match goal with
            | |- context [(?t <=? ?x) && scalar ?x] =>
                destruct (N.leb_spec t x); simpl; [| discriminate];
                destruct (scalar x) eqn:Hs; [| discriminate]
            end;
            by apply Hstep).
  all: destruct s3 as [| b4 s4]; [discriminate |];
       destruct (continuation b4) as [x4 |] eqn:Hx4; [| discriminate];
       apply continuation_bound in Hx4;
       destruct (N.leb_spec 0xF0 (N_of_ascii b1)), (N.ltb_spec (N_of_ascii b1) 0xF8); simpl;
       try discriminate.
  all: match goal with
       | |- context [(?t <=? ?x) && (?x <? ?u)] =>
           destruct (N.leb_spec t x); simpl; [| discriminate];
           destruct (N.ltb_spec x u); [| discriminate]
       end;
       apply Hstep, scalar_bounds; lia.
Qed.

Lemma decode_scalar (s : string) (points : list N) :
  decode s = Some points -> Forall (fun c => scalar c = true) points.
Proof.
  revert s. induction points as [| c rest IH]; intros s H; [constructor |].
  apply decode_head in H as [Hc [s' Hs']]. constructor; [exact Hc | by apply (IH s')].
Qed.

End UnicodeFacts.

Module CaseFacts.
Import Unicode.
Local Open Scope N_scope.
Local Open Scope list_scope.

#[local] Arguments simple_lower : simpl never.
#[local] Arguments case_ignorable : simpl never.
#[local] Arguments cased : simpl never.
#[local] Arguments cased_letter_follows : simpl never.

Lemma lowercase_in_In (c l : N) (pairs : list (N * N)) :
  lowercase_in pairs c = Some l -> In (c, l) pairs.
Proof.
  unfold lowercase_in. destruct (find _ pairs) as [[c' l'] |] eqn:H; simpl; [| discriminate].
  intros [= <-]. apply find_some in H as [Hin Heq]. simpl in Heq.
  by apply N.eqb_eq in Heq as ->.
Qed.

(** Read off the table: the lowercase of a code point is a scalar value
    that has no lowercase of its own, and neither of the two is white space. *)
Lemma lower_pairs_checked (c l : N) :
  In (c, l) lower_pairs ->
  unchanged l /\ scalar l = true /\ white_space c = false /\ white_space l = false.
Proof.
  assert (Hall :
            forallb
              (fun p =>
                 match lowercase_in lower_pairs (snd p) with None => true | Some _ => false end
                 && scalar (snd p) && negb (white_space (fst p))
                 && negb (white_space (snd p)))
              lower_pairs = true)
    by (vm_compute; reflexivity).
  intros Hin. rewrite forallb_forall in Hall. specialize (Hall _ Hin). simpl in Hall.
  apply andb_prop in Hall as [[[H1 H2]%andb_prop H3]%andb_prop H4].
  unfold unchanged. destruct (lowercase_in lower_pairs l); [discriminate |].
  by rewrite negb_true_iff in H3, H4.
Qed.

Lemma simple_lower_cases (c : N) :
  (unchanged c /\ simple_lower c = c) \/ In (c, simple_lower c) lower_pairs.
Proof.
  unfold simple_lower, unchanged.
  destruct (lowercase_in lower_pairs c) as [l |] eqn:H; [| by left].
  right. by apply lowercase_in_In.
Qed.

Lemma simple_lower_unchanged (c : N) : unchanged (simple_lower c).
Proof.
  destruct (simple_lower_cases c) as [[H ->] | H]; [exact H |].
  by apply lower_pairs_checked in H as [H _].
Qed.

Lemma unchanged_simple_lower (c : N) : unchanged c -> simple_lower c = c.
Proof. unfold unchanged, simple_lower. by intros ->. Qed.

Lemma simple_lower_idempotent (c : N) : simple_lower (simple_lower c) = simple_lower c.
Proof. apply unchanged_simple_lower, simple_lower_unchanged. Qed.

Lemma simple_lower_scalar (c : N) : scalar c = true -> scalar (simple_lower c) = true.
Proof.
  intros Hc. destruct (simple_lower_cases c) as [[_ ->] | H]; [exact Hc |].
  by apply lower_pairs_checked in H as (_ & H & _).
Qed.

Lemma simple_lower_white_space (c : N) : white_space (simple_lower c) = white_space c.
Proof.
  destruct (simple_lower_cases c) as [[_ ->] | H]; [reflexivity |].
  apply lower_pairs_checked in H as (_ & _ & H1 & H2). congruence.
Qed.

Lemma case_pair_lower (u l : N) :
  Spec.case_pair u l -> simple_lower u = l /\ simple_lower l = l.
Proof.
  intros [_ <-]. split; [reflexivity | apply simple_lower_idempotent].
Qed.

Lemma same_letter_lower (a b : N) : Spec.same_letter a b -> simple_lower a = simple_lower b.
Proof.
  intros [-> | [H | H]]; [reflexivity | |];
    apply case_pair_lower in H as [H1 H2]; congruence.
Qed.

Lemma same_up_to_case_lower (s t : list N) :
  Spec.same_up_to_case s t -> map simple_lower s = map simple_lower t.
Proof.
  induction 1 as [| a b s t Hab _ IH]; [reflexivity |].
  cbn [map]. f_equal; [by apply same_letter_lower | exact IH].
Qed.

(** The two letters whose lowercase is not read off the table alone. *)
Lemma special_not_unchanged (c : N) :
  unchanged c -> (c =? capital_sigma) = false /\ (c =? capital_i_with_dot) = false.
Proof.
  intros H. split; apply N.eqb_neq; intros ->; vm_compute in H; discriminate H.
Qed.

Lemma to_lower_from_unchanged (after_cased : bool) (points : list N) :
  Forall unchanged points -> to_lower_from after_cased points = points.
Proof.
  intros H. revert after_cased. induction H as [| c rest Hc _ IH]; intros after_cased;
    [reflexivity |].
  cbn [to_lower_from]. destruct (special_not_unchanged c Hc) as [-> ->].
  rewrite (unchanged_simple_lower c Hc). cbn [app]. by rewrite IH.
Qed.

Lemma to_lower_from_settles (after_cased : bool) (points : list N) :
  Forall unchanged (to_lower_from after_cased points).
Proof.
  revert after_cased. induction points as [| c rest IH]; intros after_cased;
    [constructor |].
  cbn [to_lower_from]. apply Forall_app. split; [| apply IH].
  destruct (c =? capital_sigma).
  - constructor; [| constructor].
    destruct (after_cased && negb (cased_letter_follows rest)); vm_compute; reflexivity.
  - destruct (c =? capital_i_with_dot).
    + repeat constructor; vm_compute; reflexivity.
    + constructor; [apply simple_lower_unchanged | constructor].
Qed.

Lemma to_lower_from_scalar (after_cased : bool) (points : list N) :
  Forall (fun c => scalar c = true) points ->
  Forall (fun c => scalar c = true) (to_lower_from after_cased points).
Proof.
  intros H. revert after_cased. induction H as [| c rest Hc _ IH]; intros after_cased;
    [constructor |].
  cbn [to_lower_from]. apply Forall_app. split; [| apply IH].
  destruct (c =? capital_sigma).
  - constructor; [| constructor].
    by destruct (after_cased && negb (cased_letter_follows rest)).
  - destruct (c =? capital_i_with_dot).
    + by repeat constructor.
    + constructor; [by apply simple_lower_scalar | constructor].
Qed.

Lemma to_lower_from_plain (after_cased : bool) (points : list N) :
  ~ In capital_sigma points -> ~ In capital_i_with_dot points ->
  to_lower_from after_cased points = map simple_lower points.
Proof.
  revert after_cased. induction points as [| c rest IH]; intros after_cased Hs Hi;
    [reflexivity |].
  cbn [to_lower_from map].
  destruct (N.eqb_spec c capital_sigma) as [-> | _]; [exfalso; apply Hs; by left |].
  destruct (N.eqb_spec c capital_i_with_dot) as [-> | _]; [exfalso; apply Hi; by left |].
  cbn [app]. f_equal. apply IH; intros H; [apply Hs | apply Hi]; by right.
Qed.

End CaseFacts.

Module TrimFacts.
Import Unicode Spec More.
Local Open Scope list_scope.

Lemma trim_start_white_space_app (before points : list N) :
  all_white_space before -> trim_start (before ++ points) = trim_start points.
Proof.
  induction 1 as [| c before Hc _ IH]; [reflexivity |].
  cbn [app trim_start]. by rewrite Hc.
Qed.

Lemma trim_end_white_space (after : list N) : all_white_space after -> trim_end after = [].
Proof.
  induction 1 as [| c after Hc _ IH]; [reflexivity |].
  cbn [trim_end]. by rewrite IH, Hc.
Qed.

Lemma trim_end_app_white_space (points after : list N) :
  all_white_space after -> trim_end (points ++ after) = trim_end points.
Proof.
  intros H. induction points as [| c points IH]; cbn [app trim_end].
  - by apply trim_end_white_space.
  - by rewrite IH.
Qed.

Lemma trim_start_app (points after : list N) :
  trim_start (points ++ after) =
  match trim_start points with
  | [] => trim_start after
  | t => t ++ after
  end.
Proof.
  induction points as [| c points IH]; cbn [app trim_start]; [reflexivity |].
  destruct (white_space c); [exact IH | reflexivity].
Qed.

Lemma trim_start_white_space (after : list N) :
  all_white_space after -> trim_start after = [].
Proof.
  induction 1 as [| c after Hc _ IH]; [reflexivity |]. cbn [trim_start]. by rewrite Hc.
Qed.

Lemma trim_padded (before core after : list N) :
  all_white_space before -> all_white_space after ->
  trim (before ++ core ++ after) = trim core.
Proof.
  intros Hb Ha. unfold trim.
  rewrite trim_start_white_space_app by exact Hb.
  rewrite trim_start_app.
  destruct (trim_start core) as [| c t] eqn:Hs.
  - by rewrite trim_start_white_space.
  - by apply trim_end_app_white_space.
Qed.

(** Trimming commutes with a map that keeps white space what it is. *)
Lemma trim_map (f : N -> N) (points : list N) :
  (forall c, white_space (f c) = white_space c) ->
  trim (map f points) = map f (trim points).
Proof.
  intros Hf.
  assert (Hstart : forall l, trim_start (map f l) = map f (trim_start l)).
  { induction l as [| c l IH]; [reflexivity |].
    cbn [map trim_start]. rewrite Hf. by destruct (white_space c). }
  assert (Hend : forall l, trim_end (map f l) = map f (trim_end l)).
  { induction l as [| c l IH]; [reflexivity |].
    cbn [map trim_end]. rewrite IH, Hf.
    destruct (trim_end l); [by destruct (white_space c) | reflexivity]. }
  unfold trim. by rewrite Hstart, Hend.
Qed.

Lemma trim_start_Forall (P : N -> Prop) (points : list N) :
  Forall P points -> Forall P (trim_start points).
Proof.
  induction 1 as [| c l Hc Hl IH]; [constructor |].
  cbn [trim_start]. destruct (white_space c); [exact IH | by constructor].
Qed.

Lemma trim_end_Forall (P : N -> Prop) (points : list N) :
  Forall P points -> Forall P (trim_end points).
Proof.
  induction 1 as [| c l Hc Hl IH]; [constructor |].
  cbn [trim_end]. destruct (trim_end l) as [| d t].
  - destruct (white_space c); [constructor | by repeat constructor].
  - by constructor.
Qed.

Lemma trim_Forall (P : N -> Prop) (points : list N) :
  Forall P points -> Forall P (trim points).
Proof. intros H. by apply trim_end_Forall, trim_start_Forall. Qed.

Lemma trim_start_starts_clean (points : list N) : starts_clean (trim_start points).
Proof.
  induction points as [| c l IH]; [exact I |].
  cbn [trim_start]. destruct (white_space c) eqn:Hc; [exact IH | exact Hc].
Qed.

Lemma trim_start_clean (points : list N) : starts_clean points -> trim_start points = points.
Proof. destruct points as [| c l]; [reflexivity |]. cbn. by intros ->. Qed.

Lemma trim_end_starts_clean (points : list N) :
  starts_clean points -> starts_clean (trim_end points).
Proof.
  destruct points as [| c l]; [exact (fun H => H) |]. cbn [starts_clean trim_end].
  intros Hc. destruct (trim_end l); [by rewrite Hc | exact Hc].
Qed.

Lemma trim_end_idempotent (points : list N) : trim_end (trim_end points) = trim_end points.
Proof.
  induction points as [| c l IH]; [reflexivity |]. cbn [trim_end].
  destruct (trim_end l) as [| d t] eqn:Ht.
  - destruct (white_space c) eqn:Hc; cbn [trim_end]; [reflexivity | by rewrite Hc].
  - change (trim_end (c :: d :: t))
      with (match trim_end (d :: t) with
            | [] => if white_space c then [] else [c]
            | u => c :: u
            end).
    by rewrite IH.
Qed.

Lemma trim_idempotent (points : list N) : trim (trim points) = trim points.
Proof.
  unfold trim.
  rewrite (trim_start_clean (trim_end (trim_start points))).
  - apply trim_end_idempotent.
  - apply trim_end_starts_clean, trim_start_starts_clean.
Qed.

End TrimFacts.

Module StringFacts.
Import Unicode Spec.
Local Open Scope list_scope.

(** The location part of a key, on the code points of a well-formed
    string. *)
Lemma normalise_decoded (s : string) (points : list N) :
  decode s = Some points ->
  JsString.trim (JsString.toLowerCase s) = encode (trim (to_lower points))
  /\ decode (JsString.trim (JsString.toLowerCase s)) = Some (trim (to_lower points)).
Proof.
  intros H. unfold JsString.toLowerCase, JsString.trim. rewrite H.
  pose proof (CaseFacts.to_lower_from_scalar false points
                (UnicodeFacts.decode_scalar s points H)) as Hscalar.
  fold (to_lower points) in Hscalar.
  rewrite (UnicodeFacts.decode_encode _ Hscalar). split; [reflexivity |].
  apply UnicodeFacts.decode_encode. by apply TrimFacts.trim_Forall.
Qed.

Lemma normalise_undecoded (s : string) :
  decode s = None -> JsString.trim (JsString.toLowerCase s) = s.
Proof. intros H. unfold JsString.toLowerCase, JsString.trim. by rewrite H, H. Qed.

Lemma normalise_idempotent (s : string) :
  JsString.trim (JsString.toLowerCase (JsString.trim (JsString.toLowerCase s)))
  = JsString.trim (JsString.toLowerCase s).
Proof.
  destruct (decode s) as [points |] eqn:H.
  - destruct (normalise_decoded s points H) as [Hn Hd].
    destruct (normalise_decoded _ _ Hd) as [-> _]. rewrite Hn. f_equal.
    unfold to_lower at 1.
    rewrite CaseFacts.to_lower_from_unchanged.
    + apply TrimFacts.trim_idempotent.
    + apply TrimFacts.trim_Forall, CaseFacts.to_lower_from_settles.
  - rewrite (normalise_undecoded s H). exact (normalise_undecoded s H).
Qed.

Lemma normalised_location (a b : string) :
  same_location a b -> without_special_casing a -> without_special_casing b ->
  JsString.trim (JsString.toLowerCase a) = JsString.trim (JsString.toLowerCase b).
Proof.
  intros (pa & pb & ca & cb & Ha & Hb
          & (la & ra & Hla & Hra & Hpa) & (lb & rb & Hlb & Hrb & Hpb) & Hcase) Hna Hnb.
  destruct (normalise_decoded a pa Ha) as [-> _].
  destruct (normalise_decoded b pb Hb) as [-> _].
  destruct (Hna pa Ha) as [Hsa Hia]. destruct (Hnb pb Hb) as [Hsb Hib].
  unfold to_lower. rewrite !CaseFacts.to_lower_from_plain by assumption.
  rewrite !TrimFacts.trim_map by apply CaseFacts.simple_lower_white_space.
  subst pa pb. rewrite !TrimFacts.trim_padded by assumption.
  rewrite <- !TrimFacts.trim_map by apply CaseFacts.simple_lower_white_space.
  by rewrite (CaseFacts.same_up_to_case_lower _ _ Hcase).
Qed.

(** Some values: plain letters, the Greek word for street with its final
    sigma, a sigma in the middle and at the end of a word, the capital
    dotted I, a sharp s, a letter outside the basic plane, and a name
    between a no-break space, an em space, a space and a zero-width
    no-break space. *)
Example toLowerCase_values :
  JsString.toLowerCase "LONDON" = "london"
  /\ JsString.toLowerCase "ΟΔΟΣ" = "οδος"
  /\ JsString.toLowerCase "ΣΑΣ" = "σας"
  /\ Unicode.decode (JsString.toLowerCase "İSTANBUL")
     = Some [0x69; 0x307; 0x73; 0x74; 0x61; 0x6E; 0x62; 0x75; 0x6C]%N
  /\ JsString.toLowerCase "Straße" = "straße"
  /\ Unicode.decode (JsString.toLowerCase (Unicode.encode [0x10400]%N)) = Some [0x10428]%N
  /\ JsString.trim (Unicode.encode [0xA0; 0x2003; 0xC9; 0x69; 0x72; 0x65; 0x20; 0xFEFF]%N)
     = "Éire"
  /\ Unicode.decode (String (Unicode.byte 0xC0) (String (Unicode.byte 0x80) "")) = None.
Proof. vm_compute. repeat split; reflexivity. Qed.

(** Two concrete strings are the same location: the strings are given as
    the white space before, the core and the white space after. *)
Ltac points_of s :=
  let l := eval vm_compute in (default [] (Unicode.decode s)) in l.

Ltac same_letters :=
  repeat (constructor;
          [ first [ left; reflexivity
                  | right; left; split; [discriminate | vm_compute; reflexivity]
                  | right; right; split; [discriminate | vm_compute; reflexivity] ] |]);
  constructor.

Ltac same_location_by core_a core_b la ra lb rb :=
  let ca := points_of core_a in
  let cb := points_of core_b in
  let pla := points_of la in
  let pra := points_of ra in
  let plb := points_of lb in
  let prb := points_of rb in
  exists (pla ++ ca ++ pra), (plb ++ cb ++ prb), ca, cb;
  split; [vm_compute; reflexivity |];
  split; [vm_compute; reflexivity |];
  split; [exists pla, pra; split; [repeat constructor | split; [repeat constructor | reflexivity]] |];
  split; [exists plb, prb; split; [repeat constructor | split; [repeat constructor | reflexivity]] |];
  same_letters.

Ltac without_special_casing_by :=
  let points := fresh "points" in
  let H := fresh "H" in
  let Hin := fresh "Hin" in
  intros points H; vm_compute in H; injection H as <-;
  split; intros Hin; simpl in Hin; intuition discriminate.

End StringFacts.

Module CacheFacts.
Import Cache.

(** C7. For every key, [Cache.get] returns the stored value when the key has
    an entry and the current time is at most the entry's [expiresAt], and
    the cache is left as it was.  In every other case it returns
    [undefined], and afterwards the store is the old one without that key:
    an expired entry is deleted, nothing else changes.  These two cases are
    all there is, so the lookup always returns and never raises. *)
Theorem get_spec {T : Type} (now : Z) (key : string) (c : t T) :
  (exists e, Spec.live_entry now key c e /\ get now key c = (Some (value e), c))
  \/ ((forall e, ~ Spec.live_entry now key c e)
      /\ fst (get now key c) = None
      /\ store (snd (get now key c)) = delete key (store c)
      /\ ttl (snd (get now key c)) = ttl c).
Proof.
  unfold Spec.live_entry, get.
  destruct (store c !! key) as [e|] eqn:He.
  - destruct (Z.gtb_spec now (expiresAt e)) as [Hgt | Hle].
    + right. simpl. repeat split; try reflexivity.
      intros e' [[= <-] Hle]. lia.
    + left. exists e. repeat split; [lia].
  - right. simpl. repeat split.
    + intros e [[=] _].
    + symmetry. by apply delete_id.
Qed.

(** An expired entry is gone after the lookup, and every other key keeps
    what it had. *)
Lemma get_evicts_only_key {T : Type} (now : Z) (key : string) (c : t T) (e : CacheEntry T) :
  store c !! key = Some e -> (expiresAt e < now)%Z ->
  store (snd (get now key c)) !! key = None
  /\ forall k, k <> key -> store (snd (get now key c)) !! k = store c !! k.
Proof.
  intros He Hlt. unfold get. rewrite He.
  destruct (Z.gtb_spec now (expiresAt e)); [| lia]. simpl. split.
  - apply lookup_delete_eq.
  - intros k Hk. by apply lookup_delete_ne.
Qed.

Example get_fresh_expired_absent :
  let c := set 1000 "k" 7%Z current (new None) in
  fst (get 1000 "k" c) = Some 7%Z
  /\ fst (get 301000 "k" c) = Some 7%Z
  /\ fst (get 301001 "k" c) = None
  /\ size (snd (get 301001 "k" c)) = 0%nat
  /\ fst (get 1000 "other" c) = None.
Proof. vm_compute. repeat split; reflexivity. Qed.




Example createKey_values :
  createKey "open-meteo" current " LONDON " None = "open-meteo:current:london"
  /\ createKey "openweather" forecast "Paris" (Some "5") = "openweather:forecast:paris:5"
  /\ createKey "openweather" forecast "Paris" (Some "") = "openweather:forecast:paris".
Proof. vm_compute. repeat split; reflexivity. Qed.

End CacheFacts.

Module ErrorsFacts.
Import Js Errors Spec.

Lemma has_status_unfold (o : ErrorObject) (P : Z -> Prop) :
  has_status o P <->
  match response o with
  | Some r => match status r with Some s => P s | None => False end
  | None => False
  end.
Proof.
  unfold has_status. split.
  - intros (r & s & -> & -> & HP). exact HP.
  - destruct (response o) as [r|]; [| tauto].
    destruct (status r) as [s|] eqn:Hs; [| tauto].
    intros HP. exists r, s. auto.
Qed.

Lemma includes_code_In (codes : list string) (c : string) :
  includes_code codes c = true <-> In c codes.
Proof.
  unfold includes_code. rewrite existsb_exists. split.
  - intros (x & Hx & ->%String.eqb_eq). exact Hx.
  - intros Hc. exists c. split; [exact Hc | apply String.eqb_refl].
Qed.

Lemma code_listed_unfold (o : ErrorObject) :
  (exists c, code o = Some c /\ In c transientCodes) <->
  match code o with
  | Some c => includes_code transientCodes c = true
  | None => False
  end.
Proof.
  split.
  - intros (c & -> & Hc). by apply includes_code_In.
  - destruct (code o) as [c|]; [| tauto].
    intros Hc. exists c. split; [reflexivity | by apply includes_code_In].
Qed.

#[local] Arguments includes_code : simpl never.

Ltac split_conditions :=
  repeat match goal with
    | |- context [Z.eqb ?a ?b] => destruct (Z.eqb_spec a b)
    | |- context [Z.leb ?a ?b] => destruct (Z.leb_spec a b)
    | |- context [Z.ltb ?a ?b] => destruct (Z.ltb_spec a b)
    | |- context [code ?o] => destruct (code o)
    | |- context [includes_code ?l ?c] => destruct (includes_code l c)
    | |- context [request ?o] => destruct (request o)
    end;
  simpl.

(** The classifier decides exactly [Spec.transient]. *)
Lemma isTransientError_iff (e : Thrown) :
  isTransientError e = true <-> transient e.
Proof.
  destruct e as [o |]; simpl; [| split; [discriminate | tauto]].
  unfold responded_429_or_5xx, responded_4xx_or_5xx.
  rewrite !has_status_unfold, code_listed_unfold.
  destruct (response o) as [[[s|]]|]; simpl; split_conditions;
    (split; [intros Ht | intros Hs]);
    try reflexivity; try discriminate;
    try (intuition (first [lia | discriminate | congruence]));
    try (left; lia);
    try (right; split; [lia | tauto]);
    try (right; tauto).
Qed.

(** C4, as stated, fails: a request that was sent, got no response and
    carries a code outside the transport list is none of the four transient
    cases, so it falls under "everything else", yet the classifier calls it
    transient. *)
Lemma stated_classification_fails :
  isTransientError (ThrownObject Scenarios.canceled_request) = true
  /\ ~ stated_transient (ThrownObject Scenarios.canceled_request).
Proof.
  split; [reflexivity |].
  unfold stated_transient, responded_429_or_5xx, has_status,
    transport_failure_without_response, sent_without_response_or_code.
  simpl. intros [(r & s & H & _) | [(_ & c & [= <-] & Hin) | (_ & _ & H)]].
  - discriminate H.
  - simpl in Hin. intuition discriminate.
  - discriminate H.
Qed.

(** C4, amended.  A response with status 429 or any 5xx is transient; a
    response with any other 4xx status is permanent; a failure without a
    response whose code is one of ECONNREFUSED, ECONNRESET, ETIMEDOUT,
    ENOTFOUND, ENETUNREACH, EAI_AGAIN is transient; a request that was sent
    and got no response is transient whether or not it carries a code; a
    response whose status is neither 4xx nor 5xx is judged by its code
    alone; everything else, a value that is not an object and a
    [WeatherError] among it, is permanent. *)
Theorem isTransientError_classification :
  (forall o, responded_429_or_5xx o -> isTransientError (ThrownObject o) = true)
  /\ (forall o, responded_other_4xx o -> isTransientError (ThrownObject o) = false)
  /\ (forall o, transport_failure_without_response o ->
        isTransientError (ThrownObject o) = true)
  /\ (forall o, request o = true -> response o = None ->
        isTransientError (ThrownObject o) = true)
  /\ (forall e, isTransientError e = true <-> transient e)
  /\ isTransientError ThrownPrimitive = false
  /\ (forall msg cause,
        isTransientError (ThrownObject (new_WeatherError msg cause)) = false).
Proof.
  repeat split.
  - intros o H. apply isTransientError_iff. by left.
  - intros o H. apply not_true_is_false. intros Ht%isTransientError_iff.
    revert H Ht. simpl.
    unfold responded_other_4xx, responded_429_or_5xx, responded_4xx_or_5xx.
    rewrite !has_status_unfold.
    destruct (response o) as [[[s|]]|]; simpl; try tauto.
    intros H [Ht | [Ht _]]; lia.
  - intros o [Hr Hc]. apply isTransientError_iff. right. split; [| by left].
    unfold responded_4xx_or_5xx. rewrite has_status_unfold, Hr. tauto.
  - intros o Hq Hr. apply isTransientError_iff. right. split; [| by right].
    unfold responded_4xx_or_5xx. rewrite has_status_unfold, Hr. tauto.
  - apply isTransientError_iff.
  - apply isTransientError_iff.
Qed.

Example isTransientError_values :
  let responded s := mkErrorObject Error_proto "Request failed" (Some (mkResponse (Some s)))
                       (Some "ERR_BAD_RESPONSE") true None in
  let failed c := mkErrorObject Error_proto "connect" None (Some c) true None in
  map (fun s => isTransientError (ThrownObject (responded s))) [429; 500; 503; 599; 400; 401; 404; 499]%Z
  = [true; true; true; true; false; false; false; false]
  /\ map (fun c => isTransientError (ThrownObject (failed c))) transientCodes
     = [true; true; true; true; true; true]
  /\ isTransientError (ThrownObject (new_Error "City not found: X")) = false.
Proof. vm_compute. repeat split; reflexivity. Qed.

End ErrorsFacts.

Module OpenWeatherRawFacts.
Import Js Types OpenWeather.

(** With the upstream unreachable, a raw-mode request to the OpenWeather
    provider is answered with the connection failure, not with the usage
    error, by city and by coordinates alike. *)
Lemma raw_usage_error_preempted_by_network :
  let offline := Scenarios.client_answering (Throw (ThrownObject Scenarios.connection_refused)) in
  let by_city :=
    getCurrentWeatherByCity offline Scenarios.fixed_runtime "London" Scenarios.raw_options 0%nat in
  let by_coords :=
    getCurrentWeatherByCoords offline Scenarios.fixed_runtime
      (mkCoordinates (515 # 10) 0) Scenarios.raw_options 0%nat in
  fst by_city = Throw (ThrownObject Scenarios.connection_refused)
  /\ fst by_city <> Throw raw_mode_error
  /\ fst by_coords = Throw (ThrownObject Scenarios.connection_refused)
  /\ fst by_coords <> Throw raw_mode_error.
Proof. vm_compute. repeat split; try reflexivity; discriminate. Qed.

(** The order of the two steps in the provider.  A raw-mode current-weather
    request first makes the upstream call.  When that call succeeds the
    provider throws the usage error; when it fails, the provider throws that
    upstream failure.  Either way the provider itself returns no result, and
    the world is the one the upstream call left. *)
Theorem raw_mode_after_upstream_call {W : Type} (client : AxiosInstance W) (rt : Runtime)
    (city : string) (coords : Coordinates) (options : option CurrentWeatherOptions) (w : W) :
  raw_requested options = true ->
  (getCurrentWeatherByCity client rt city options w =
     match get_weather client (ByCity city) w with
     | (Normal _, w') => (Throw raw_mode_error, w')
     | (Throw e, w') => (Throw e, w')
     end)
  /\ (getCurrentWeatherByCoords client rt coords options w =
        match get_weather client (ByCoords (latitude coords) (longitude coords)) w with
        | (Normal _, w') => (Throw raw_mode_error, w')
        | (Throw e, w') => (Throw e, w')
        end)
  /\ is_Normal (fst (getCurrentWeatherByCity client rt city options w)) = false
  /\ is_Normal (fst (getCurrentWeatherByCoords client rt coords options w)) = false.
Proof.
  intros Hraw.
  unfold getCurrentWeatherByCity, getCurrentWeatherByCoords, bind, throw.
  rewrite Hraw.
  destruct (get_weather client (ByCity city) w) as [[d | e] w1];
    destruct (get_weather client (ByCoords (latitude coords) (longitude coords)) w)
      as [[d' | e'] w2];
    repeat split.
Qed.

Lemma raw_mode_after_upstream_call_online :
  raw_requested Scenarios.raw_options = true
  /\ getCurrentWeatherByCity (Scenarios.client_answering (Normal (Scenarios.london None)))
       Scenarios.fixed_runtime "London" Scenarios.raw_options 0%nat
     = (Throw raw_mode_error, 1%nat).
Proof.
  split; [reflexivity |].
  apply (raw_mode_after_upstream_call
           (Scenarios.client_answering (Normal (Scenarios.london None)))
           Scenarios.fixed_runtime "London" (mkCoordinates 0 0) Scenarios.raw_options 0%nat
           eq_refl).
Defined.

End OpenWeatherRawFacts.

Module RawModeFacts.
Import Js Types Errors LotusWeather.

(** C1 at its failing input.
    [new LotusWeather({ provider: "openweather", apiKey: "key",
    fallbackProvider: "open-meteo" })] and
    [getCurrentWeather("London", { raw: true })].  With the OpenWeather
    upstream answering, the request fails with the usage error and the
    fallback is not called.  With the upstream refusing the connection the
    usage error is never raised: the provider throws the connection failure
    first, that failure counts as transient, the fallback is called, and
    the caller is handed a raw Open-Meteo body.  Whether a raw request
    fails with the usage error depends on the network. *)
Theorem raw_request_outcome_depends_on_network :
  let request :=
    fun env this =>
      getCurrentWeather env this "London" Scenarios.raw_options (Scenarios.fresh None) in
  let online :=
    Scenarios.env_answering (Normal (Scenarios.london None))
      (Normal (RawBody Scenarios.raw_body)) in
  let offline :=
    Scenarios.env_answering (Throw (ThrownObject Scenarios.connection_refused))
      (Normal (RawBody Scenarios.raw_body)) in
  (exists this,
     LotusWeather.new online Scenarios.openweather_with_fallback = Normal (this, None)
     /\ invoked (snd (request online this)) = [primary]
     /\ world (snd (request online this)) = 1%nat
     /\ exists raised,
          fst (request online this) = Throw (ThrownObject raised)
          /\ message raised
             = "getCurrentWeather: Raw mode is only supported for Open-Meteo provider"%string
          /\ cause raised
             = Some (new_Error "Raw mode is only supported for Open-Meteo provider"))
  /\ (exists this,
        LotusWeather.new offline Scenarios.openweather_with_fallback = Normal (this, None)
        /\ OpenWeather.getCurrentWeatherByCity
             (Scenarios.client_answering (Throw (ThrownObject Scenarios.connection_refused)))
             Scenarios.fixed_runtime "London" Scenarios.raw_options 0%nat
           = (Throw (ThrownObject Scenarios.connection_refused), 1%nat)
        /\ isTransientError (ThrownObject Scenarios.connection_refused) = true
        /\ invoked (snd (request offline this)) = [primary; fallback]
        /\ world (snd (request offline this)) = 2%nat
        /\ fst (request offline this) = Normal (PCurrent (RawBody Scenarios.raw_body))).
Proof.
  split.
  - eexists. split; [reflexivity |].
    vm_compute. repeat split. eexists. repeat split.
  - eexists. split; [reflexivity |].
    vm_compute. repeat split.
Qed.

End RawModeFacts.

Module LotusWeatherFacts.
Import Js Types Errors LotusWeather.
Local Open Scope list_scope.

Section Orchestrator.
Context {W : Type} (env : Env W) (this : Instance W).

(** A fallback-aware fetch never touches the cache field, and what it does
    does not depend on it. *)
Lemma executeWithFallback_cache {T : Type}
    (operation : WeatherProvider W -> Async W T) (providerName : string)
    (w : W) (c c' : option (Cache.t Payload)) (log : list Role) :
  let r := executeWithFallback this operation providerName (mkState w c log) in
  let r' := executeWithFallback this operation providerName (mkState w c' log) in
  cache (snd r) = c
  /\ fst r' = fst r /\ world (snd r') = world (snd r) /\ invoked (snd r') = invoked (snd r).
Proof.
  unfold executeWithFallback, try_catch, hand_to, throw. simpl.
  destruct (operation (primaryProvider this) w) as [[v | e] w1]; simpl; [tauto |].
  destruct (fallbackProvider_ this) as [fb |]; simpl; [| tauto].
  destruct (isTransientError e); simpl; [| tauto].
  destruct (operation fb w1) as [[v | e2] w2]; simpl; tauto.
Qed.

(** What the fetch does after a transient primary failure. *)
Lemma executeWithFallback_transient {T : Type}
    (operation : WeatherProvider W -> Async W T) (providerName : string)
    (st : State W) (fb : WeatherProvider W) (e : Thrown) (w1 : W) :
  fallbackProvider_ this = Some fb ->
  operation (primaryProvider this) (world st) = (Throw e, w1) ->
  isTransientError e = true ->
  executeWithFallback this operation providerName st =
    (match fst (operation fb w1) with
     | Normal v => Normal v
     | Throw _ => Throw (ThrownObject (wrapError e providerName))
     end,
     mkState (snd (operation fb w1)) (cache st) (invoked st ++ [primary; fallback])).
Proof.
  intros Hfb Hop Ht.
  unfold executeWithFallback, try_catch, hand_to, throw. simpl.
  rewrite Hop, Hfb, Ht. simpl.
  destruct (operation fb w1) as [[v | e2] w2]; simpl;
    by rewrite <- app_assoc.
Qed.

(** What the fetch does after a primary failure that is not transient. *)
Lemma executeWithFallback_permanent {T : Type}
    (operation : WeatherProvider W -> Async W T) (providerName : string)
    (st : State W) (e : Thrown) (w1 : W) :
  operation (primaryProvider this) (world st) = (Throw e, w1) ->
  isTransientError e = false ->
  executeWithFallback this operation providerName st =
    (Throw (ThrownObject (wrapError e providerName)),
     mkState w1 (cache st) (invoked st ++ [primary])).
Proof.
  intros Hop Ht.
  unfold executeWithFallback, try_catch, hand_to, throw. simpl.
  rewrite Hop, Ht. simpl.
  by destruct (fallbackProvider_ this).
Qed.

End Orchestrator.

(** C2. When the primary provider fails with a transient error and a
    fallback provider is configured, the operation is handed to the fallback
    provider exactly once, after the primary; if that attempt fails too, the
    error raised is the primary's error wrapped, whatever the fallback's
    error was (and if it succeeds, its result is returned). *)
Theorem fallback_once_then_primary_error {W T : Type} (this : Instance W)
    (operation : WeatherProvider W -> Async W T) (providerName : string)
    (st : State W) (fb : WeatherProvider W) (e : Thrown) (w1 : W) :
  fallbackProvider_ this = Some fb ->
  operation (primaryProvider this) (world st) = (Throw e, w1) ->
  isTransientError e = true ->
  let run := executeWithFallback this operation providerName st in
  invoked (snd run) = invoked st ++ [primary; fallback]
  /\ world (snd run) = snd (operation fb w1)
  /\ (forall e2, fst (operation fb w1) = Throw e2 ->
        fst run = Throw (ThrownObject (wrapError e providerName)))
  /\ (forall v, fst (operation fb w1) = Normal v -> fst run = Normal v).
Proof.
  intros Hfb Hop Ht run. subst run.
  rewrite (executeWithFallback_transient this operation providerName st fb e w1 Hfb Hop Ht).
  simpl. repeat split.
  - intros e2 ->. reflexivity.
  - intros v ->. reflexivity.
Qed.

(** A primary 500 and a fallback that cannot connect: one attempt each, and
    the caller sees the primary's "Provider service unavailable". *)
Lemma fallback_once_then_primary_error_500 :
  let this := Scenarios.failing_instance (ThrownObject (Scenarios.status_error 500))
                (ThrownObject Scenarios.connection_refused) in
  let op := fun p : WeatherProvider Scenarios.requests =>
              getCurrentWeatherByCity p "London" None in
  let run := executeWithFallback this op "getCurrentWeather" (Scenarios.fresh None) in
  invoked (snd run) = [primary; fallback]
  /\ world (snd run) = 2%nat
  /\ fst run =
     Throw (ThrownObject
              (new_WeatherError "Provider service unavailable"
                 (Some (Scenarios.status_error 500)))).
Proof.
  intros this op run.
  destruct (fallback_once_then_primary_error this op "getCurrentWeather"
              (Scenarios.fresh None)
              (Scenarios.provider_answering (Throw (ThrownObject Scenarios.connection_refused)))
              (ThrownObject (Scenarios.status_error 500)) 1%nat
              eq_refl eq_refl eq_refl) as (Hlog & Hw & Herr & _).
  split; [exact Hlog | split; [exact Hw |]].
  exact (Herr (ThrownObject Scenarios.connection_refused) eq_refl).
Defined.

(** [wrapError] on an HTTP 404 whose own message does not speak of a city:
    the message is the bare "City not found". *)
Lemma wrapError_404 (o : ErrorObject) (r : Response) (context : string) :
  proto o = Error_proto ->
  JsString.includes "City not found" (message o) = false ->
  response o = Some r -> status r = Some 404%Z ->
  wrapError (ThrownObject o) context = new_WeatherError "City not found" (Some o).
Proof.
  intros Hp Hm Hr Hs. unfold wrapError. by rewrite Hp, Hm, Hr, Hs.
Qed.

(** After a primary failure with HTTP status 404 the fallback provider is
    never handed the operation. *)
Lemma not_found_never_reaches_fallback {W T : Type} (this : Instance W)
    (operation : WeatherProvider W -> Async W T) (providerName : string)
    (st : State W) (o : ErrorObject) (r : Response) (w1 : W) :
  operation (primaryProvider this) (world st) = (Throw (ThrownObject o), w1) ->
  response o = Some r -> status r = Some 404%Z ->
  let run := executeWithFallback this operation providerName st in
  invoked (snd run) = invoked st ++ [primary]
  /\ world (snd run) = w1
  /\ fst run = Throw (ThrownObject (wrapError (ThrownObject o) providerName)).
Proof.
  intros Hop Hr Hs run. subst run.
  rewrite (executeWithFallback_permanent this operation providerName st _ w1 Hop).
  - repeat split.
  - simpl. by rewrite Hr, Hs.
Qed.

(** C3 at its failing input.  Primary OpenWeather, fallback Open-Meteo,
    [getCurrentWeather("Atlantis")], upstream answers 404: the fallback is
    not invoked (one provider call, one request), and the error raised has
    the message "City not found", which is not of the shape
    "City not found: <city>" and does not contain the caller's input. *)
Theorem http_404_message_without_city :
  let env := Scenarios.env_answering
               (Throw (ThrownObject (Scenarios.status_error 404)))
               (Normal (Normalized Scenarios.sunny)) in
  exists this,
    LotusWeather.new env Scenarios.openweather_with_fallback = Normal (this, None)
    /\ let run := getCurrentWeather env this "Atlantis" None (Scenarios.fresh None) in
       invoked (snd run) = [primary]
       /\ world (snd run) = 1%nat
       /\ exists raised,
            fst run = Throw (ThrownObject raised)
            /\ message raised = "City not found"%string
            /\ JsString.startsWith "City not found: " (message raised) = false
            /\ JsString.includes "Atlantis" (message raised) = false
            /\ cause raised = Some (Scenarios.status_error 404).
Proof.
  eexists. split; [reflexivity |].
  vm_compute. repeat split. eexists. repeat split.
Qed.

(** An Open-Meteo miss, by contrast, is reported with the city. *)
Example geocoding_miss_message_with_city :
  message (wrapError (ThrownObject (new_Error "City not found: Atlantis")) "getCurrentWeather")
  = "City not found: Atlantis"%string.
Proof. reflexivity. Qed.

(** C8. A current-weather request with [options.raw] set, by city or by
    coordinates, leaves the cache exactly as it found it, and its outcome
    (what it returns or raises, the world it leaves, the providers it
    calls) is the same whatever the cache holds, so nothing it returns
    comes from the cache. *)
Theorem raw_request_bypasses_cache {W : Type} (env : Env W) (this : Instance W)
    (city : string) (lat lon : Q) (options : option CurrentWeatherOptions)
    (w : W) (c c' : option (Cache.t Payload)) (log : list Role) :
  raw_requested options = true ->
  let by_city := getCurrentWeather env this city options in
  let by_coords := getWeatherByCoords env this lat lon options in
  (cache (snd (by_city (mkState w c log))) = c
   /\ fst (by_city (mkState w c' log)) = fst (by_city (mkState w c log))
   /\ world (snd (by_city (mkState w c' log))) = world (snd (by_city (mkState w c log)))
   /\ invoked (snd (by_city (mkState w c' log))) = invoked (snd (by_city (mkState w c log))))
  /\ (cache (snd (by_coords (mkState w c log))) = c
      /\ fst (by_coords (mkState w c' log)) = fst (by_coords (mkState w c log))
      /\ world (snd (by_coords (mkState w c' log))) = world (snd (by_coords (mkState w c log)))
      /\ invoked (snd (by_coords (mkState w c' log)))
         = invoked (snd (by_coords (mkState w c log)))).
Proof.
  intros Hraw by_city by_coords. subst by_city by_coords.
  unfold getCurrentWeather, getWeatherByCoords. rewrite Hraw. unfold bind, ret.
  split.
  - pose proof (executeWithFallback_cache this
                  (fun provider => getCurrentWeatherByCity provider city options)
                  "getCurrentWeather" w c c' log) as H.
    simpl in H.
    destruct (executeWithFallback this _ "getCurrentWeather" (mkState w c log))
      as [[v | e] st1];
    destruct (executeWithFallback this _ "getCurrentWeather" (mkState w c' log))
      as [[v' | e'] st1'];
    simpl in *; destruct H as (H1 & H2 & H3 & H4); try discriminate;
    repeat split; congruence.
  - pose proof (executeWithFallback_cache this
                  (fun provider =>
                     getCurrentWeatherByCoords provider (mkCoordinates lat lon) options)
                  "getWeatherByCoords" w c c' log) as H.
    simpl in H.
    destruct (executeWithFallback this _ "getWeatherByCoords" (mkState w c log))
      as [[v | e] st1];
    destruct (executeWithFallback this _ "getWeatherByCoords" (mkState w c' log))
      as [[v' | e'] st1'];
    simpl in *; destruct H as (H1 & H2 & H3 & H4); try discriminate;
    repeat split; congruence.
Qed.

(** With a normalized London result in the cache, a raw request for London
    still goes upstream and returns the raw body, and the cache keeps its
    one entry; the same request without [raw] is served from the cache. *)
Lemma raw_request_bypasses_cache_london :
  let env := Scenarios.env_answering (Throw ThrownPrimitive) (Throw ThrownPrimitive) in
  let this := Scenarios.open_meteo_instance in
  let st := Scenarios.fresh (Some Scenarios.cache_with_london) in
  let raw_run := getCurrentWeather env this "London" Scenarios.raw_options st in
  let plain_run := getCurrentWeather env this "London" None st in
  (cache (snd raw_run) = Some Scenarios.cache_with_london
   /\ fst raw_run = fst (getCurrentWeather env this "London" Scenarios.raw_options
                           (Scenarios.fresh None)))
  /\ fst raw_run = Normal (PCurrent (RawBody Scenarios.raw_body))
  /\ invoked (snd raw_run) = [primary]
  /\ fst plain_run = Normal (PCurrent (Normalized Scenarios.sunny))
  /\ invoked (snd plain_run) = [].
Proof.
  intros env this st raw_run plain_run.
  split.
  - destruct (raw_request_bypasses_cache env this "London" 0%Q 0%Q Scenarios.raw_options
                0%nat (Some Scenarios.cache_with_london) None [] eq_refl)
      as ((Hc & Hr & _) & _).
    split; [exact Hc | symmetry; exact Hr].
  - vm_compute. repeat split.
Defined.

End LotusWeatherFacts.

Module NumberFacts.
Import JsNumber Spec.
Local Open Scope Q_scope.

Lemma tenth_as_product (q : Q) : q / 10 == q * (1 # 10).
Proof. field. Qed.

Lemma Math_round_nearest (x : Q) : nearest_integer x (Math_round x).
Proof.
  unfold nearest_integer, Math_round. split; [by eexists |].
  pose proof (Qfloor_le (x + (1 # 2))) as Hle.
  pose proof (Qlt_floor (x + (1 # 2))) as Hlt.
  rewrite inject_Z_plus in Hlt. change (inject_Z 1) with 1 in Hlt.
  split; [| exact Hle].
  apply Qplus_lt_l with (z := 1).
  eapply Qle_lt_trans; [| exact Hlt].
  apply Qle_lteq. right. ring.
Qed.

Lemma Math_round_proper (x y : Q) : x == y -> Math_round x = Math_round y.
Proof. intros H. unfold Math_round. by rewrite H. Qed.

Lemma round_tenth_spec (x : Q) : rounded_to_tenth x (OpenWeather.round_tenth x).
Proof.
  unfold rounded_to_tenth, OpenWeather.round_tenth.
  exists (Qfloor (x * 10 + (1 # 2))). split; [reflexivity |].
  apply Math_round_nearest.
Qed.

Lemma round_tenth_proper (x y : Q) :
  x == y -> OpenWeather.round_tenth x = OpenWeather.round_tenth y.
Proof.
  intros H. unfold OpenWeather.round_tenth.
  f_equal. apply Math_round_proper. by rewrite H.
Qed.

Lemma fold_xmin_finite (l : list Q) (a : Q) :
  exists m,
    fold_left (fun acc x => xmin acc (Finite x)) l (Finite a) = Finite m
    /\ In m (a :: l) /\ m <= a /\ Forall (fun y => m <= y) l.
Proof.
  revert a. induction l as [| x l IH]; intros a; simpl.
  - exists a. repeat split; [by left | apply Qle_refl | constructor].
  - destruct (Qle_bool a x) eqn:Hax.
    + apply Qle_bool_iff in Hax.
      destruct (IH a) as (m & Hm & Hin & Hle & Hall).
      exists m. repeat split; try assumption.
      * destruct Hin as [<- | Hin]; [by left | by right; right].
      * constructor; [by apply Qle_trans with a | assumption].
    + assert (Hxa : x <= a).
      { destruct (Qlt_le_dec x a) as [Hlt | Hle]; [by apply Qlt_le_weak |].
        apply Qle_bool_iff in Hle. congruence. }
      destruct (IH x) as (m & Hm & Hin & Hle & Hall).
      exists m. repeat split; try assumption.
      * by right.
      * by apply Qle_trans with x.
      * by constructor.
Qed.

Lemma fold_xmax_finite (l : list Q) (a : Q) :
  exists m,
    fold_left (fun acc x => xmax acc (Finite x)) l (Finite a) = Finite m
    /\ In m (a :: l) /\ a <= m /\ Forall (fun y => y <= m) l.
Proof.
  revert a. induction l as [| x l IH]; intros a; simpl.
  - exists a. repeat split; [by left | apply Qle_refl | constructor].
  - destruct (Qle_bool x a) eqn:Hxa.
    + apply Qle_bool_iff in Hxa.
      destruct (IH a) as (m & Hm & Hin & Hle & Hall).
      exists m. repeat split; try assumption.
      * destruct Hin as [<- | Hin]; [by left | by right; right].
      * constructor; [by apply Qle_trans with a | assumption].
    + assert (Hax : a <= x).
      { destruct (Qlt_le_dec a x) as [Hlt | Hle]; [by apply Qlt_le_weak |].
        apply Qle_bool_iff in Hle. congruence. }
      destruct (IH x) as (m & Hm & Hin & Hle & Hall).
      exists m. repeat split; try assumption.
      * by right.
      * by apply Qle_trans with x.
      * by constructor.
Qed.

(** [Math.min] of a non-empty argument list is its least element. *)
Lemma Math_min_spec (l : list Q) : l <> [] -> is_minimum (Math_min l) l.
Proof.
  destruct l as [| a l]; [congruence | intros _].
  unfold Math_min, is_minimum. simpl.
  destruct (fold_xmin_finite l a) as (m & Hm & Hin & Hle & Hall).
  exists m. repeat split; try assumption. by constructor.
Qed.

(** [Math.max] of a non-empty argument list is its greatest element. *)
Lemma Math_max_spec (l : list Q) : l <> [] -> is_maximum (Math_max l) l.
Proof.
  destruct l as [| a l]; [congruence | intros _].
  unfold Math_max, is_maximum. simpl.
  destruct (fold_xmax_finite l a) as (m & Hm & Hin & Hle & Hall).
  exists m. repeat split; try assumption. by constructor.
Qed.

Lemma Math_min_le_max (l : list Q) : l <> [] -> xle (Math_min l) (Math_max l).
Proof.
  intros Hl.
  destruct (Math_min_spec l Hl) as (lo & -> & Hlo_in & Hlo).
  destruct (Math_max_spec l Hl) as (hi & -> & Hhi_in & Hhi).
  simpl. rewrite List.Forall_forall in Hhi. by apply Hhi.
Qed.

(** Without arguments the two bounds are the wrong way round. *)
Example Math_min_max_empty :
  Math_min [] = PosInfinity /\ Math_max [] = NegInfinity
  /\ ~ xle (Math_min []) (Math_max []).
Proof. repeat split. simpl. tauto. Qed.

End NumberFacts.

Module DoubleFacts.
Import JsDouble Spec.
Local Open Scope float_scope.

(** The order of the doubles, from the specification of their comparison. *)

Lemma compare_cont_Eq (p q : positive) :
  PosDef.Pos.compare_cont Eq p q = Pos.compare p q.
Proof. reflexivity. Qed.

Ltac order_cases :=
  repeat first
    [ rewrite compare_cont_Eq in *
    | match goal with
      | |- context [(?a ?= ?b)%Z] => destruct (Z.compare_spec a b)
      | |- context [(?a ?= ?b)%positive] => destruct (Pos.compare_spec a b)
      | H : context [(?a ?= ?b)%Z] |- _ => destruct (Z.compare_spec a b)
      | H : context [(?a ?= ?b)%positive] |- _ => destruct (Pos.compare_spec a b)
      end ];
  simpl in *; subst; try discriminate; auto; try lia.

Lemma SFltb_negatively_transitive (a b c : spec_float) :
  b <> S754_nan -> SFltb a c = true -> SFltb a b = true \/ SFltb b c = true.
Proof.
  unfold SFltb, SFcompare.
  destruct a as [[|] | [|] | | [|] ma ea], b as [[|] | [|] | | [|] mb eb],
           c as [[|] | [|] | | [|] mc ec];
    intros Hb H; try congruence; try discriminate H; auto; order_cases.
Qed.

Lemma SFltb_asymmetric (a b : spec_float) : SFltb a b = true -> SFltb b a = false.
Proof.
  unfold SFltb, SFcompare.
  destruct a as [[|] | [|] | | [|] ma ea], b as [[|] | [|] | | [|] mb eb];
    intros H; try discriminate H; auto; order_cases.
Qed.

Lemma SFltb_least (a : spec_float) :
  a <> S754_nan -> SFltb (S754_infinity true) a = false -> a = S754_infinity true.
Proof.
  unfold SFltb, SFcompare.
  destruct a as [[|] | [|] | | [|] m e]; intros Hn H;
    first [reflexivity | discriminate H | congruence].
Qed.

Lemma is_nan_Prim2SF (x : float) : is_nan x = true <-> Prim2SF x = S754_nan.
Proof.
  unfold Prim2SF. destruct (is_nan x); [tauto |].
  split; [discriminate |].
  destruct (is_zero x); [discriminate |].
  destruct (is_infinity x); [discriminate |].
  destruct (Z.frexp x) as [r e].
  destruct (shr_fexp prec emax (Uint63Axioms.to_Z (normfr_mantissa r)) (e - prec) loc_Exact)
    as [shr e'].
  destruct (shr_m shr); discriminate.
Qed.

Lemma not_nan_Prim2SF (x : float) : is_nan x = false -> Prim2SF x <> S754_nan.
Proof. intros H E%is_nan_Prim2SF. congruence. Qed.

(** There is one NaN. *)
Lemma is_nan_eq (x : float) : is_nan x = true -> x = nan.
Proof. intros H%is_nan_Prim2SF. by rewrite <- (SF2Prim_Prim2SF x), H. Qed.

Lemma nan_below_nothing (y : float) : (nan <? y) = false.
Proof. by rewrite ltb_spec. Qed.

Lemma ltb_asymmetric (a b : float) : (a <? b) = true -> (b <? a) = false.
Proof. rewrite !ltb_spec. apply SFltb_asymmetric. Qed.

Lemma ltb_irreflexive (a : float) : (a <? a) = false.
Proof.
  destruct (a <? a) eqn:H; [| reflexivity].
  pose proof (ltb_asymmetric a a H). congruence.
Qed.

(** What is not above [h] is not above anything [h] is not below. *)
Lemma ltb_keeps_below (m h y : float) :
  is_nan h = false -> (m <? h) = false -> (h <? y) = false -> (m <? y) = false.
Proof.
  intros Hh Hmh Hhy. destruct (m <? y) eqn:Hmy; [| reflexivity].
  rewrite !ltb_spec in *.
  destruct (SFltb_negatively_transitive _ (Prim2SF h) _ (not_nan_Prim2SF h Hh) Hmy);
    congruence.
Qed.

Lemma higher_cases (h x : float) :
  (higher h x = h \/ higher h x = x)
  /\ (higher h x <? h) = false /\ (higher h x <? x) = false.
Proof.
  assert (Hzero : Prim2SF x = S754_zero false -> Prim2SF h = S754_zero true ->
                  (x <? h) = false).
  { intros Hx Hh. by rewrite ltb_spec, Hx, Hh. }
  assert (Hdefault :
            ((if h <? x then x else h) = h \/ (if h <? x then x else h) = x)
            /\ ((if h <? x then x else h) <? h) = false
            /\ ((if h <? x then x else h) <? x) = false).
  { destruct (h <? x) eqn:Hhx.
    - split; [by right |]. split; [by apply ltb_asymmetric | apply ltb_irreflexive].
    - split; [by left |]. split; [apply ltb_irreflexive | exact Hhx]. }
  unfold higher.
  destruct (Prim2SF x) as [[|] | | |] eqn:Hx; try exact Hdefault.
  destruct (Prim2SF h) as [[|] | | |] eqn:Hh; try exact Hdefault.
  split; [by right |]. split; [by apply Hzero | apply ltb_irreflexive].
Qed.

Lemma fold_higher (args : list float) (h : float) :
  is_nan h = false -> existsb is_nan args = false ->
  let m := fold_left higher args h in
  is_nan m = false
  /\ (m = h \/ In m args)
  /\ (m <? h) = false
  /\ Forall (fun y => (m <? y) = false) args.
Proof.
  revert h. induction args as [| x args IH]; intros h Hh Hnan; simpl.
  - repeat split; auto using ltb_irreflexive.
  - apply orb_false_elim in Hnan as [Hx Hnan].
    destruct (higher_cases h x) as (Hor & Hh' & Hx').
    assert (Hnan' : is_nan (higher h x) = false) by (by destruct Hor as [-> | ->]).
    destruct (IH (higher h x) Hnan' Hnan) as (Hm & Hin & Hbelow & Hall).
    split; [exact Hm |]. split; [| split].
    + destruct Hin as [-> | Hin]; [| by right; right].
      destruct Hor as [-> | ->]; [by left | by right; left].
    + by apply (ltb_keeps_below _ (higher h x)).
    + constructor; [| exact Hall]. by apply (ltb_keeps_below _ (higher h x)).
Qed.

(** [Math.max] of a non-empty argument list is one of the arguments, and
    none of them is greater. *)
Lemma Math_max_greatest (args : list float) :
  args <> [] -> is_greatest (Math_max args) args.
Proof.
  intros Hne. unfold Math_max, is_greatest.
  destruct (existsb is_nan args) eqn:Hnan.
  - apply existsb_exists in Hnan as (x & Hin & Hx).
    apply is_nan_eq in Hx as ->. split; [exact Hin |].
    apply List.Forall_forall. intros y _. apply nan_below_nothing.
  - destruct (fold_higher args neg_infinity eq_refl Hnan) as (_ & Hin & _ & Hall).
    split; [| exact Hall].
    destruct Hin as [Hm | Hin]; [| exact Hin].
    destruct args as [| x args]; [congruence |].
    rewrite Hm in *. inversion Hall as [| ? ? Hx _]; subst.
    apply orb_false_elim in Hnan as [Hxnan _].
    rewrite ltb_spec in Hx.
    pose proof (SFltb_least (Prim2SF x) (not_nan_Prim2SF x Hxnan) Hx) as Hsf.
    left. by rewrite <- (SF2Prim_Prim2SF x), Hsf.
Qed.

Example Math_round_values :
  map Math_round [2.5; -2.5; 0.5; -0.5; -0.2; 0.49999999999999994; 103.49999999999997;
                  61.5; 4503599627370495.5; infinity; nan]
  = [3; -2; 1; neg_zero; neg_zero; 0; 103; 62; 4503599627370496; infinity; nan].
Proof. vm_compute. reflexivity. Qed.

Example Math_max_values :
  Math_max [] = neg_infinity /\ Math_max [1; nan; 3] = nan
  /\ Math_max [neg_zero; 0] = 0 /\ Math_max [0; neg_zero] = 0
  /\ Math_max [3; 7; 2] = 7.
Proof. vm_compute. repeat split; reflexivity. Qed.

End DoubleFacts.

Module CurrentWeatherFacts.
Import Js JsNumber Types OpenWeather Spec.
Local Open Scope Q_scope.

Lemma truthy_scaled (g : Q) : truthy (g * (36 # 10)) = truthy g.
Proof.
  unfold truthy. f_equal.
  destruct (Qeq_bool g 0) eqn:Hg.
  - apply Qeq_bool_iff in Hg. apply Qeq_bool_iff. rewrite Hg. ring.
  - apply not_true_is_false. intros H%Qeq_bool_iff.
    apply Qmult_integral in H as [H | H]; [| discriminate H].
    apply Qeq_bool_iff in H. congruence.
Qed.

(** What [mapToCurrentWeather] makes of the wind: the speed times 3.6
    rounded to one decimal, and the same for a gust that is there and is
    not zero; a gust of zero is left out like a missing one. *)
Lemma mapToCurrentWeather_wind (rt : Runtime) (data : OpenWeatherCurrentResponse) :
  weather data <> [] ->
  (forall t, toISOString rt t <> None) ->
  exists cw,
    mapToCurrentWeather rt data = Normal cw
    /\ windSpeed cw = round_tenth (speed (wind data) * (36 # 10))
    /\ rounded_to_tenth (speed (wind data) * (36 # 10)) (windSpeed cw)
    /\ windGust cw =
       match gust (wind data) with
       | Some g => if Qeq_bool g 0 then None else Some (round_tenth (g * (36 # 10)))
       | None => None
       end.
Proof.
  intros Hw Hiso. unfold mapToCurrentWeather, formatTime.
  destruct (weather data) as [| w0 ws]; [congruence |].
  destruct (toISOString rt (dt data * 1000)) as [t1 |] eqn:H1; [| by apply Hiso in H1].
  destruct (toISOString rt (sys_sunrise (sys data) * 1000)) as [t2 |] eqn:H2;
    [| by apply Hiso in H2].
  destruct (toISOString rt (sys_sunset (sys data) * 1000)) as [t3 |] eqn:H3;
    [| by apply Hiso in H3].
  eexists. split; [reflexivity |]. simpl. repeat split.
  - apply NumberFacts.round_tenth_spec.
  - destruct (gust (wind data)) as [g |]; [| reflexivity].
    unfold truthy at 1. destruct (Qeq_bool g 0) eqn:Hg; simpl; [reflexivity |].
    rewrite truthy_scaled. unfold truthy. by rewrite Hg.
Qed.

(** 5 m/s is reported as 18 km/h, and a gust of 10 m/s as 36 km/h. *)
Example five_metres_per_second :
  exists cw,
    mapToCurrentWeather Scenarios.fixed_runtime (Scenarios.london (Some 10)) = Normal cw
    /\ windSpeed cw == 18 /\ windGust cw = Some (360 # 10).
Proof. eexists. split; [reflexivity |]. split; reflexivity. Qed.

(** C6 at its failing input.  The upstream body carries [wind.gust = 0]:
    the wind speed of 5 m/s is normalized to 18 km/h as the claim says, but
    the gust, which is in the body and whose conversion is 0 km/h, is left
    out of the result. *)
Theorem zero_gust_left_out :
  gust (wind (Scenarios.london (Some 0))) = Some 0
  /\ round_tenth (0 * (36 # 10)) == 0
  /\ exists cw,
       mapToCurrentWeather Scenarios.fixed_runtime (Scenarios.london (Some 0)) = Normal cw
       /\ windSpeed cw == 18
       /\ windGust cw = None.
Proof.
  split; [reflexivity |]. split; [reflexivity |].
  eexists. split; [reflexivity |]. split; reflexivity.
Qed.

End CurrentWeatherFacts.

Module JsMapFacts.
Import JsMap.
Local Open Scope list_scope.

Lemma get_set {V : Type} (m : t V) (k : string) (v : V) (d : string) :
  get (set m k v) d = if String.eqb k d then Some v else get m d.
Proof.
  induction m as [| [k' v'] rest IH]; simpl.
  - reflexivity.
  - destruct (String.eqb_spec k' k) as [-> | Hne]; simpl.
    + by destruct (String.eqb k d).
    + rewrite IH. destruct (String.eqb_spec k' d) as [-> | Hne'].
      * destruct (String.eqb_spec k d) as [-> | _]; [congruence | reflexivity].
      * reflexivity.
Qed.

Lemma has_keys {V : Type} (m : t V) (k : string) :
  has m k = true <-> In k (keys m).
Proof.
  unfold has. induction m as [| [k' v'] rest IH]; simpl.
  - split; [discriminate | tauto].
  - destruct (String.eqb_spec k' k) as [-> | Hne].
    + split; [by left | reflexivity].
    + rewrite IH. split; [by right | intros [? | ?]; [congruence | assumption]].
Qed.

Lemma keys_set {V : Type} (m : t V) (k : string) (v : V) :
  keys (set m k v) = if has m k then keys m else keys m ++ [k].
Proof.
  unfold has. induction m as [| [k' v'] rest IH]; simpl.
  - reflexivity.
  - destruct (String.eqb k' k); simpl; [reflexivity |].
    rewrite IH. by destruct (get rest k).
Qed.

Lemma NoDup_keys_set {V : Type} (m : t V) (k : string) (v : V) :
  List.NoDup (keys m) -> List.NoDup (keys (set m k v)).
Proof.
  intros Hnd. rewrite keys_set.
  destruct (has m k) eqn:Hk; [assumption |].
  apply NoDup_app_remove_l with (l := []). simpl.
  assert (Hnot : ~ In k (keys m)).
  { intros Hin%has_keys. congruence. }
  clear Hk. induction (keys m) as [| x l IH]; simpl.
  - constructor; [tauto | constructor].
  - inversion Hnd as [| ? ? Hx Hl]; subst. constructor.
    + rewrite in_app_iff. simpl. intros [? | [? | []]]; [tauto |].
      subst. apply Hnot. by left.
    + apply IH; [assumption |]. intros ?. apply Hnot. by right.
Qed.

Lemma In_get {V : Type} (m : t V) (d : string) (v : V) :
  List.NoDup (keys m) -> In (d, v) m -> get m d = Some v.
Proof.
  induction m as [| [k' v'] rest IH]; simpl; [tauto |].
  intros Hnd [Heq | Hin]; inversion Hnd as [| ? ? Hk Hrest]; subst.
  - injection Heq as -> ->. by rewrite String.eqb_refl.
  - destruct (String.eqb_spec k' d) as [-> | _]; [| by apply IH].
    exfalso. apply Hk. change d with (fst (d, v)). by apply in_map.
Qed.

End JsMapFacts.

Module GroupingFacts.
Import JsMap JsMapFacts Spec.
Local Open Scope list_scope.

Section Grouping.
Context {A D : Type} (date_of : A -> string) (empty : D) (add : D -> A -> D).

#[local] Abbreviation on_day := (on_day date_of).
#[local] Abbreviation group_step := (group_step date_of empty add).
#[local] Abbreviation summary := (summary empty add).
#[local] Abbreviation grouped := (grouped date_of empty add).

Lemma on_day_snoc (day : string) (seen : list A) (item : A) :
  on_day day (seen ++ [item]) =
  if String.eqb (date_of item) day then on_day day seen ++ [item] else on_day day seen.
Proof.
  unfold Spec.on_day. rewrite List.filter_app. simpl.
  destruct (String.eqb (date_of item) day); [reflexivity | apply app_nil_r].
Qed.

Lemma summary_snoc (samples : list A) (item : A) :
  summary (samples ++ [item]) = add (summary samples) item.
Proof. unfold Spec.summary. by rewrite fold_left_app. Qed.

Lemma grouped_nil : grouped [] [].
Proof. split; [constructor | reflexivity]. Qed.

Lemma group_step_grouped (byDate : t D) (seen : list A) (item : A) :
  grouped byDate seen -> grouped (group_step byDate item) (seen ++ [item]).
Proof.
  intros [Hnd Hget]. unfold Spec.group_step.
  set (date := date_of item).
  set (m1 := if negb (has byDate date) then set byDate date empty else byDate).
  assert (Hnd1 : List.NoDup (keys m1)).
  { subst m1. destruct (negb (has byDate date)); [by apply NoDup_keys_set | assumption]. }
  assert (Hday : get m1 date = Some (summary (on_day date seen))).
  { subst m1. unfold has. specialize (Hget date).
    destruct (get byDate date) as [v |] eqn:Hv; simpl.
    - rewrite Hv. destruct (on_day date seen); [discriminate | exact Hget].
    - rewrite get_set, String.eqb_refl.
      destruct (on_day date seen); [reflexivity | discriminate]. }
  assert (Hother : forall d, d <> date -> get m1 d = get byDate d).
  { intros d Hd. subst m1. destruct (negb (has byDate date)); [| reflexivity].
    rewrite get_set. destruct (String.eqb_spec date d); [congruence | reflexivity]. }
  rewrite Hday. split.
  - by apply NoDup_keys_set.
  - intros day. rewrite get_set, on_day_snoc. fold date.
    destruct (String.eqb_spec date day) as [<- | Hne].
    + rewrite <- summary_snoc. by destruct (on_day date seen).
    + rewrite Hother by congruence. apply Hget.
Qed.

Lemma fold_group_step_grouped (items : list A) (byDate : t D) (seen : list A) :
  grouped byDate seen ->
  grouped (fold_left group_step items byDate) (seen ++ items).
Proof.
  revert byDate seen. induction items as [| item items IH]; intros byDate seen H; simpl.
  - by rewrite app_nil_r.
  - replace (seen ++ item :: items) with ((seen ++ [item]) ++ items)
      by (by rewrite <- app_assoc).
    apply IH. by apply group_step_grouped.
Qed.

(** Every entry of a grouped map is the aggregate of the non-empty list of
    that day's samples. *)
Lemma grouped_entry (byDate : t D) (seen : list A) (day : string) (data : D) :
  grouped byDate seen -> In (day, data) byDate ->
  on_day day seen <> [] /\ data = summary (on_day day seen).
Proof.
  intros [Hnd Hget] Hin. apply (In_get _ _ _ Hnd) in Hin.
  rewrite Hget in Hin. destruct (on_day day seen); [discriminate |].
  split; congruence.
Qed.

End Grouping.

End GroupingFacts.

Module ForecastFacts.
Import Js JsNumber Types OpenWeather Spec.
Local Open Scope list_scope.

Lemma In_firstn {A : Type} (n : nat) (l : list A) (x : A) :
  In x (firstn n l) -> In x l.
Proof.
  intros H. rewrite <- (firstn_skipn n l). apply in_or_app. by left.
Qed.

Lemma NoDup_firstn {A : Type} (n : nat) (l : list A) :
  List.NoDup l -> List.NoDup (firstn n l).
Proof.
  intros H. rewrite <- (firstn_skipn n l) in H.
  by apply NoDup_app_remove_r in H.
Qed.

(** After the [has] / [set] at the head of the loop body the date has an
    aggregate. *)
Lemma get_after_init {V : Type} (m : JsMap.t V) (d : string) (e : V) :
  exists v,
    JsMap.get (if negb (JsMap.has m d) then JsMap.set m d e else m) d = Some v.
Proof.
  unfold JsMap.has. destruct (JsMap.get m d) as [v |] eqn:Hv; simpl.
  - by exists v.
  - exists e. by rewrite JsMapFacts.get_set, String.eqb_refl.
Qed.

Lemma collect_item_group_step (byDate : JsMap.t DayAggregate) (item : ForecastItem) :
  fc_weather item <> [] ->
  collect_item byDate item =
  Normal (group_step item_date empty_aggregate add_sample byDate item).
Proof.
  intros Hw. unfold collect_item, group_step, item_date.
  destruct (get_after_init byDate (JsString.before_space (dt_txt item)) empty_aggregate)
    as [day ->].
  destruct (fc_weather item) as [| d0 ds] eqn:Hd; [congruence |].
  unfold add_sample, push. by rewrite Hd.
Qed.

Lemma collect_item_undescribed (byDate : JsMap.t DayAggregate) (item : ForecastItem) :
  fc_weather item = [] ->
  collect_item byDate item = Throw (TypeError_undefined "description").
Proof.
  intros Hw. unfold collect_item.
  destruct (get_after_init byDate (JsString.before_space (dt_txt item)) empty_aggregate)
    as [day ->].
  by rewrite Hw.
Qed.

Lemma for_of_collect (items : list ForecastItem) (byDate : JsMap.t DayAggregate) :
  described items ->
  for_of collect_item items byDate =
  Normal (fold_left (group_step item_date empty_aggregate add_sample) items byDate).
Proof.
  revert byDate. induction items as [| item items IH]; intros byDate H; simpl.
  - reflexivity.
  - inversion H as [| ? ? Hitem Hrest]; subst.
    rewrite collect_item_group_step by assumption. by apply IH.
Qed.

(** A sample without a weather entry makes the whole aggregation throw. *)
Lemma aggregateForecast_undescribed (items : list ForecastItem) (days : Z) :
  ~ described items -> is_Normal (aggregateForecast items days) = false.
Proof.
  unfold aggregateForecast. generalize (@nil (string * DayAggregate)).
  induction items as [| item items IH]; intros byDate H; simpl.
  - exfalso. apply H. constructor.
  - destruct (fc_weather item) as [| d0 ds] eqn:Hd.
    + by rewrite collect_item_undescribed.
    + rewrite collect_item_group_step by congruence.
      apply IH. intros Hrest. apply H. constructor; [congruence | exact Hrest].
Qed.

Lemma aggregate_of_snoc (samples : list ForecastItem) (item : ForecastItem) :
  aggregate_of (samples ++ [item]) = add_sample (aggregate_of samples) item.
Proof. unfold aggregate_of, add_sample. simpl. by rewrite !map_app. Qed.

Lemma summary_aggregate_of (samples : list ForecastItem) :
  summary empty_aggregate add_sample samples = aggregate_of samples.
Proof.
  induction samples as [| item samples IH] using rev_ind.
  - reflexivity.
  - by rewrite GroupingFacts.summary_snoc, IH, aggregate_of_snoc.
Qed.

Lemma emit_days_firstn (entries : JsMap.t DayAggregate) (days : Z)
    (result : list ForecastDay) :
  emit_days entries days result =
  result ++ map (fun '(date, data) => day_entry date data)
              (firstn (Z.to_nat (days - Z.of_nat (length result))) entries).
Proof.
  revert result. induction entries as [| [date data] rest IH]; intros result; simpl.
  - by rewrite firstn_nil, app_nil_r.
  - destruct (Z.geb_spec (Z.of_nat (length result)) days) as [Hge | Hlt].
    + replace (Z.to_nat (days - Z.of_nat (length result))) with 0%nat by lia.
      by rewrite app_nil_r.
    + rewrite IH. unfold push. rewrite length_app. simpl.
      replace (Z.to_nat (days - Z.of_nat (length result)))
        with (S (Z.to_nat (days - Z.of_nat (length result + 1)))) by lia.
      simpl. by rewrite <- app_assoc.
Qed.

(** The aggregation in closed form: group, keep the first [days] days. *)
Lemma aggregateForecast_closed_form (items : list ForecastItem) (days : Z) :
  described items ->
  exists byDate,
    grouped item_date empty_aggregate add_sample byDate items
    /\ aggregateForecast items days =
       Normal (map (fun '(date, data) => day_entry date data)
                 (firstn (Z.to_nat days) byDate)).
Proof.
  intros H. unfold aggregateForecast. rewrite for_of_collect by assumption.
  eexists. split.
  - apply (GroupingFacts.fold_group_step_grouped item_date empty_aggregate add_sample
             items [] []).
    apply GroupingFacts.grouped_nil.
  - rewrite emit_days_firstn. simpl. by rewrite Z.sub_0_r.
Qed.

(** Every day of the output is the entry of the aggregate of its samples,
    of which there is at least one. *)
Lemma aggregateForecast_day (items : list ForecastItem) (days : Z)
    (result : list ForecastDay) (fd : ForecastDay) :
  described items ->
  aggregateForecast items days = Normal result -> In fd result ->
  on_day item_date (date fd) items <> []
  /\ fd = day_entry (date fd) (aggregate_of (on_day item_date (date fd) items)).
Proof.
  intros H Hagg Hin.
  destruct (aggregateForecast_closed_form items days H) as (byDate & Hg & Heq).
  rewrite Heq in Hagg. injection Hagg as <-.
  apply in_map_iff in Hin as ([d data] & <- & Hin).
  apply In_firstn in Hin.
  destruct (GroupingFacts.grouped_entry _ _ _ _ _ _ _ Hg Hin) as [Hne ->].
  simpl. split; [exact Hne |]. by rewrite summary_aggregate_of.
Qed.

(** The two helpers of the aggregation, in the words of the properties. *)
Lemma avg_mean (arr : list float) : arr <> [] -> avg arr = one_decimal (mean arr).
Proof. destruct arr; [congruence | reflexivity]. Qed.

Lemma sum_total (arr : list float) : sum arr = one_decimal (total arr).
Proof. reflexivity. Qed.

Lemma averaged_avg (values : list float) :
  values <> [] -> averaged values (Some (avg values)).
Proof. intros H. unfold averaged. by rewrite avg_mean. Qed.

Lemma optional_total_sum (amounts : list float) :
  optional_total amounts (if JsDouble.gt (sum amounts) 0 then Some (sum amounts) else None).
Proof. reflexivity. Qed.

Lemma highest_percentage_pop (samples : list ForecastItem) :
  samples <> [] ->
  highest_percentage (map fc_pop samples)
    (Some (JsDouble.Math_round
             (JsDouble.Math_max (map (fun it => (fc_pop it * 100)%float) samples)))).
Proof.
  intros Hne. eexists. split; [| reflexivity].
  rewrite map_map. apply DoubleFacts.Math_max_greatest. by destruct samples.
Qed.

End ForecastFacts.

Module ForecastV1Facts.
Import Js JsNumber Spec.
Import OpenWeatherV1.
Local Open Scope list_scope.

Lemma collect_item_group_step_v1 (byDate : JsMap.t DayAggregate) (item : ForecastItem) :
  weather item <> [] ->
  collect_item byDate item =
  Normal (group_step item_date_v1 (mkDayAggregate [] []) add_sample_v1 byDate item).
Proof.
  intros Hw. unfold collect_item, group_step, item_date_v1.
  destruct (ForecastFacts.get_after_init byDate (JsString.before_space (dt_txt item))
              (mkDayAggregate [] [])) as [day ->].
  destruct (weather item) as [| d0 ds] eqn:Hd; [congruence |].
  unfold add_sample_v1, OpenWeather.push. by rewrite Hd.
Qed.

Lemma for_of_collect_v1 (items : list ForecastItem) (byDate : JsMap.t DayAggregate) :
  described_v1 items ->
  OpenWeather.for_of collect_item items byDate =
  Normal (fold_left (group_step item_date_v1 (mkDayAggregate [] []) add_sample_v1)
            items byDate).
Proof.
  revert byDate. induction items as [| item items IH]; intros byDate H; simpl.
  - reflexivity.
  - inversion H as [| ? ? Hitem Hrest]; subst.
    rewrite collect_item_group_step_v1 by assumption. by apply IH.
Qed.

Lemma summary_aggregate_of_v1 (samples : list ForecastItem) :
  summary (mkDayAggregate [] []) add_sample_v1 samples = aggregate_of_v1 samples.
Proof.
  induction samples as [| item samples IH] using rev_ind.
  - reflexivity.
  - rewrite GroupingFacts.summary_snoc, IH.
    unfold aggregate_of_v1, add_sample_v1. simpl. by rewrite !map_app.
Qed.

Lemma emit_days_firstn_v1 (entries : JsMap.t DayAggregate) (days : Z)
    (result : list ForecastDay) :
  emit_days entries days result =
  result ++ map (fun '(date, data) => day_entry date data)
              (firstn (Z.to_nat (days - Z.of_nat (length result))) entries).
Proof.
  revert result. induction entries as [| [date data] rest IH]; intros result; simpl.
  - by rewrite firstn_nil, app_nil_r.
  - destruct (Z.geb_spec (Z.of_nat (length result)) days) as [Hge | Hlt].
    + replace (Z.to_nat (days - Z.of_nat (length result))) with 0%nat by lia.
      by rewrite app_nil_r.
    + rewrite IH. unfold OpenWeather.push. rewrite length_app. simpl.
      replace (Z.to_nat (days - Z.of_nat (length result)))
        with (S (Z.to_nat (days - Z.of_nat (length result + 1)))) by lia.
      simpl. by rewrite <- app_assoc.
Qed.

Lemma aggregateForecast_closed_form_v1 (items : list ForecastItem) (days : Z) :
  described_v1 items ->
  exists byDate,
    grouped item_date_v1 (mkDayAggregate [] []) add_sample_v1 byDate items
    /\ aggregateForecast items days =
       Normal (map (fun '(date, data) => day_entry date data)
                 (firstn (Z.to_nat days) byDate)).
Proof.
  intros H. unfold aggregateForecast. rewrite for_of_collect_v1 by assumption.
  eexists. split.
  - apply (GroupingFacts.fold_group_step_grouped item_date_v1 (mkDayAggregate [] [])
             add_sample_v1 items [] []).
    apply GroupingFacts.grouped_nil.
  - rewrite emit_days_firstn_v1. simpl. by rewrite Z.sub_0_r.
Qed.

End ForecastV1Facts.

Module ForecastBounds.
Import Js JsNumber Spec.
Local Open Scope list_scope.

(** C10. For every list of samples that all carry a weather entry and every
    day count (an integer that is not negative), the aggregation returns at
    most that many days, the dates of the days it returns are pairwise
    distinct, and every day has [minTemp <= maxTemp], being built from at
    least one sample.  This holds for the aggregation of both revisions of
    the provider. *)
Theorem forecast_days_bounded_distinct_ordered
    (items : list OpenWeather.ForecastItem) (items_v1 : list OpenWeatherV1.ForecastItem)
    (days : Z) :
  (0 <= days)%Z ->
  (described items ->
   exists result,
     OpenWeather.aggregateForecast items days = Normal result
     /\ (Z.of_nat (length result) <= days)%Z
     /\ List.NoDup (map Types.date result)
     /\ Forall (fun fd => on_day item_date (Types.date fd) items <> []
                          /\ xle (Types.minTemp fd) (Types.maxTemp fd)) result)
  /\ (described_v1 items_v1 ->
      exists result,
        OpenWeatherV1.aggregateForecast items_v1 days = Normal result
        /\ (Z.of_nat (length result) <= days)%Z
        /\ List.NoDup (map OpenWeatherV1.date result)
        /\ Forall (fun fd => on_day item_date_v1 (OpenWeatherV1.date fd) items_v1 <> []
                             /\ xle (OpenWeatherV1.minTemp fd) (OpenWeatherV1.maxTemp fd))
             result).
Proof.
  intros Hdays. split; intros H.
  - destruct (ForecastFacts.aggregateForecast_closed_form items days H)
      as (byDate & Hg & Heq).
    eexists. split; [exact Heq |]. split; [| split].
    + rewrite length_map. pose proof (firstn_le_length (Z.to_nat days) byDate). lia.
    + rewrite map_map.
      rewrite (map_ext _ fst) by (by intros [d data]).
      rewrite <- firstn_map. apply ForecastFacts.NoDup_firstn. apply Hg.
    + apply List.Forall_forall. intros fd ([d data] & <- & Hin)%in_map_iff.
      apply ForecastFacts.In_firstn in Hin.
      destruct (GroupingFacts.grouped_entry _ _ _ _ _ _ _ Hg Hin) as [Hne ->].
      simpl. split; [exact Hne |].
      rewrite ForecastFacts.summary_aggregate_of. simpl.
      apply NumberFacts.Math_min_le_max.
      by destruct (on_day item_date d items).
  - destruct (ForecastV1Facts.aggregateForecast_closed_form_v1 items_v1 days H)
      as (byDate & Hg & Heq).
    eexists. split; [exact Heq |]. split; [| split].
    + rewrite length_map. pose proof (firstn_le_length (Z.to_nat days) byDate). lia.
    + rewrite map_map.
      rewrite (map_ext _ fst) by (by intros [d data]).
      rewrite <- firstn_map. apply ForecastFacts.NoDup_firstn. apply Hg.
    + apply List.Forall_forall. intros fd ([d data] & <- & Hin)%in_map_iff.
      apply ForecastFacts.In_firstn in Hin.
      destruct (GroupingFacts.grouped_entry _ _ _ _ _ _ _ Hg Hin) as [Hne ->].
      simpl. split; [exact Hne |].
      rewrite ForecastV1Facts.summary_aggregate_of_v1. simpl.
      apply NumberFacts.Math_min_le_max.
      by destruct (on_day item_date_v1 d items_v1).
Qed.

(** Two days of samples, one day asked for: one day comes back. *)
Lemma forecast_days_bounded_two_days :
  (0 <= 1)%Z
  /\ described Scenarios.two_days
  /\ described_v1 Scenarios.two_days_v1
  /\ (exists result,
        OpenWeather.aggregateForecast Scenarios.two_days 1 = Normal result
        /\ (Z.of_nat (length result) <= 1)%Z
        /\ List.NoDup (map Types.date result))
  /\ (exists result,
        OpenWeatherV1.aggregateForecast Scenarios.two_days_v1 1 = Normal result
        /\ (Z.of_nat (length result) <= 1)%Z
        /\ List.NoDup (map OpenWeatherV1.date result)).
Proof.
  assert (Hdays : (0 <= 1)%Z) by lia.
  assert (Hdesc : described Scenarios.two_days)
    by (repeat constructor; discriminate).
  assert (Hdesc1 : described_v1 Scenarios.two_days_v1)
    by (repeat constructor; discriminate).
  destruct (forecast_days_bounded_distinct_ordered
              Scenarios.two_days Scenarios.two_days_v1 1 Hdays) as [H2 H1].
  destruct (H2 Hdesc) as (r2 & Hr2 & Hlen2 & Hnd2 & _).
  destruct (H1 Hdesc1) as (r1 & Hr1 & Hlen1 & Hnd1 & _).
  repeat split; try assumption.
  - exists r2. repeat split; assumption.
  - exists r1. repeat split; assumption.
Defined.

Example forecast_days_values :
  (exists d1, OpenWeather.aggregateForecast Scenarios.two_days 1 = Normal [d1]
              /\ Types.date d1 = "2024-01-15"%string)
  /\ (exists d1 d2, OpenWeather.aggregateForecast Scenarios.two_days 7 = Normal [d1; d2])
  /\ OpenWeather.aggregateForecast Scenarios.two_days 0 = Normal []
  /\ OpenWeather.aggregateForecast Scenarios.two_days (-1) = Normal []
  /\ (exists d1, OpenWeatherV1.aggregateForecast Scenarios.two_days_v1 1 = Normal [d1]
                 /\ OpenWeatherV1.minTemp d1 = Finite 8
                 /\ OpenWeatherV1.maxTemp d1 = Finite 15).
Proof.
  repeat split.
  - eexists. vm_compute. split; reflexivity.
  - do 2 eexists. vm_compute. reflexivity.
  - eexists. vm_compute. repeat split; reflexivity.
Qed.

End ForecastBounds.

(* ===================================================================== *)
(** * Further properties *)
(* ===================================================================== *)

Module CacheMore.
Import Cache.

(** What a lookup returns depends on the key's entry alone. *)
Lemma fst_get {T : Type} (now : Z) (key : string) (c : t T) :
  fst (get now key c) =
  match store c !! key with
  | Some e => if (now >? expiresAt e)%Z then None else Some (value e)
  | None => None
  end.
Proof.
  unfold get. destruct (store c !! key) as [e |]; [| reflexivity].
  by destruct (now >? expiresAt e)%Z.
Qed.

(** X1. A value that was stored is what a lookup of the same key returns,
    as long as the lookup comes no later than the store time plus the
    category's lifetime (the last millisecond included); whatever the key
    held before is overwritten, and the lookup changes nothing. *)
Theorem set_then_get {T : Type} (now later : Z) (key : string) (v : T)
    (type : CacheKeyType) (c : t T) :
  (later <= now + ttl c type)%Z ->
  get later key (set now key v type c) = (Some v, set now key v type c).
Proof.
  intros Hle. unfold get, set. simpl. rewrite lookup_insert_eq. simpl.
  destruct (Z.gtb_spec later (now + ttl c type)); [lia | reflexivity].
Qed.

Lemma set_then_get_last_millisecond :
  (300000 <= 0 + ttl (new None : t Z) current)%Z
  /\ fst (get 300000 "k" (set 0 "k" 2%Z current (set 0 "k" 1%Z current (new None))))
     = Some 2%Z.
Proof.
  split; [vm_compute; discriminate |].
  rewrite (set_then_get 0 300000 "k" 2%Z current
             (set 0 "k" 1%Z current (new None))); [reflexivity |].
  vm_compute. discriminate.
Defined.

(** X2. Once the lifetime has passed, a lookup of a stored key returns
    [undefined] and removes the entry: the store is what it was before the
    value was stored, without that key. *)
Theorem set_then_get_expired {T : Type} (now later : Z) (key : string) (v : T)
    (type : CacheKeyType) (c : t T) :
  (now + ttl c type < later)%Z ->
  fst (get later key (set now key v type c)) = None
  /\ store (snd (get later key (set now key v type c))) = delete key (store c)
  /\ (size (snd (get later key (set now key v type c))) <= size c)%nat.
Proof.
  intros Hlt. unfold get, set, size. simpl. rewrite lookup_insert_eq. simpl.
  destruct (Z.gtb_spec later (now + ttl c type)); [| lia]. simpl.
  rewrite delete_insert_eq. repeat split.
  destruct (store c !! key) as [e |] eqn:He.
  - rewrite map_size_delete_Some by eauto. lia.
  - by rewrite delete_id.
Qed.

Lemma set_then_get_expired_after_five_minutes :
  (0 + ttl (new None : t Z) current < 300001)%Z
  /\ fst (get 300001 "k" (set 0 "k" 1%Z current (new None))) = None.
Proof.
  split; [vm_compute; reflexivity |].
  apply (set_then_get_expired 0 300001 "k" 1%Z current (new None)).
  vm_compute. reflexivity.
Defined.

(** X3. Storing under one key and looking one key up leave every other key
    alone: another key keeps its entry, and a lookup of it gives what it
    would have given. *)
Theorem other_keys_untouched {T : Type} (now later : Z) (key other : string) (v : T)
    (type : CacheKeyType) (c : t T) :
  other <> key ->
  store (set now key v type c) !! other = store c !! other
  /\ store (snd (get later key c)) !! other = store c !! other
  /\ fst (get later other (set now key v type c)) = fst (get later other c)
  /\ fst (get later other (snd (get later key c))) = fst (get later other c).
Proof.
  intros Hne.
  assert (H1 : store (set now key v type c) !! other = store c !! other).
  { unfold set. simpl. by apply lookup_insert_ne. }
  assert (H2 : store (snd (get later key c)) !! other = store c !! other).
  { unfold get. destruct (store c !! key) as [e |]; [| reflexivity].
    destruct (later >? expiresAt e)%Z; [| reflexivity].
    simpl. by apply lookup_delete_ne. }
  repeat split; try assumption.
  - by rewrite !fst_get, H1.
  - by rewrite !fst_get, H2.
Qed.

Lemma other_keys_untouched_paris :
  "paris" <> "london"
  /\ fst (get 10 "paris" (set 5 "london" 2%Z current (set 0 "paris" 1%Z current (new None))))
     = Some 1%Z.
Proof.
  assert (Hne : "paris" <> "london") by discriminate.
  split; [exact Hne |].
  destruct (other_keys_untouched 5 10 "london" "paris" 2%Z current
              (set 0 "paris" 1%Z current (new None)) Hne) as (_ & _ & H & _).
  rewrite H. reflexivity.
Defined.

(** X4. A lookup that is repeated at once gives the same answer and changes
    nothing more; and a key that a lookup found absent or expired stays
    absent at every later time, until something is stored under it. *)
Theorem get_settles {T : Type} (now later : Z) (key : string) (c : t T) :
  get now key (snd (get now key c)) = get now key c
  /\ ((now <= later)%Z -> fst (get now key c) = None ->
      get later key (snd (get now key c)) = (None, snd (get now key c))).
Proof.
  unfold get. destruct (store c !! key) as [e |] eqn:He.
  - destruct (Z.gtb_spec now (expiresAt e)) as [Hgt | Hle]; simpl.
    + rewrite lookup_delete_eq. split; [reflexivity | intros; reflexivity].
    + rewrite He. destruct (Z.gtb_spec now (expiresAt e)); [lia |].
      split; [reflexivity | discriminate].
  - simpl. rewrite He. split; [reflexivity | intros; reflexivity].
Qed.

(** X5. [size] counts stored keys, expired or not: storing under a new key
    adds one, storing under a key already there adds none, and a lookup
    never adds any. *)
Theorem size_counts_keys {T : Type} (now : Z) (key : string) (v : T)
    (type : CacheKeyType) (c : t T) :
  size (set now key v type c)
  = (if bool_decide (is_Some (store c !! key)) then size c else S (size c))
  /\ (size (snd (get now key c)) <= size c)%nat
  /\ size (clear c) = 0%nat.
Proof.
  unfold size, set, get, clear. simpl. repeat split.
  - case_bool_decide as Hk.
    + by rewrite map_size_insert_Some.
    + rewrite map_size_insert_None; [reflexivity |].
      by apply eq_None_not_Some.
  - destruct (store c !! key) as [e |] eqn:He; [| simpl; lia].
    destruct (now >? expiresAt e)%Z; simpl; [| lia].
    rewrite map_size_delete_Some by eauto. lia.
Qed.

(** X6. Keys of different categories never coincide for one provider, and
    the orchestrator's keys of different providers or categories never
    coincide either, whatever the location and the discriminator. *)
Theorem createKey_separates_categories (p : string) (a b : Types.ProviderType)
    (m m' : CacheKeyType) (l l' : string) (o o' : option string) :
  (createKey p m l o = createKey p m' l' o' -> m = m')
  /\ (createKey (Types.ProviderType_text a) m l o
      = createKey (Types.ProviderType_text b) m' l' o' -> a = b /\ m = m').
Proof.
  assert (Hshape : forall q k loc opt,
            exists rest, createKey q k loc opt
                         = q +:+ ":" +:+ CacheKeyType_text k +:+ ":" +:+ rest).
  { intros q k loc opt. unfold createKey.
    destruct opt as [x |]; [destruct (JsString.truthy x) |]; simpl; eauto. }
  assert (Hcancel : forall q x y : string, q +:+ x = q +:+ y -> x = y).
  { induction q as [| ch q IH]; simpl; intros x y H; [exact H |].
    injection H as H. by apply IH. }
  split.
  - destruct (Hshape p m l o) as [r ->], (Hshape p m' l' o') as [r' ->].
    intros H%Hcancel. destruct m, m'; simpl in H; try reflexivity; discriminate H.
  - destruct (Hshape (Types.ProviderType_text a) m l o) as [r ->],
      (Hshape (Types.ProviderType_text b) m' l' o') as [r' ->].
    intros H. destruct a, b, m, m'; simpl in H; try (split; reflexivity);
      discriminate H.
Qed.

End CacheMore.


Module WrapErrorFacts.
Import Js Errors LotusWeather More.

Lemma wrapError_proto (e : Thrown) (context : string) :
  proto (wrapError e context) = WeatherError_proto.
Proof.
  destruct e as [o |]; [| reflexivity]. unfold wrapError.
  destruct (proto o) eqn:Ho; [reflexivity | | exact Ho].
  repeat case_match; simplify_eq; reflexivity.
Qed.

(** X8. Whatever was thrown, [wrapError] yields a [WeatherError]; a
    [WeatherError] passes through untouched, so wrapping twice is wrapping
    once, whatever the contexts. *)
Theorem wrapError_once (e : Thrown) (context context' : string) :
  proto (wrapError e context) = WeatherError_proto
  /\ wrapError (ThrownObject (wrapError e context)) context' = wrapError e context
  /\ (forall o, proto o = WeatherError_proto -> wrapError (ThrownObject o) context = o).
Proof.
  split; [apply wrapError_proto |]. split.
  - unfold wrapError at 1. by rewrite wrapError_proto.
  - intros o Ho. unfold wrapError. by rewrite Ho.
Qed.

(** X9. The original failure is kept as the [cause] of the error made for
    it: every [Error] that is not already a [WeatherError] becomes the cause
    of its wrapping.  A thrown value that is not an [Error] is reported as
    ["<context>: Unknown error occurred"], without a cause. *)
Theorem wrapError_cause (context : string) :
  (forall o, proto o = Error_proto -> cause (wrapError (ThrownObject o) context) = Some o)
  /\ (forall e,
        (e = ThrownPrimitive \/ exists o, e = ThrownObject o /\ proto o = Object_proto) ->
        message (wrapError e context) = context +:+ ": Unknown error occurred"
        /\ cause (wrapError e context) = None).
Proof.
  split.
  - intros o Ho. unfold wrapError. rewrite Ho.
    repeat case_match; simplify_eq; reflexivity.
  - intros e [-> | (o & -> & Ho)]; unfold wrapError; [| rewrite Ho]; split; reflexivity.
Qed.

End WrapErrorFacts.

Module MessageFacts.
Import Js Errors LotusWeather.

Lemma startsWith_app (p b : string) : JsString.startsWith p (p +:+ b) = true.
Proof.
  induction p as [| c p IH]; [reflexivity |].
  change (String c p +:+ b) with (String c (p +:+ b)). simpl.
  by rewrite Ascii.eqb_refl.
Qed.

Lemma includes_here (p s : string) :
  JsString.startsWith p s = true -> JsString.includes p s = true.
Proof. intros H. destruct s; simpl; rewrite H; reflexivity. Qed.

Lemma includes_middle (p a b : string) : JsString.includes p (a +:+ p +:+ b) = true.
Proof.
  induction a as [| c a IH].
  - change ("" +:+ p +:+ b) with (p +:+ b). apply includes_here, startsWith_app.
  - change (String c a +:+ p +:+ b) with (String c (a +:+ p +:+ b)).
    simpl. rewrite IH. apply orb_true_r.
Qed.

(** X10. For an [Error] that carries a response with a 4xx or 5xx status
    (and whose own message does not speak of a city not found), the message
    shown to the caller tells whether the failure counted as transient: it
    is "Rate limit exceeded" or "Provider service unavailable" exactly when
    the classifier says transient.  The status decides the message before
    any transport code is looked at: 401, 404, 429 and 5xx have fixed
    messages. *)
Theorem message_tells_transience (o : ErrorObject) (r : Response) (s : Z)
    (context : string) :
  proto o = Error_proto ->
  JsString.includes "City not found" (message o) = false ->
  response o = Some r -> status r = Some s -> (400 <= s < 600)%Z ->
  let shown := message (wrapError (ThrownObject o) context) in
  (isTransientError (ThrownObject o) = true <->
   shown = "Rate limit exceeded" \/ shown = "Provider service unavailable")
  /\ (s = 401%Z -> shown = "Invalid API key")
  /\ (s = 404%Z -> shown = "City not found")
  /\ (s = 429%Z -> shown = "Rate limit exceeded")
  /\ ((500 <= s)%Z -> shown = "Provider service unavailable").
Proof.
  intros Hp Hm Hr Hs Hrange shown. subst shown.
  assert (Hctx : forall m,
            context +:+ ": " +:+ m <> "Rate limit exceeded"
            /\ context +:+ ": " +:+ m <> "Provider service unavailable").
  { intros m. pose proof (includes_middle ": " context m) as Hin.
    split; intros Heq; rewrite Heq in Hin; vm_compute in Hin; discriminate. }
  unfold isTransientError, wrapError, status_is, status_in.
  rewrite Hp, Hm, Hr, Hs.
  destruct (Z.eqb_spec s 401), (Z.eqb_spec s 404), (Z.eqb_spec s 429),
    (Z.eqb_spec s 0), (Z.leb_spec 500 s), (Z.ltb_spec s 600),
    (Z.leb_spec 400 s), (Z.ltb_spec s 500); simpl; try lia;
    repeat split; intros; try lia; try discriminate; try reflexivity;
    try (left; reflexivity); try (right; reflexivity);
    try (repeat case_match; simplify_eq; simpl in *;
         destruct (Hctx (message o)); intuition (discriminate || congruence)).
Qed.

Lemma message_tells_transience_503 :
  let o := Scenarios.status_error 503 in
  (400 <= 503 < 600)%Z
  /\ isTransientError (ThrownObject o) = true
  /\ message (wrapError (ThrownObject o) "getForecast") = "Provider service unavailable".
Proof.
  intros o.
  destruct (message_tells_transience o (mkResponse (Some 503%Z)) 503 "getForecast"
              eq_refl eq_refl eq_refl eq_refl ltac:(lia)) as (Hiff & _ & _ & _ & H5).
  split; [lia |]. split.
  - apply Hiff. right. apply H5. lia.
  - apply H5. lia.
Defined.

End MessageFacts.

Module OrchestratorMore.
Import Js Types Errors LotusWeather More.
Local Open Scope list_scope.

(** The whole of [executeWithFallback], case by case. *)
Lemma executeWithFallback_cases {W T : Type} (this : Instance W)
    (operation : WeatherProvider W -> Async W T) (providerName : string) (st : State W) :
  executeWithFallback this operation providerName st =
  match operation (primaryProvider this) (world st) with
  | (Normal v, w1) => (Normal v, mkState w1 (cache st) (invoked st ++ [primary]))
  | (Throw e, w1) =>
      match fallbackProvider_ this with
      | Some fb =>
          if isTransientError e then
            (match fst (operation fb w1) with
             | Normal v => Normal v
             | Throw _ => Throw (ThrownObject (wrapError e providerName))
             end,
             mkState (snd (operation fb w1)) (cache st) (invoked st ++ [primary; fallback]))
          else
            (Throw (ThrownObject (wrapError e providerName)),
             mkState w1 (cache st) (invoked st ++ [primary]))
      | None =>
          (Throw (ThrownObject (wrapError e providerName)),
           mkState w1 (cache st) (invoked st ++ [primary]))
      end
  end.
Proof.
  unfold executeWithFallback, try_catch, hand_to, throw. simpl.
  destruct (operation (primaryProvider this) (world st)) as [[v | e] w1]; simpl;
    [reflexivity |].
  destruct (fallbackProvider_ this) as [fb |]; simpl; [| reflexivity].
  destruct (isTransientError e); simpl; [| reflexivity].
  destruct (operation fb w1) as [[v | e2] w2]; simpl; by rewrite <- app_assoc.
Qed.

(** X11. The operation is always handed to the primary provider first and
    once.  The fallback provider gets it, once and after the primary, in
    one case only: the primary threw, the classifier calls the failure
    transient, and a fallback is configured.  A primary success is returned
    as it is.  The cache field is never touched. *)
Theorem fallback_only_after_transient {W T : Type} (this : Instance W)
    (operation : WeatherProvider W -> Async W T) (providerName : string) (st : State W) :
  let run := executeWithFallback this operation providerName st in
  let transient_with_fallback :=
    exists e, fst (operation (primaryProvider this) (world st)) = Throw e
              /\ isTransientError e = true
              /\ fallbackProvider_ this <> None in
  ((transient_with_fallback /\ invoked (snd run) = invoked st ++ [primary; fallback])
   \/ (~ transient_with_fallback /\ invoked (snd run) = invoked st ++ [primary]))
  /\ cache (snd run) = cache st
  /\ (forall v, fst (operation (primaryProvider this) (world st)) = Normal v ->
        fst run = Normal v
        /\ world (snd run) = snd (operation (primaryProvider this) (world st))).
Proof.
  intros run cond. subst run cond. rewrite executeWithFallback_cases.
  destruct (operation (primaryProvider this) (world st)) as [[v | e] w1]; simpl.
  - split; [| split; [reflexivity | by intros ? [= <-]]].
    right. split; [| reflexivity]. intros (e & He & _). discriminate He.
  - destruct (fallbackProvider_ this) as [fb |]; simpl.
    + destruct (isTransientError e) eqn:Ht; simpl.
      * split; [| split; [reflexivity | discriminate]]. left. split; [| reflexivity].
        exists e. split; [reflexivity |]. split; [exact Ht | discriminate].
      * split; [| split; [reflexivity | discriminate]]. right. split; [| reflexivity].
        intros (e' & [= <-] & Ht' & _). congruence.
    + split; [| split; [reflexivity | discriminate]]. right. split; [| reflexivity].
      intros (e' & _ & _ & Hfb). by apply Hfb.
Qed.

Lemma executeWithFallback_reaches_primary {W T : Type} (this : Instance W)
    (operation : WeatherProvider W -> Async W T) (providerName : string) (st : State W) :
  reached_primary st (snd (executeWithFallback this operation providerName st)).
Proof.
  rewrite executeWithFallback_cases. unfold reached_primary.
  destruct (operation (primaryProvider this) (world st)) as [[v | e] w1]; simpl;
    [by exists [] |].
  destruct (fallbackProvider_ this) as [fb |]; simpl; [| by exists []].
  destruct (isTransientError e); simpl; [by exists [fallback] | by exists []].
Qed.

Lemma executeWithFallback_throws {W T : Type} (this : Instance W)
    (operation : WeatherProvider W -> Async W T) (providerName : string)
    (st : State W) (e : Thrown) :
  fst (executeWithFallback this operation providerName st) = Throw e ->
  is_WeatherError e.
Proof.
  rewrite executeWithFallback_cases.
  assert (Hw : forall x, is_WeatherError (ThrownObject (wrapError x providerName))).
  { intros x. eexists. split; [reflexivity | apply WrapErrorFacts.wrapError_proto]. }
  destruct (operation (primaryProvider this) (world st)) as [[v | e1] w1]; simpl;
    [discriminate |].
  destruct (fallbackProvider_ this) as [fb |]; simpl; [| by intros [= <-]].
  destruct (isTransientError e1); simpl; [| by intros [= <-]].
  destruct (fst (operation fb w1)); [discriminate | by intros [= <-]].
Qed.

Lemma executeWithFallback_keeps_cache {W T : Type} (this : Instance W)
    (operation : WeatherProvider W -> Async W T) (providerName : string) (st : State W) :
  cache (snd (executeWithFallback this operation providerName st)) = cache st.
Proof.
  rewrite executeWithFallback_cases.
  destruct (operation (primaryProvider this) (world st)) as [[v | e1] w1]; simpl;
    [reflexivity |].
  destruct (fallbackProvider_ this) as [fb |]; simpl; [| reflexivity].
  by destruct (isTransientError e1).
Qed.

End OrchestratorMore.

Module RequestFacts.
Import Js Types Errors LotusWeather More OrchestratorMore.
Local Open Scope list_scope.

(** A request without a key is a bare fallback-aware fetch; a request with
    a key follows the look-up / fetch / store pattern. *)
Lemma perform_shape {W : Type} (env : Env W) (this : Instance W) (r : Request) :
  match request_key env this r with
  | Some k =>
      exists (T : Type) (wrap : T -> Payload)
             (operation : WeatherProvider W -> Async W T) (providerName : string),
        perform env this r
        = cached_fetch env this k (request_category r) wrap operation providerName
  | None =>
      exists (operation : WeatherProvider W -> Async W CurrentResult)
             (providerName : string),
        perform env this r
        = bind (executeWithFallback this operation providerName)
            (fun v => ret (PCurrent v))
  end.
Proof.
  destruct r as [city options | lat lon options | city options]; simpl;
    unfold getCurrentWeather, getWeatherByCoords, getForecast.
  - destruct (raw_requested options); [by do 2 eexists | by do 4 eexists].
  - destruct (raw_requested options); [by do 2 eexists | by do 4 eexists].
  - by do 4 eexists.
Qed.

Lemma get_live {T : Type} (now : Z) (key : string) (c : Cache.t T) (e : Cache.CacheEntry T) :
  Spec.live_entry now key c e -> Cache.get now key c = (Some (Cache.value e), c).
Proof.
  intros [He Hle]. unfold Cache.get. rewrite He.
  destruct (Z.gtb_spec now (Cache.expiresAt e)); [lia | reflexivity].
Qed.

Lemma get_dead {T : Type} (now : Z) (key : string) (c : Cache.t T) :
  (forall e, ~ Spec.live_entry now key c e) ->
  fst (Cache.get now key c) = None.
Proof.
  intros Hdead. unfold Cache.get.
  destruct (Cache.store c !! key) as [e |] eqn:He; [| reflexivity].
  destruct (Z.gtb_spec now (Cache.expiresAt e)) as [| Hle]; [reflexivity |].
  exfalso. apply (Hdead e). split; [exact He | lia].
Qed.

Lemma get_no_new_entries {T : Type} (now : Z) (key : string) (c : Cache.t T) :
  Cache.ttl (snd (Cache.get now key c)) = Cache.ttl c
  /\ forall k e, Cache.store (snd (Cache.get now key c)) !! k = Some e ->
                 Cache.store c !! k = Some e.
Proof.
  unfold Cache.get. destruct (Cache.store c !! key) as [e0 |]; [| by split].
  destruct (now >? Cache.expiresAt e0)%Z; simpl; [| by split].
  split; [reflexivity |]. intros k e H. by apply lookup_delete_Some in H as [_ H].
Qed.


(** The look-up / fetch / store pattern, case by case. *)
Lemma cached_fetch_cases {W T : Type} (env : Env W) (this : Instance W)
    (k : string) (type : Cache.CacheKeyType) (wrap : T -> Payload)
    (operation : WeatherProvider W -> Async W T) (providerName : string) (st : State W) :
  cached_fetch env this k type wrap operation providerName st =
  match cache st with
  | None =>
      match executeWithFallback this operation providerName st with
      | (Normal v, st') => (Normal (wrap v), st')
      | (Throw e, st') => (Throw e, st')
      end
  | Some c =>
      match Cache.get (Date_now env (world st)) k c with
      | (Some hit, c') => (Normal hit, mkState (world st) (Some c') (invoked st))
      | (None, c') =>
          match executeWithFallback this operation providerName
                  (mkState (world st) (Some c') (invoked st)) with
          | (Normal v, st') =>
              (Normal (wrap v),
               mkState (world st')
                 (Some (Cache.set (Date_now env (world st')) k (wrap v) type c'))
                 (invoked st'))
          | (Throw e, st') => (Throw e, st')
          end
      end
  end.
Proof.
  unfold cached_fetch, bind, ret, cache_lookup, cache_store.
  destruct (cache st) as [c |] eqn:Hc.
  - destruct (Cache.get (Date_now env (world st)) k c) as [[hit |] c']; [reflexivity |].
    pose proof (executeWithFallback_keeps_cache this operation providerName
                  (mkState (world st) (Some c') (invoked st))) as Hkeep.
    destruct (executeWithFallback this operation providerName
                (mkState (world st) (Some c') (invoked st))) as [[v | e] st'];
      [| reflexivity].
    simpl in Hkeep. by rewrite Hkeep.
  - pose proof (executeWithFallback_keeps_cache this operation providerName st) as Hkeep.
    destruct (executeWithFallback this operation providerName st) as [[v | e] st'];
      [| reflexivity].
    simpl in Hkeep. by rewrite Hkeep, Hc.
Qed.

(** X12. Every failure that one of the three public fetching methods
    raises is a [WeatherError]. *)
Theorem failures_are_WeatherErrors {W : Type} (env : Env W) (this : Instance W)
    (r : Request) (st : State W) (e : Thrown) :
  fst (perform env this r st) = Throw e -> is_WeatherError e.
Proof.
  pose proof (perform_shape env this r) as Hshape.
  destruct (request_key env this r) as [k |].
  - destruct Hshape as (T & wrap & op & name & ->).
    rewrite cached_fetch_cases.
    destruct (cache st) as [c |].
    + destruct (Cache.get (Date_now env (world st)) k c) as [[hit |] c'];
        [discriminate |].
      pose proof (executeWithFallback_throws this op name
                    (mkState (world st) (Some c') (invoked st))) as Hthrow.
      destruct (executeWithFallback this op name _) as [[v | e'] st']; [discriminate |].
      intros [= <-]. by apply Hthrow.
    + pose proof (executeWithFallback_throws this op name st) as Hthrow.
      destruct (executeWithFallback this op name st) as [[v | e'] st']; [discriminate |].
      intros [= <-]. by apply Hthrow.
  - destruct Hshape as (op & name & ->). unfold bind, ret.
    pose proof (executeWithFallback_throws this op name st) as Hthrow.
    destruct (executeWithFallback this op name st) as [[v | e'] st']; [discriminate |].
    intros [= <-]. by apply Hthrow.
Qed.

Lemma failures_are_WeatherErrors_offline :
  let this := Scenarios.failing_instance (ThrownObject Scenarios.connection_refused)
                ThrownPrimitive in
  let env := Scenarios.env_answering (Throw ThrownPrimitive) (Throw ThrownPrimitive) in
  let run := perform env this (CurrentByCity "London" None) (Scenarios.fresh None) in
  fst run
  = Throw (ThrownObject
             (new_WeatherError "Unable to connect to weather service"
                (Some Scenarios.connection_refused)))
  /\ is_WeatherError (ThrownObject
                        (new_WeatherError "Unable to connect to weather service"
                           (Some Scenarios.connection_refused))).
Proof.
  intros this env run.
  assert (Hrun : fst run
                 = Throw (ThrownObject
                            (new_WeatherError "Unable to connect to weather service"
                               (Some Scenarios.connection_refused))))
    by (vm_compute; reflexivity).
  split; [exact Hrun |].
  exact (failures_are_WeatherErrors env this (CurrentByCity "London" None)
           (Scenarios.fresh None) _ Hrun).
Defined.

End RequestFacts.

Module RequestCacheFacts.
Import Js Types Errors LotusWeather More OrchestratorMore RequestFacts.
Local Open Scope list_scope.

Lemma state_eta {W : Type} (st : State W) :
  mkState (world st) (cache st) (invoked st) = st.
Proof. by destruct st. Qed.

Lemma cached_fetch_hit {W T : Type} (env : Env W) (this : Instance W)
    (k : string) (type : Cache.CacheKeyType) (wrap : T -> Payload)
    (operation : WeatherProvider W -> Async W T) (providerName : string)
    (st : State W) (c : Cache.t Payload) (e : Cache.CacheEntry Payload) :
  cache st = Some c ->
  Spec.live_entry (Date_now env (world st)) k c e ->
  cached_fetch env this k type wrap operation providerName st
  = (Normal (Cache.value e), st).
Proof.
  intros Hc Hlive.
  rewrite cached_fetch_cases, Hc, (get_live _ _ _ _ Hlive).
  by rewrite <- Hc, state_eta.
Qed.

Lemma cached_fetch_stored {W T : Type} (env : Env W) (this : Instance W)
    (k : string) (type : Cache.CacheKeyType) (wrap : T -> Payload)
    (operation : WeatherProvider W -> Async W T) (providerName : string)
    (st st1 : State W) (c : Cache.t Payload) (v : Payload) :
  cache st = Some c ->
  (forall e, ~ Spec.live_entry (Date_now env (world st)) k c e) ->
  cached_fetch env this k type wrap operation providerName st = (Normal v, st1) ->
  reached_primary st st1
  /\ exists c1,
       cache st1 = Some c1
       /\ Cache.ttl c1 = Cache.ttl c
       /\ Cache.store c1 !! k
          = Some (Cache.mkEntry v (Date_now env (world st1) + Cache.ttl c type)).
Proof.
  intros Hc Hdead. rewrite cached_fetch_cases, Hc.
  pose proof (get_dead _ _ _ Hdead) as Hmiss.
  pose proof (get_no_new_entries (Date_now env (world st)) k c) as [Httl _].
  destruct (Cache.get (Date_now env (world st)) k c) as [[hit |] c'];
    [discriminate Hmiss |].
  pose proof (executeWithFallback_reaches_primary this operation providerName
                (mkState (world st) (Some c') (invoked st))) as Hreach.
  destruct (executeWithFallback this operation providerName _) as [[x | e'] st'];
    [| discriminate].
  intros [= <- <-]. split; [exact Hreach |].
  eexists. split; [reflexivity |]. simpl in *. split; [exact Httl |].
  by rewrite lookup_insert_eq, Httl.
Qed.

(** X13. A request whose key has a live entry in the cache returns the
    cached value and does nothing else: no provider is called, the world
    and the cache are as before. *)
Theorem cache_hit_calls_nothing {W : Type} (env : Env W) (this : Instance W)
    (r : Request) (st : State W) (k : string) (c : Cache.t Payload)
    (e : Cache.CacheEntry Payload) :
  request_key env this r = Some k ->
  cache st = Some c ->
  Spec.live_entry (Date_now env (world st)) k c e ->
  perform env this r st = (Normal (Cache.value e), st).
Proof.
  intros Hk Hc Hlive.
  pose proof (perform_shape env this r) as Hshape. rewrite Hk in Hshape.
  destruct Hshape as (T & wrap & op & name & ->).
  exact (cached_fetch_hit env this k _ wrap op name st c e Hc Hlive).
Qed.

(** X14. A request that finds no live entry and whose fetch succeeds stores
    what it returns under its key, to expire one category lifetime after
    the moment the fetch ended; it has called the primary provider. *)
Theorem fetched_result_is_stored {W : Type} (env : Env W) (this : Instance W)
    (r : Request) (st st1 : State W) (k : string) (c : Cache.t Payload) (v : Payload) :
  request_key env this r = Some k ->
  cache st = Some c ->
  (forall e, ~ Spec.live_entry (Date_now env (world st)) k c e) ->
  perform env this r st = (Normal v, st1) ->
  reached_primary st st1
  /\ exists c1,
       cache st1 = Some c1
       /\ Cache.ttl c1 = Cache.ttl c
       /\ Cache.store c1 !! k
          = Some (Cache.mkEntry v
                    (Date_now env (world st1) + Cache.ttl c (request_category r))).
Proof.
  intros Hk Hc Hdead.
  pose proof (perform_shape env this r) as Hshape. rewrite Hk in Hshape.
  destruct Hshape as (T & wrap & op & name & ->).
  by apply cached_fetch_stored.
Qed.

(** Locations that differ by case and outer white space give one request
    key. *)
Lemma same_location_same_key {W : Type} (env : Env W) (this : Instance W)
    (city city' : string) (options options' : option CurrentWeatherOptions) :
  Spec.same_location city city' ->
  Spec.without_special_casing city -> Spec.without_special_casing city' ->
  raw_requested options = false -> raw_requested options' = false ->
  request_key env this (CurrentByCity city' options')
  = request_key env this (CurrentByCity city options).
Proof.
  intros Hsame Hplain Hplain' Hraw Hraw'. simpl. rewrite Hraw, Hraw'.
  unfold current_key, Cache.createKey.
  by rewrite (StringFacts.normalised_location _ _ Hsame Hplain Hplain').
Qed.

(** X15. After a request has fetched and returned a result with caching
    on, any request with the same key (for current weather, for instance,
    the same city in another letter case or with white space around it)
    made while the clock is within
    the category's lifetime of the end of that fetch returns the same
    result without calling a provider, provided the cache was not changed
    in between. *)
Theorem repeated_request_served_from_cache {W : Type} (env : Env W) (this : Instance W)
    (r r' : Request) (st st1 st2 : State W) (c : Cache.t Payload) (v : Payload) :
  is_Some (request_key env this r) ->
  request_key env this r' = request_key env this r ->
  cache st = Some c ->
  perform env this r st = (Normal v, st1) ->
  invoked st1 <> invoked st ->
  cache st2 = cache st1 ->
  (Date_now env (world st2)
   <= Date_now env (world st1) + Cache.ttl c (request_category r))%Z ->
  perform env this r' st2 = (Normal v, st2).
Proof.
  intros [k Hk] Hk' Hc Hrun Hwent Hsame Hnow.
  pose proof (perform_shape env this r) as Hshape. rewrite Hk in Hshape.
  destruct Hshape as (T & wrap & op & name & Hr). rewrite Hr in Hrun.
  rewrite Hk in Hk'.
  pose proof (perform_shape env this r') as Hshape'. rewrite Hk' in Hshape'.
  destruct Hshape' as (T' & wrap' & op' & name' & Hr'). rewrite Hr'.
  assert (Hdead : forall e, ~ Spec.live_entry (Date_now env (world st)) k c e).
  { intros e Hlive.
    rewrite (cached_fetch_hit env this k _ wrap op name st c e Hc Hlive) in Hrun.
    injection Hrun as _ <-. by apply Hwent. }
  destruct (cached_fetch_stored env this k _ wrap op name st st1 c v Hc Hdead Hrun)
    as (_ & c1 & Hc1 & Httl & Hentry).
  apply (cached_fetch_hit env this k _ wrap' op' name' st2 c1
           (Cache.mkEntry v
              (Date_now env (world st1) + Cache.ttl c (request_category r)))).
  - congruence.
  - split; [exact Hentry | simpl; lia].
Qed.


(** X17. With caching off, with a raw request, or right after
    [clearCache()], a request always reaches the primary provider; with
    caching off the cache field stays off, and [clearCache()] itself calls
    no provider and leaves the world alone. *)
Theorem uncached_request_reaches_provider {W : Type} (env : Env W) (this : Instance W)
    (r : Request) (st : State W) :
  let cleared := snd (clearCache st) in
  (world cleared = world st /\ invoked cleared = invoked st
   /\ reached_primary st (snd (perform env this r cleared)))
  /\ (cache st = None ->
      reached_primary st (snd (perform env this r st))
      /\ cache (snd (perform env this r st)) = None)
  /\ (request_key env this r = None ->
      reached_primary st (snd (perform env this r st))).
Proof.
  intros cleared. subst cleared.
  pose proof (perform_shape env this r) as Hshape.
  assert (Hbare : forall T (op : WeatherProvider W -> Async W T) name (f : T -> Payload) s,
            reached_primary s
              (snd (match executeWithFallback this op name s with
                    | (Normal v, st') => (Normal (f v), st')
                    | (Throw e, st') => (Throw e, st')
                    end))).
  { intros T op name f s.
    pose proof (executeWithFallback_reaches_primary this op name s) as H.
    by destruct (executeWithFallback this op name s) as [[v | e] st']. }
  destruct (request_key env this r) as [k |].
  - destruct Hshape as (T & wrap & op & name & ->).
    split; [| split; [| discriminate]].
    + split; [reflexivity |]. split; [reflexivity |].
      rewrite cached_fetch_cases. unfold clearCache. simpl.
      destruct (cache st) as [c |]; simpl.
      * unfold Cache.get. simpl. rewrite lookup_empty.
        pose proof (executeWithFallback_reaches_primary this op name
                      (mkState (world st) (Some (Cache.clear c)) (invoked st))) as H.
        by destruct (executeWithFallback this op name _) as [[v | e] st'].
      * apply (Hbare T op name wrap (mkState (world st) None (invoked st))).
    + intros Hc. rewrite cached_fetch_cases, Hc.
      pose proof (executeWithFallback_keeps_cache this op name st) as Hkeep.
      split; [apply Hbare |].
      destruct (executeWithFallback this op name st) as [[v | e] st']; simpl in *;
        congruence.
  - destruct Hshape as (op & name & ->). unfold bind, ret.
    pose proof (executeWithFallback_keeps_cache this op name st) as Hkeep.
    split; [| split].
    + split; [reflexivity |]. split; [reflexivity |].
      apply (Hbare _ op name PCurrent (snd (clearCache st))).
    + intros Hc. split; [apply Hbare |].
      destruct (executeWithFallback this op name st) as [[v | e] st']; simpl in *;
        congruence.
    + intros _. apply Hbare.
Qed.

(** The scenes of the examples: an Open-Meteo instance whose upstream
    always answers, the clock showing the number of requests made. *)
Lemma cache_hit_calls_nothing_london :
  let env := Scenarios.env_answering (Throw ThrownPrimitive) (Throw ThrownPrimitive) in
  let this := Scenarios.open_meteo_instance in
  let st := Scenarios.fresh (Some Scenarios.cache_with_london) in
  perform env this (CurrentByCity " LONDON " None) st
  = (Normal (PCurrent (Normalized Scenarios.sunny)), st).
Proof.
  intros env this st.
  apply (cache_hit_calls_nothing env this (CurrentByCity " LONDON " None) st
           "open-meteo:current:london" Scenarios.cache_with_london
           (Cache.mkEntry (PCurrent (Normalized Scenarios.sunny)) 300000)).
  - reflexivity.
  - reflexivity.
  - split; [vm_compute; reflexivity | vm_compute; discriminate].
Defined.

Lemma fetched_result_is_stored_london :
  let env := Scenarios.env_answering (Throw ThrownPrimitive) (Throw ThrownPrimitive) in
  let this := Scenarios.open_meteo_instance in
  let st := Scenarios.fresh (Some (Cache.new None)) in
  let run := perform env this (CurrentByCity "London" None) st in
  exists c1,
    cache (snd run) = Some c1
    /\ Cache.store c1 !! "open-meteo:current:london"
       = Some (Cache.mkEntry (PCurrent (RawBody Scenarios.raw_body)) (1 + 300000)).
Proof.
  intros env this st run.
  assert (Hrun : run = (Normal (PCurrent (RawBody Scenarios.raw_body)), snd run)).
  { apply injective_projections; [vm_compute; reflexivity | reflexivity]. }
  destruct (fetched_result_is_stored env this (CurrentByCity "London" None) st (snd run)
              "open-meteo:current:london" (Cache.new None)
              (PCurrent (RawBody Scenarios.raw_body)) eq_refl eq_refl)
    as (_ & c1 & Hc1 & _ & Hentry).
  - intros e [He _]. vm_compute in He. discriminate He.
  - exact Hrun.
  - exists c1. split; [exact Hc1 | exact Hentry].
Defined.

Lemma repeated_request_served_from_cache_london :
  let env := Scenarios.env_answering (Throw ThrownPrimitive) (Throw ThrownPrimitive) in
  let this := Scenarios.open_meteo_instance in
  let st := Scenarios.fresh (Some (Cache.new None)) in
  let st1 := snd (perform env this (CurrentByCity "London" None) st) in
  Spec.same_location "London" " LONDON "
  /\ perform env this (CurrentByCity " LONDON " None) st1
     = (Normal (PCurrent (RawBody Scenarios.raw_body)), st1).
Proof.
  intros env this st st1.
  assert (Hsame : Spec.same_location "London" " LONDON ")
    by StringFacts.same_location_by "London" "LONDON" "" "" " " " ".
  split; [exact Hsame |].
  apply (repeated_request_served_from_cache env this
           (CurrentByCity "London" None) (CurrentByCity " LONDON " None)
           st st1 st1 (Cache.new None)).
  - eexists. reflexivity.
  - apply same_location_same_key;
      [exact Hsame | StringFacts.without_special_casing_by
       | StringFacts.without_special_casing_by | reflexivity | reflexivity].
  - reflexivity.
  - apply injective_projections; [vm_compute; reflexivity | reflexivity].
  - vm_compute. discriminate.
  - reflexivity.
  - vm_compute. discriminate.
Defined.


End RequestCacheFacts.

Module ConstructionFacts.
Import Js Types Errors LotusWeather More.

Lemma validateConfig_acceptable (config : LotusWeatherConfig) :
  acceptable config <-> validateConfig config = Normal tt.
Proof.
  unfold acceptable, validateConfig, apiKey_missing.
  destruct config as [p [[| ch k] |] [[|] |] cc]; destruct p; simpl;
    (split;
     [ intros [Hkey Hdiff];
       first [ reflexivity
             | exfalso; by apply Hdiff
             | exfalso;
               (destruct Hkey as (k' & Hk & Hne); [by auto |]);
               first [discriminate Hk | injection Hk as <-; by apply Hne] ]
     | intros Hv;
       first [ discriminate Hv
             | split; [ intros _; eexists; split; [reflexivity | discriminate]
                      | discriminate ]
             | split; [ intros [? | ?]; discriminate | discriminate ] ] ]).
Qed.

(** X18. [new LotusWeather(config)] succeeds exactly when every use of
    OpenWeather (as primary or as fallback) comes with a non-empty API key
    and the fallback is not the primary provider; otherwise it throws a
    [WeatherError].  An instance that was built has the configured provider
    types, a fallback of another type than the primary, and a cache exactly
    when [cache.enabled] is set, empty at the start. *)
Theorem new_accepts_exactly {W : Type} (env : Env W) (config : LotusWeatherConfig) :
  (acceptable config <-> is_Normal (LotusWeather.new env config) = true)
  /\ (forall e, LotusWeather.new env config = Throw e -> is_WeatherError e)
  /\ (forall this c,
        LotusWeather.new env config = Normal (this, c) ->
        primaryProviderType this = provider config
        /\ fallbackProviderType this = fallbackProvider config
        /\ fallbackProviderType this <> Some (primaryProviderType this)
        /\ (fallbackProvider_ this = None <-> fallbackProvider config = None)
        /\ match c with
           | Some c0 =>
               (exists cc, cache_config config = Some cc /\ enabled cc = true)
               /\ Cache.store c0 = ∅
           | None =>
               forall cc, cache_config config = Some cc -> enabled cc = false
           end).
Proof.
  unfold LotusWeather.new. split; [| split].
  - rewrite validateConfig_acceptable.
    destruct (validateConfig config) as [[] | e]; simpl; split;
      congruence.
  - intros e. unfold validateConfig.
    repeat case_match; intros; simplify_eq; eexists; split; reflexivity.
  - intros this c.
    destruct (validateConfig config) as [[] | e] eqn:Hv; [| discriminate].
    apply validateConfig_acceptable in Hv as [_ Hdiff].
    intros [= <- <-]. simpl. repeat split; try assumption.
    + by destruct (fallbackProvider config).
    + by destruct (fallbackProvider config).
    + destruct (cache_config config) as [cc |]; [| discriminate].
      destruct (enabled cc) eqn:Hen; [| by intros ? [= <-]].
      split; [by exists cc | reflexivity].
Qed.

Example new_rejects :
  let env := Scenarios.env_answering (Throw ThrownPrimitive) (Throw ThrownPrimitive) in
  is_Normal (LotusWeather.new env (mkConfig openweather None None None)) = false
  /\ is_Normal (LotusWeather.new env (mkConfig openweather (Some "") None None)) = false
  /\ is_Normal (LotusWeather.new env (mkConfig open_meteo None (Some openweather) None)) = false
  /\ is_Normal (LotusWeather.new env (mkConfig open_meteo None (Some open_meteo) None)) = false
  /\ is_Normal (LotusWeather.new env (mkConfig open_meteo None None None)) = true
  /\ is_Normal (LotusWeather.new env Scenarios.openweather_with_fallback) = true.
Proof. vm_compute. repeat split; reflexivity. Qed.

End ConstructionFacts.

Module OrderFacts.
Import JsMap JsMapFacts Spec More.
Local Open Scope list_scope.

Lemma has_mem {V : Type} (m : t V) (d : string) :
  has m d = existsb (String.eqb d) (keys m).
Proof.
  unfold has. induction m as [| [k v] rest IH]; simpl; [reflexivity |].
  rewrite (String.eqb_sym d k). destruct (String.eqb k d); [reflexivity | exact IH].
Qed.

Lemma filter_filter_and {A : Type} (p q : A -> bool) (l : list A) :
  List.filter p (List.filter q l) = List.filter (fun x => q x && p x) l.
Proof.
  induction l as [| x l IH]; simpl; [reflexivity |].
  destruct (q x); simpl; [| exact IH]. destruct (p x); by rewrite IH.
Qed.

Lemma filter_all {A : Type} (p : A -> bool) (l : list A) :
  (forall x, p x = true) -> List.filter p l = l.
Proof.
  intros H. induction l as [| x l IH]; simpl; [reflexivity |]. by rewrite H, IH.
Qed.

Section Order.
Context {A D : Type} (date_of : A -> string) (empty : D) (add : D -> A -> D).

#[local] Abbreviation step := (group_step date_of empty add).

Lemma keys_group_step (m : t D) (item : A) :
  keys (step m item) =
  if has m (date_of item) then keys m else keys m ++ [date_of item].
Proof.
  unfold group_step.
  destruct (ForecastFacts.get_after_init m (date_of item) empty) as [day Hday].
  rewrite Hday, keys_set.
  assert (Hhas : has (if negb (has m (date_of item))
                      then set m (date_of item) empty else m) (date_of item) = true).
  { unfold has at 1. by rewrite Hday. }
  rewrite Hhas. destruct (has m (date_of item)) eqn:Hm; simpl; [reflexivity |].
  by rewrite keys_set, Hm.
Qed.

(** The keys after the loop: those before it, then the new dates in the
    order first met. *)
Lemma keys_fold_group_step (items : list A) (m : t D) :
  keys (fold_left step items m) =
  keys m ++ List.filter (fun d => negb (existsb (String.eqb d) (keys m)))
              (distinct (map date_of items)).
Proof.
  revert m. induction items as [| item items IH]; intros m; simpl.
  - by rewrite app_nil_r.
  - rewrite IH, keys_group_step, has_mem.
    destruct (existsb (String.eqb (date_of item)) (keys m)) eqn:Hin; simpl.
    + f_equal. rewrite filter_filter_and. apply List.filter_ext. intros d.
      destruct (String.eqb_spec (date_of item) d) as [<- | Hne]; simpl;
        [by rewrite Hin | reflexivity].
    + rewrite <- app_assoc. simpl. do 2 f_equal.
      rewrite filter_filter_and. apply List.filter_ext. intros d.
      rewrite existsb_app. simpl. rewrite orb_false_r, negb_orb.
      rewrite (String.eqb_sym d (date_of item)). apply andb_comm.
Qed.

(** A grouped map is determined by its keys. *)
Lemma grouped_by_keys (m : t D) (seen : list A) :
  grouped date_of empty add m seen ->
  m = map (fun d => (d, summary empty add (on_day date_of d seen))) (keys m).
Proof.
  intros Hg.
  assert (Hall : forall d v, In (d, v) m -> v = summary empty add (on_day date_of d seen)).
  { intros d v Hin.
    by destruct (GroupingFacts.grouped_entry _ _ _ _ _ _ _ Hg Hin) as [_ ->]. }
  clear Hg. induction m as [| [d v] rest IH]; simpl; [reflexivity |].
  rewrite (Hall d v) by (by left). f_equal.
  apply IH. intros d' v' Hin. apply Hall. by right.
Qed.

(** The grouping loop in closed form. *)
Lemma fold_group_step_closed (items : list A) :
  fold_left step items [] =
  map (fun d => (d, summary empty add (on_day date_of d items)))
    (distinct (map date_of items)).
Proof.
  pose proof (GroupingFacts.fold_group_step_grouped date_of empty add items [] []
                (GroupingFacts.grouped_nil date_of empty add)) as Hg.
  simpl in Hg. rewrite (grouped_by_keys _ _ Hg) at 1.
  rewrite keys_fold_group_step. simpl. by rewrite filter_all.
Qed.

End Order.

Lemma distinct_NoDup (l : list string) : List.NoDup (distinct l).
Proof.
  induction l as [| x l IH]; simpl; [constructor |].
  constructor.
  - intros [_ H]%filter_In. by rewrite String.eqb_refl in H.
  - by apply List.NoDup_filter.
Qed.

Lemma distinct_In (l : list string) (x : string) : In x (distinct l) <-> In x l.
Proof.
  induction l as [| y l IH]; simpl; [tauto |].
  rewrite filter_In, IH. destruct (String.eqb_spec y x) as [-> | Hne]; simpl.
  - split; [intros [? | [? ?]]; [by left | discriminate] | by left].
  - split; [intros [? | [? _]]; [by left | by right] |].
    intros [? | ?]; [by left | by right].
Qed.

End OrderFacts.

Module MostFrequentFacts.
Import JsMap JsMapFacts Spec More OpenWeather.
Local Open Scope list_scope.

Lemma set_set {V : Type} (m : t V) (k : string) (a b : V) :
  set (set m k a) k b = set m k b.
Proof.
  induction m as [| [k' v] rest IH]; simpl.
  - by rewrite String.eqb_refl.
  - destruct (String.eqb k' k) eqn:Hk; simpl; rewrite Hk; [reflexivity | by rewrite IH].
Qed.

(** Counting is grouping with a counter as the aggregate. *)
Lemma count_step_group_step (counts : t nat) (desc : string) :
  set counts desc (default 0%nat (get counts desc) + 1)%nat
  = group_step (fun d => d) 0%nat (fun n _ => S n) counts desc.
Proof.
  unfold group_step, has.
  destruct (get counts desc) as [n |] eqn:Hn; simpl.
  - rewrite Hn. by rewrite Nat.add_1_r.
  - by rewrite get_set, String.eqb_refl, set_set.
Qed.

Lemma summary_length (l : list string) :
  summary 0%nat (fun n (_ : string) => S n) l = length l.
Proof.
  unfold summary.
  assert (H : forall a, fold_left (fun n (_ : string) => S n) l a = (a + length l)%nat).
  { induction l as [| x l IH]; intros a; simpl; [lia |]. rewrite IH. lia. }
  by rewrite H.
Qed.

Lemma fold_left_pointwise {A B : Type} (f g : A -> B -> A) (l : list B) (a : A) :
  (forall x y, f x y = g x y) -> fold_left f l a = fold_left g l a.
Proof.
  intros H. revert a. induction l as [| y l IH]; intros a; simpl; [reflexivity |].
  by rewrite H, IH.
Qed.

(** The counts: each distinct description, in the order first met, with
    the number of its occurrences. *)
Lemma count_descriptions_closed (descs : list string) :
  count_descriptions descs = map (fun d => (d, occurrences d descs)) (distinct descs).
Proof.
  unfold count_descriptions.
  rewrite (fold_left_pointwise _ (group_step (fun d => d) 0%nat (fun n _ => S n)))
    by (intros; apply count_step_group_step).
  rewrite OrderFacts.fold_group_step_closed, map_id.
  apply map_ext. intros d. f_equal. rewrite summary_length.
  unfold occurrences, on_day. f_equal. apply List.filter_ext.
  intros x. apply String.eqb_sym.
Qed.

(** The second loop keeps the first entry whose count is the greatest. *)
Lemma pick_first_max (entries : list (string * nat)) (mc0 : nat) (r0 : option string) :
  let pick := fold_left
                (fun '(maxCount, result) '(desc, count) =>
                   if (maxCount <? count)%nat then (count, Some desc)
                   else (maxCount, result))
                entries (mc0, r0) in
  (Forall (fun e => (snd e <= mc0)%nat) entries /\ pick = (mc0, r0))
  \/ (exists p d c q,
        entries = p ++ (d, c) :: q
        /\ (mc0 < c)%nat
        /\ Forall (fun e => (snd e < c)%nat) p
        /\ Forall (fun e => (snd e <= c)%nat) q
        /\ pick = (c, Some d)).
Proof.
  revert mc0 r0. induction entries as [| [d c] rest IH]; intros mc0 r0; simpl.
  - left. by split.
  - destruct (Nat.ltb_spec mc0 c) as [Hlt | Hge].
    + right. destruct (IH c (Some d)) as [[Hall Hpick] | (p & d' & c' & q & Hr & Hc & Hp & Hq & Hpick)].
      * exists [], d, c, rest. repeat split; try assumption; constructor.
      * exists ((d, c) :: p), d', c', q. subst rest. repeat split; try assumption.
        -- lia.
        -- constructor; [simpl; lia | assumption].
    + destruct (IH mc0 r0) as [[Hall Hpick] | (p & d' & c' & q & Hr & Hc & Hp & Hq & Hpick)].
      * left. split; [| assumption]. constructor; [simpl; lia | assumption].
      * right. exists ((d, c) :: p), d', c', q. subst rest. repeat split; try assumption.
        constructor; [simpl; lia | assumption].
Qed.

Lemma getMostFrequent_first_most_frequent (descs : list string) :
  descs <> [] ->
  exists d, getMostFrequent descs = Some d /\ first_most_frequent d descs.
Proof.
  intros Hne. unfold getMostFrequent. rewrite count_descriptions_closed.
  destruct (pick_first_max (map (fun d => (d, occurrences d descs)) (distinct descs))
              0%nat (hd_error descs))
    as [[Hall _] | (p & d & c & q & Hsplit & Hc & Hp & Hq & Hpick)].
  - exfalso. destruct descs as [| x descs]; [congruence |].
    simpl in Hall. inversion Hall as [| ? ? Hx _]; subst. simpl in Hx.
    unfold occurrences in Hx. simpl in Hx. rewrite String.eqb_refl in Hx.
    simpl in Hx. lia.
  - rewrite Hpick. simpl. exists d. split; [reflexivity |].
    apply map_eq_app in Hsplit as (p' & rest & Hd & <- & Hrest).
    apply map_eq_cons in Hrest as (d' & q' & -> & [= <- <-] & <-).
    exists p', q'. split; [exact Hd |]. split.
    + apply List.Forall_forall. intros x Hx.
      rewrite List.Forall_forall in Hp.
      apply (Hp (x, occurrences x descs)). apply in_map_iff. by exists x.
    + apply List.Forall_forall. intros x Hx.
      rewrite List.Forall_forall in Hq.
      apply (Hq (x, occurrences x descs)). apply in_map_iff. by exists x.
Qed.

Lemma occurrences_absent (d : string) (l : list string) :
  ~ In d l -> occurrences d l = 0%nat.
Proof.
  unfold occurrences. induction l as [| x l IH]; simpl; [reflexivity |].
  intros Hn. destruct (String.eqb_spec d x) as [-> | _]; [exfalso; apply Hn; by left |].
  apply IH. intros ?. apply Hn. by right.
Qed.

(** X19. [getMostFrequent] of a non-empty list returns an element of the
    list that no other element outnumbers, and among the elements that
    occur as often as it, the one met first; of the empty list it returns
    [undefined]. *)
Theorem getMostFrequent_spec (descs : list string) :
  (descs = [] -> getMostFrequent descs = None)
  /\ (descs <> [] ->
      exists d,
        getMostFrequent descs = Some d
        /\ In d descs
        /\ (forall d', (occurrences d' descs <= occurrences d descs)%nat)
        /\ first_most_frequent d descs).
Proof.
  split; [by intros -> |]. intros Hne.
  destruct (getMostFrequent_first_most_frequent descs Hne) as (d & Hd & Hfirst).
  exists d. split; [exact Hd |].
  destruct Hfirst as (earlier & later & Hsplit & Hearlier & Hlater).
  assert (Hin : In d descs).
  { apply OrderFacts.distinct_In. rewrite Hsplit. apply in_or_app. right. by left. }
  split; [exact Hin |]. split; [| by exists earlier, later].
  intros d'. destruct (in_dec String.string_dec d' descs) as [Hd' | Hd'].
  - apply OrderFacts.distinct_In in Hd'. rewrite Hsplit in Hd'.
    rewrite List.Forall_forall in Hearlier, Hlater.
    apply in_app_or in Hd' as [H | [<- | H]];
      [apply Nat.lt_le_incl; by apply Hearlier | lia | by apply Hlater].
  - rewrite occurrences_absent by assumption. lia.
Qed.

Example getMostFrequent_tie :
  getMostFrequent ["rain"; "clear sky"; "clear sky"; "rain"; "mist"] = Some "rain"%string
  /\ getMostFrequent ["mist"; "clear sky"; "clear sky"; "rain"; "rain"]
     = Some "clear sky"%string.
Proof. split; reflexivity. Qed.

End MostFrequentFacts.

Module ForecastMore.
Import Js JsNumber Types Spec More.
Local Open Scope list_scope.

(** The aggregation of the later revision in closed form: the entry of
    each of the first [days] distinct dates, with that date's samples. *)
Lemma aggregateForecast_form (items : list OpenWeather.ForecastItem) (days : Z) :
  described items ->
  OpenWeather.aggregateForecast items days =
  Normal (map (fun d => OpenWeather.day_entry d (aggregate_of (on_day item_date d items)))
            (firstn (Z.to_nat days) (dates_in_order items))).
Proof.
  intros H. unfold OpenWeather.aggregateForecast.
  rewrite ForecastFacts.for_of_collect by assumption.
  rewrite OrderFacts.fold_group_step_closed, ForecastFacts.emit_days_firstn.
  simpl. rewrite Z.sub_0_r, firstn_map, map_map. unfold dates_in_order.
  f_equal. apply map_ext. intros d. simpl.
  by rewrite ForecastFacts.summary_aggregate_of.
Qed.

(** The same for the first revision. *)
Lemma aggregateForecast_form_v1 (items : list OpenWeatherV1.ForecastItem) (days : Z) :
  described_v1 items ->
  OpenWeatherV1.aggregateForecast items days =
  Normal (map (fun d => OpenWeatherV1.day_entry d
                          (aggregate_of_v1 (on_day item_date_v1 d items)))
            (firstn (Z.to_nat days) (distinct (map item_date_v1 items)))).
Proof.
  intros H. unfold OpenWeatherV1.aggregateForecast.
  rewrite ForecastV1Facts.for_of_collect_v1 by assumption.
  rewrite OrderFacts.fold_group_step_closed, ForecastV1Facts.emit_days_firstn_v1.
  simpl. rewrite Z.sub_0_r, firstn_map, map_map.
  f_equal. apply map_ext. intros d. simpl.
  by rewrite ForecastV1Facts.summary_aggregate_of_v1.
Qed.

(** X20. The days come out in the order in which their dates are first met
    in the samples, not sorted: the dates of the output are the first
    [days] of the distinct dates in that order, so there are exactly
    [min(days, number of distinct dates)] of them. *)
Theorem forecast_days_in_order_first_met (items : list OpenWeather.ForecastItem)
    (days : Z) :
  described items ->
  exists result,
    OpenWeather.aggregateForecast items days = Normal result
    /\ map date result = firstn (Z.to_nat days) (dates_in_order items)
    /\ length result = Nat.min (Z.to_nat days) (length (dates_in_order items))
    /\ (forall d, In d (dates_in_order items) <-> exists it, In it items /\ item_date it = d).
Proof.
  intros H. eexists. split; [by apply aggregateForecast_form |].
  split; [| split].
  - rewrite map_map. simpl. apply map_id.
  - by rewrite length_map, length_firstn.
  - intros d. unfold dates_in_order. rewrite OrderFacts.distinct_In, in_map_iff.
    split; intros (it & H1 & H2); exists it; tauto.
Qed.

Lemma forecast_days_in_order_unsorted :
  let items :=
    (Scenarios.samples_for "2024-01-16" [1%Q] None
     ++ Scenarios.samples_for "2024-01-15" [2%Q; 3%Q] None
     ++ Scenarios.samples_for "2024-01-16" [4%Q] None) in
  described items
  /\ exists result,
       OpenWeather.aggregateForecast items 5 = Normal result
       /\ map date result = ["2024-01-16"; "2024-01-15"]%string.
Proof.
  intros items.
  assert (Hdesc : described items) by (repeat constructor; discriminate).
  split; [exact Hdesc |].
  destruct (forecast_days_in_order_first_met items 5 Hdesc) as (result & Hres & Hdates & _).
  exists result. split; [exact Hres | exact Hdates].
Defined.

Lemma aggregateForecast_normal_described (items : list OpenWeather.ForecastItem)
    (days : Z) :
  is_Normal (OpenWeather.aggregateForecast items days) = true -> described items.
Proof.
  unfold OpenWeather.aggregateForecast.
  assert (H : forall m,
            is_Normal (OpenWeather.for_of OpenWeather.collect_item items m) = true ->
            described items).
  { induction items as [| it items IH]; intros m; simpl; [constructor |].
    destruct (OpenWeather.fc_weather it) as [| d0 ds] eqn:Hw.
    - by rewrite ForecastFacts.collect_item_undescribed.
    - rewrite ForecastFacts.collect_item_group_step by congruence.
      intros Hn. constructor; [congruence | by apply IH in Hn]. }
  intros Hn. apply (H []).
  by destruct (OpenWeather.for_of OpenWeather.collect_item items []).
Qed.

(** X21. The aggregation returns exactly when every sample carries a
    weather entry; one sample without any makes it throw a [TypeError],
    whatever the number of days asked for, zero included. *)
Theorem aggregateForecast_returns_iff (items : list OpenWeather.ForecastItem) (days : Z) :
  (is_Normal (OpenWeather.aggregateForecast items days) = true <-> described items)
  /\ (~ described items ->
      OpenWeather.aggregateForecast items days = Throw (TypeError_undefined "description")).
Proof.
  split; [split |].
  - apply aggregateForecast_normal_described.
  - intros Hd. by rewrite aggregateForecast_form.
  - unfold OpenWeather.aggregateForecast. generalize (@nil (string * OpenWeather.DayAggregate)).
    induction items as [| it items IH]; intros m Hd; simpl.
    + exfalso. apply Hd. constructor.
    + destruct (OpenWeather.fc_weather it) as [| d0 ds] eqn:Hw.
      * by rewrite ForecastFacts.collect_item_undescribed.
      * rewrite ForecastFacts.collect_item_group_step by congruence.
        apply IH. intros Hrest. apply Hd. constructor; [congruence | exact Hrest].
Qed.

Example aggregateForecast_throws_for_zero_days :
  OpenWeather.aggregateForecast
    [OpenWeather.mkForecastItem 0 "2024-01-15 12:00:00" 1 1 1 1 1 1 [] 1 1 1 None None] 0
  = Throw (TypeError_undefined "description").
Proof. reflexivity. Qed.

(** X22. The later revision of the aggregation extends the first: on the
    same samples and day count, the days it returns carry, in [date],
    [minTemp], [maxTemp] and [description], exactly what the first revision
    returns. *)
Theorem revisions_agree (items : list OpenWeather.ForecastItem) (days : Z) :
  described items ->
  exists result,
    OpenWeather.aggregateForecast items days = Normal result
    /\ OpenWeatherV1.aggregateForecast (map to_v1 items) days
       = Normal (map common_fields result).
Proof.
  intros H. eexists. split; [by apply aggregateForecast_form |].
  assert (H1 : described_v1 (map to_v1 items)).
  { unfold described_v1, described in *. rewrite List.Forall_forall in *.
    intros it1 (it & <- & Hit)%in_map_iff. by apply H. }
  rewrite aggregateForecast_form_v1 by assumption.
  assert (Hdates : map item_date_v1 (map to_v1 items) = map item_date items)
    by (by rewrite map_map).
  rewrite Hdates, (map_map _ common_fields). unfold dates_in_order. f_equal.
  assert (Hon : forall d, on_day item_date_v1 d (map to_v1 items)
                          = map to_v1 (on_day item_date d items)).
  { intros d. unfold on_day. clear.
    induction items as [| it items IH]; [reflexivity |]. simpl.
    change (item_date_v1 (to_v1 it)) with (item_date it).
    destruct (String.eqb (item_date it) d); simpl; [f_equal |]; exact IH. }
  apply map_ext. intros d. rewrite Hon.
  unfold common_fields, OpenWeather.day_entry, OpenWeatherV1.day_entry,
    aggregate_of, aggregate_of_v1. simpl. by rewrite !map_map.
Qed.

Lemma revisions_agree_two_days :
  described Scenarios.two_days
  /\ exists result,
       OpenWeather.aggregateForecast Scenarios.two_days 5 = Normal result
       /\ OpenWeatherV1.aggregateForecast Scenarios.two_days_v1 5
          = Normal (map common_fields result).
Proof.
  assert (Hdesc : described Scenarios.two_days) by (repeat constructor; discriminate).
  split; [exact Hdesc |].
  exact (revisions_agree Scenarios.two_days 5 Hdesc).
Defined.

(** X23. The description of every day of the output is the most frequent
    of the first weather descriptions of that day's samples, the first met
    among equally frequent ones. *)
Theorem day_description_most_frequent (items : list OpenWeather.ForecastItem) (days : Z) :
  described items ->
  exists result,
    OpenWeather.aggregateForecast items days = Normal result
    /\ forall fd, In fd result ->
         exists d,
           day_description fd = Some d
           /\ first_most_frequent d
                (map (fun it => hd ""%string (OpenWeather.fc_weather it))
                   (on_day item_date (date fd) items)).
Proof.
  intros H. eexists. split; [by apply aggregateForecast_form |].
  intros fd Hin.
  destruct (ForecastFacts.aggregateForecast_day items days _ fd H
              (aggregateForecast_form items days H) Hin) as [Hne ->].
  simpl. apply MostFrequentFacts.getMostFrequent_first_most_frequent.
  by destruct (on_day item_date (date fd) items).
Qed.

Lemma day_description_most_frequent_two_days :
  described Scenarios.two_days
  /\ exists result,
       OpenWeather.aggregateForecast Scenarios.two_days 1 = Normal result
       /\ forall fd, In fd result -> exists d, day_description fd = Some d.
Proof.
  assert (Hdesc : described Scenarios.two_days) by (repeat constructor; discriminate).
  split; [exact Hdesc |].
  destruct (day_description_most_frequent Scenarios.two_days 1 Hdesc)
    as (result & Hres & Hall).
  exists result. split; [exact Hres |].
  intros fd Hin. destruct (Hall fd Hin) as (d & Hd & _). by exists d.
Defined.

End ForecastMore.

Module DailyAggregates.
Import Js JsNumber Types OpenWeather Spec More.
Local Open Scope list_scope.

(** C5, as stated, fails where the roundings of the host add up.  The
    eight amounts of the day of showers add up to a little over 10.35, which
    rounded to one decimal is 10.4; added up in doubles from the left they
    give 10.349999999999998, and the day's [totalRain] is 10.3. *)
Lemma exactly_rounded_total_fails :
  let amounts := map (fun it => default 0%float (fc_rain it)) Scenarios.showers in
  (exists day,
     aggregateForecast Scenarios.showers 5 = Normal [day]
     /\ totalRain day = Some 10.3%float)
  /\ (exists s, exact_total amounts = Some s /\ rounded_to_tenth s (104 # 10))
  /\ ~ exactly_rounded_total amounts 10.3%float.
Proof.
  intros amounts. split; [| split].
  - eexists. split; vm_compute; reflexivity.
  - eexists. split; [vm_compute; reflexivity |].
    exists 104%Z. split; [reflexivity |]. split; [by exists 104%Z |].
    split; [reflexivity | discriminate].
  - intros (s & r & q & Hs & (n & -> & (_ & Hlow & _)) & Hq & Hnear & _).
    vm_compute in Hs. injection Hs as <-.
    vm_compute in Hq. injection Hq as <-.
    assert (Hn : (104 <= n)%Z).
    { unfold Qlt in Hlow. cbn in Hlow. lia. }
    assert (Hn' : (n <= 103)%Z).
    { unfold Qlt in Hnear. cbn in Hnear. lia. }
    lia.
Qed.

(** C5, amended.  Given samples that all carry a weather entry, the
    aggregation returns one day for each of the first [days] distinct dates of the
    samples, in the order the dates are first met.  For every day [fd] it
    returns, with [samples] the non-empty list of the input samples whose
    date is [fd]'s, in the order they came: [minTemp] and [maxTemp] are the
    least and the greatest sample temperature; each average is the
    arithmetic mean of the per-sample values (for the wind, of the speeds
    times 3.6) rounded to one decimal; [maxPop] is the greatest
    precipitation probability times 100, rounded to the nearest integer;
    [totalRain] and [totalSnow] are the sums of the 3-hour amounts (zero
    for a sample without one) rounded to one decimal, present when that
    value is above zero and absent otherwise.  Sums, quotients and products
    are those of double-precision arithmetic, the sums taken from the left. *)
Theorem daily_aggregates (items : list ForecastItem) (days : Z) :
  described items ->
  exists result,
    aggregateForecast items days = Normal result
    /\ map date result = firstn (Z.to_nat days) (dates_in_order items)
    /\ forall fd, In fd result ->
         let samples := on_day item_date (date fd) items in
         samples <> []
         /\ is_minimum (minTemp fd) (map fc_temp samples)
         /\ is_maximum (maxTemp fd) (map fc_temp samples)
         /\ averaged (map fc_feels_like samples) (avgFeelsLike fd)
         /\ averaged (map fc_humidity samples) (avgHumidity fd)
         /\ averaged (map fc_pressure samples) (avgPressure fd)
         /\ averaged (map (fun it => fc_wind_speed it * 3.6)%float samples)
              (avgWindSpeed fd)
         /\ averaged (map fc_clouds_all samples) (avgClouds fd)
         /\ highest_percentage (map fc_pop samples) (maxPop fd)
         /\ optional_total (map (fun it => default 0%float (fc_rain it)) samples)
              (totalRain fd)
         /\ optional_total (map (fun it => default 0%float (fc_snow it)) samples)
              (totalSnow fd).
Proof.
  intros H. eexists. split; [by apply ForecastMore.aggregateForecast_form |].
  split; [rewrite map_map; apply map_id |].
  intros fd Hin samples.
  assert (Hday : samples <> [] /\ fd = day_entry (date fd) (aggregate_of samples)).
  { apply (ForecastFacts.aggregateForecast_day items days _ fd H
             (ForecastMore.aggregateForecast_form items days H) Hin). }
  destruct Hday as [Hne Hfd].
  assert (Hmap : forall (B : Type) (f : ForecastItem -> B), map f samples <> []).
  { intros B f. by destruct samples. }
  split; [exact Hne |].
  rewrite Hfd. unfold day_entry, aggregate_of. simpl.
  split; [by apply NumberFacts.Math_min_spec |].
  split; [by apply NumberFacts.Math_max_spec |].
  do 5 (split; [by apply ForecastFacts.averaged_avg |]).
  split; [by apply ForecastFacts.highest_percentage_pop |].
  split; apply ForecastFacts.optional_total_sum.
Qed.

(** The example of the specification, eight samples a day for two days,
    followed by a day of showers. *)
Lemma daily_aggregates_two_days :
  let items := Scenarios.two_days ++ Scenarios.showers in
  described items
  /\ exists result,
       aggregateForecast items 5 = Normal result
       /\ map date result = ["2024-01-15"; "2024-01-16"; "2024-01-17"]%string
       /\ forall fd, In fd result ->
            is_minimum (minTemp fd) (map fc_temp (on_day item_date (date fd) items))
            /\ averaged (map fc_humidity (on_day item_date (date fd) items))
                 (avgHumidity fd)
            /\ optional_total
                 (map (fun it => default 0%float (fc_rain it))
                    (on_day item_date (date fd) items))
                 (totalRain fd).
Proof.
  intros items.
  assert (Hdesc : described items) by (repeat constructor; discriminate).
  split; [exact Hdesc |].
  destruct (daily_aggregates items 5 Hdesc) as (result & Hres & Hdates & Hall).
  exists result. split; [exact Hres |]. split; [exact Hdates |].
  intros fd Hin.
  destruct (Hall fd Hin) as (_ & Hmin & _ & _ & Hhum & _ & _ & _ & _ & Hrain & _).
  split; [exact Hmin | split; [exact Hhum | exact Hrain]].
Defined.

(** The values of that example.  The amounts of the third day add up to
    10.349999999999998 in doubles, so its total is 10.3; and its 0.615 of
    probability becomes 61.5 when multiplied by 100, so its [maxPop] is 62. *)
Example two_days_values :
  exists d1 d2 d3,
    aggregateForecast (Scenarios.two_days ++ Scenarios.showers) 5 = Normal [d1; d2; d3]
    /\ date d1 = "2024-01-15"%string
    /\ minTemp d1 = Finite 8 /\ maxTemp d1 = Finite 15
    /\ totalRain d1 = None
    /\ date d2 = "2024-01-16"%string
    /\ minTemp d2 = Finite 5 /\ maxTemp d2 = Finite 12
    /\ totalRain d2 = Some 2.4%float
    /\ avgWindSpeed d2 = Some 18%float /\ maxPop d2 = Some 20%float
    /\ avgHumidity d2 = Some 70%float
    /\ day_description d2 = Some "clear sky"%string
    /\ JsDouble.reduce_add (map (fun it => default 0%float (fc_rain it)) Scenarios.showers)
       = 10.349999999999998%float
    /\ totalRain d3 = Some 10.3%float
    /\ maxPop d3 = Some 62%float
    /\ totalSnow d3 = None.
Proof. do 3 eexists. vm_compute. repeat split; reflexivity. Qed.

End DailyAggregates.

Module CurrentWeatherMore.
Import Js JsNumber Types OpenWeather.
Local Open Scope Q_scope.

(** X24. [mapToCurrentWeather] returns exactly when the body has a weather
    entry and the three timestamps (observation, sunrise, sunset) can be
    formatted; a body without a weather entry gives a [TypeError] before
    any timestamp is looked at.  In what it returns, the day flag is set
    exactly when [sunrise <= dt < sunset], the two timezone fields are the
    same text, and the fields no OpenWeather body has stay absent. *)
Theorem mapToCurrentWeather_outcome (rt : Runtime) (data : OpenWeatherCurrentResponse) :
  (is_Normal (mapToCurrentWeather rt data) = true <->
   weather data <> []
   /\ toISOString rt (dt data * 1000) <> None
   /\ toISOString rt (sys_sunrise (sys data) * 1000) <> None
   /\ toISOString rt (sys_sunset (sys data) * 1000) <> None)
  /\ (weather data = [] ->
      mapToCurrentWeather rt data = Throw (TypeError_undefined "description"))
  /\ (forall cw, mapToCurrentWeather rt data = Normal cw ->
        (isDay cw = true <->
         sys_sunrise (sys data) <= dt data /\ dt data < sys_sunset (sys data))
        /\ timezone cw = timezoneAbbreviation cw
        /\ elevation cw = None
        /\ units_windSpeed (units cw) = "km/h"%string).
Proof.
  unfold mapToCurrentWeather, formatTime.
  destruct (weather data) as [| w0 ws].
  - split; [| split; [reflexivity | discriminate]].
    simpl. split; [discriminate | intros [H _]; congruence].
  - destruct (toISOString rt (dt data * 1000)) as [t1 |];
      [| split; [| split; [discriminate | discriminate]];
         simpl; split; [discriminate | intros (_ & H & _); congruence]].
    destruct (toISOString rt (sys_sunrise (sys data) * 1000)) as [t2 |];
      [| split; [| split; [discriminate | discriminate]];
         simpl; split; [discriminate | intros (_ & _ & H & _); congruence]].
    destruct (toISOString rt (sys_sunset (sys data) * 1000)) as [t3 |];
      [| split; [| split; [discriminate | discriminate]];
         simpl; split; [discriminate | intros (_ & _ & _ & H); congruence]].
    split; [| split; [discriminate |]].
    + simpl. split; [intros _; repeat split; discriminate | reflexivity].
    + intros cw [= <-]. simpl. split; [| repeat split].
      unfold ge, lt. rewrite andb_true_iff, negb_true_iff, Qle_bool_iff.
      split.
      * intros [Hrise Hset]. split; [lra |].
        destruct (Qlt_le_dec (dt data) (sys_sunset (sys data))) as [? | Hle]; [assumption |].
        assert (Hb : Qle_bool (sys_sunset (sys data) * 1000) (dt data * 1000) = true)
          by (apply Qle_bool_iff; lra).
        congruence.
      * intros [Hrise Hset]. split; [lra |].
        apply not_true_is_false. intros Hb%Qle_bool_iff. lra.
Qed.

Example mapToCurrentWeather_noon :
  exists cw,
    mapToCurrentWeather Scenarios.fixed_runtime (Scenarios.london None) = Normal cw
    /\ isDay cw = true /\ timezone cw = "UTC+0"%string /\ windGust cw = None.
Proof. eexists. split; [reflexivity |]. repeat split. Qed.

(** X25. The OpenWeather provider never resolves to a raw body: whatever a
    current-weather call returns, by city or by coordinates, is a
    normalized result, and the call was made without [raw].  A failure of
    the upstream call is passed on as it is. *)
Theorem openweather_returns_normalized_only {W : Type} (client : AxiosInstance W)
    (rt : Runtime) (city : string) (coords : Coordinates)
    (options : option CurrentWeatherOptions) (w : W) :
  (forall r, fst (getCurrentWeatherByCity client rt city options w) = Normal r ->
     raw_requested options = false /\ exists cw, r = Normalized cw)
  /\ (forall r, fst (getCurrentWeatherByCoords client rt coords options w) = Normal r ->
        raw_requested options = false /\ exists cw, r = Normalized cw)
  /\ (forall e w', get_weather client (ByCity city) w = (Throw e, w') ->
        getCurrentWeatherByCity client rt city options w = (Throw e, w'))
  /\ (forall e w',
        get_weather client (ByCoords (latitude coords) (longitude coords)) w = (Throw e, w') ->
        getCurrentWeatherByCoords client rt coords options w = (Throw e, w')).
Proof.
  unfold getCurrentWeatherByCity, getCurrentWeatherByCoords, bind, throw, lift, ret.
  split; [| split; [| split]].
  - intros r.
    destruct (get_weather client (ByCity city) w) as [[d | e] w1]; [| discriminate].
    destruct (raw_requested options); [discriminate |].
    destruct (mapToCurrentWeather rt d) as [cw | e]; [| discriminate].
    intros [= <-]. split; [reflexivity | by exists cw].
  - intros r.
    destruct (get_weather client (ByCoords (latitude coords) (longitude coords)) w)
      as [[d | e] w1]; [| discriminate].
    destruct (raw_requested options); [discriminate |].
    destruct (mapToCurrentWeather rt d) as [cw | e]; [| discriminate].
    intros [= <-]. split; [reflexivity | by exists cw].
  - by intros e w' ->.
  - by intros e w' ->.
Qed.

End CurrentWeatherMore.

Module OpenMeteoFacts.
Import Js JsNumber Types Errors OpenMeteo.
Local Open Scope list_scope.

(** A geocoding answer without results: the key is absent or the list is
    empty. *)
Lemma geocode_not_found {W : Type} (http : Http W) (city : string) (w w1 : W)
    (data : GeocodingResponse) :
  search http city w = (Normal data, w1) ->
  (results data = None \/ results data = Some []) ->
  geocode http city w
  = (Throw (ThrownObject (new_Error ("City not found: " +:+ city))), w1).
Proof.
  intros Hs Hr. unfold geocode, bind, throw. rewrite Hs.
  by destruct Hr as [-> | ->].
Qed.

Lemma getCurrentWeatherByCity_not_found {W : Type} (http : Http W) (rt : Runtime)
    (codes : Q -> option string) (city : string)
    (options : option CurrentWeatherOptions) (w w1 : W) (data : GeocodingResponse) :
  search http city w = (Normal data, w1) ->
  (results data = None \/ results data = Some []) ->
  getCurrentWeatherByCity http rt codes city options w
  = (Throw (ThrownObject (new_Error ("City not found: " +:+ city))), w1).
Proof.
  intros Hs Hr. unfold getCurrentWeatherByCity, bind.
  by rewrite (geocode_not_found http city w w1 data Hs Hr).
Qed.

(** X26. With Open-Meteo as primary provider, a city the geocoder has no
    result for is reported as a [WeatherError] whose message is
    "City not found: " followed by the caller's city, with the provider's
    error as cause; no weather request is made (the world is the one the
    geocoding search left), raw mode or not, and the fallback provider is
    never called. *)
Theorem unknown_city_reported_with_name {W : Type} (this : LotusWeather.Instance W)
    (http : Http W) (rt : Runtime) (codes : Q -> option string) (city : string)
    (options : option CurrentWeatherOptions) (st : LotusWeather.State W)
    (data : GeocodingResponse) (w1 : W) :
  Types.getCurrentWeatherByCity (LotusWeather.primaryProvider this)
  = getCurrentWeatherByCity http rt codes ->
  search http city (LotusWeather.world st) = (Normal data, w1) ->
  (results data = None \/ results data = Some []) ->
  let run :=
    LotusWeather.executeWithFallback this
      (fun provider => Types.getCurrentWeatherByCity provider city options)
      "getCurrentWeather" st in
  fst run
  = Throw (ThrownObject
             (new_WeatherError ("City not found: " +:+ city)
                (Some (new_Error ("City not found: " +:+ city)))))
  /\ LotusWeather.invoked (snd run) = LotusWeather.invoked st ++ [LotusWeather.primary]
  /\ LotusWeather.world (snd run) = w1.
Proof.
  intros Hprov Hs Hr run. subst run.
  rewrite OrchestratorMore.executeWithFallback_cases, Hprov.
  rewrite (getCurrentWeatherByCity_not_found http rt codes city options _ w1 data Hs Hr).
  assert (Hperm : isTransientError (ThrownObject (new_Error ("City not found: " +:+ city)))
                  = false) by reflexivity.
  assert (Hwrap : LotusWeather.wrapError
                    (ThrownObject (new_Error ("City not found: " +:+ city)))
                    "getCurrentWeather"
                  = new_WeatherError ("City not found: " +:+ city)
                      (Some (new_Error ("City not found: " +:+ city)))).
  { assert (Hinc : JsString.includes "City not found" ("City not found: " +:+ city) = true)
      by exact (MessageFacts.includes_here _ _
                  (MessageFacts.startsWith_app "City not found" (": " +:+ city))).
    unfold LotusWeather.wrapError, new_Error. cbn [proto message]. by rewrite Hinc. }
  rewrite Hperm, Hwrap. by destruct (LotusWeather.fallbackProvider_ this).
Qed.

Lemma unknown_city_reported_with_name_atlantis :
  let run :=
    LotusWeather.executeWithFallback OpenMeteoScenarios.instance
      (fun provider => Types.getCurrentWeatherByCity provider "Atlantis" None)
      "getCurrentWeather" (Scenarios.fresh None) in
  fst run
  = Throw (ThrownObject
             (new_WeatherError "City not found: Atlantis"
                (Some (new_Error "City not found: Atlantis"))))
  /\ LotusWeather.invoked (snd run) = [LotusWeather.primary]
  /\ LotusWeather.world (snd run) = 1%nat.
Proof.
  exact (unknown_city_reported_with_name OpenMeteoScenarios.instance
           OpenMeteoScenarios.london_only Scenarios.fixed_runtime
           OpenMeteoScenarios.some_codes "Atlantis" None (Scenarios.fresh None)
           (mkGeocodingResponse None) 1%nat eq_refl eq_refl (or_introl eq_refl)).
Defined.

(** X27. For a city the geocoder knows, the Open-Meteo provider asks for the
    weather at the first result's coordinates.  With [raw] it returns the
    upstream body as it came; without, it returns a normalized result that
    carries the caller's city string, the upstream wind speed, wind
    direction and temperature unchanged, "Unknown" for a weather code the
    table does not have, and none of the OpenWeather-only fields. *)
Theorem open_meteo_city_result {W : Type} (http : Http W) (rt : Runtime)
    (codes : Q -> option string) (city : string)
    (options : option CurrentWeatherOptions) (w w1 w2 : W)
    (data : GeocodingResponse) (location : GeocodingResult)
    (others : list GeocodingResult) (body : OpenMeteoCurrentWeatherRaw) :
  search http city w = (Normal data, w1) ->
  results data = Some (location :: others) ->
  current_weather http (mkCoordinates (g_latitude location) (g_longitude location)) w1
  = (Normal body, w2) ->
  exists r,
    getCurrentWeatherByCity http rt codes city options w = (Normal r, w2)
    /\ (raw_requested options = true -> r = RawBody body)
    /\ (raw_requested options = false ->
        exists cw,
          r = Normalized cw
          /\ Types.city cw = city
          /\ windSpeed cw = raw_windspeed body
          /\ windDirection cw = raw_winddirection body
          /\ temperature cw = raw_temperature body
          /\ (codes (raw_weathercode body) = None -> description cw = "Unknown"%string)
          /\ (forall text, codes (raw_weathercode body) = Some text -> description cw = text)
          /\ (isDay cw = true <-> (raw_is_day body == 1)%Q)
          /\ windGust cw = None /\ humidity cw = None /\ feelsLike cw = None).
Proof.
  intros Hs Hr Hc.
  unfold getCurrentWeatherByCity, geocode, getCurrentWeatherByCoords, bind, ret.
  rewrite Hs, Hr. simpl. rewrite Hc.
  destruct (raw_requested options); simpl.
  - eexists. split; [reflexivity |]. split; [reflexivity | discriminate].
  - eexists. split; [reflexivity |]. split; [discriminate |]. intros _.
    eexists. split; [reflexivity |]. simpl. repeat split.
    + by intros ->.
    + by intros text ->.
    + by intros ?%Qeq_bool_iff.
    + by intros ?%Qeq_bool_iff.
Qed.

Lemma open_meteo_city_result_london :
  exists r,
    getCurrentWeatherByCity OpenMeteoScenarios.london_only Scenarios.fixed_runtime
      OpenMeteoScenarios.some_codes "London" Scenarios.raw_options 0%nat
    = (Normal r, 2%nat)
    /\ r = RawBody Scenarios.raw_body.
Proof.
  destruct (open_meteo_city_result OpenMeteoScenarios.london_only Scenarios.fixed_runtime
              OpenMeteoScenarios.some_codes "London" Scenarios.raw_options 0%nat 1%nat 2%nat
              _ _ _ Scenarios.raw_body eq_refl eq_refl eq_refl) as (r & Hrun & Hraw & _).
  exists r. split; [exact Hrun | exact (Hraw eq_refl)].
Defined.

End OpenMeteoFacts.

Module KeyFacts.
Import Cache.

(** X7. The location inside a key is in normal form: building a key from
    the normalised location (lower case, trimmed) gives the same key as
    building it from the location itself, and an empty discriminator is the
    same as none. *)
Theorem createKey_normalised (provider : string) (method : CacheKeyType)
    (location : string) (options : option string) :
  createKey provider method (JsString.trim (JsString.toLowerCase location)) options
  = createKey provider method location options
  /\ createKey provider method location (Some ""%string)
     = createKey provider method location None.
Proof.
  split; [| reflexivity].
  unfold createKey. by rewrite StringFacts.normalise_idempotent.
Qed.

End KeyFacts.

Module ForecastProviderFacts.
Import Js JsNumber Types OpenWeather Spec More.
Local Open Scope list_scope.

Lemma aggregateForecast_bounds (items : list ForecastItem) (days : Z)
    (result : list ForecastDay) :
  aggregateForecast items days = Normal result ->
  (length result <= Z.to_nat days)%nat /\ List.NoDup (map date result).
Proof.
  intros Hagg.
  assert (Hd : described items).
  { apply (ForecastMore.aggregateForecast_normal_described items days). by rewrite Hagg. }
  rewrite (ForecastMore.aggregateForecast_form items days Hd) in Hagg.
  injection Hagg as <-. split.
  - rewrite length_map. apply firstn_le_length.
  - rewrite map_map. simpl. rewrite map_id.
    apply ForecastFacts.NoDup_firstn, OrderFacts.distinct_NoDup.
Qed.

(** X28. The forecast methods of the OpenWeather provider aggregate the
    upstream list into at most [options.days] days, five when no count is
    given, with pairwise distinct dates; a failure of the upstream call is
    passed on as it is. *)
Theorem forecast_provider_outcome {W : Type} (client : AxiosInstance W)
    (city : string) (coords : Coordinates) (options : option ForecastOptions) (w : W) :
  (forall result,
     fst (getForecastByCity client city options w) = Normal result
     \/ fst (getForecastByCoords client coords options w) = Normal result ->
     (length result <= Z.to_nat (days_or_default options))%nat
     /\ List.NoDup (map date result))
  /\ (options = None \/ options = Some (mkForecastOptions None) ->
      days_or_default options = 5%Z)
  /\ (forall e w', get_forecast client (ByCity city) w = (Throw e, w') ->
        getForecastByCity client city options w = (Throw e, w'))
  /\ (forall e w',
        get_forecast client (ByCoords (latitude coords) (longitude coords)) w = (Throw e, w') ->
        getForecastByCoords client coords options w = (Throw e, w')).
Proof.
  unfold getForecastByCity, getForecastByCoords, bind, lift.
  split; [| split; [| split]].
  - intros result [H | H].
    + destruct (get_forecast client (ByCity city) w) as [[items | e] w1]; [| discriminate].
      by apply (aggregateForecast_bounds items).
    + destruct (get_forecast client (ByCoords (latitude coords) (longitude coords)) w)
        as [[items | e] w1]; [| discriminate].
      by apply (aggregateForecast_bounds items).
  - by intros [-> | ->].
  - by intros e w' ->.
  - by intros e w' ->.
Qed.

End ForecastProviderFacts.
